(** * Workflow execution engine: a shallow embedding and its properties

    The development follows the Python sources
      - [backend/workflows/execution_engine.py]
      - [backend/workflows/expression_evaluator.py]
      - [backend/workflows/node_executors/data_nodes.py]
      - [backend/workflows/node_executors/output_nodes.py]
      - [backend/workflows/node_executors/trigger_nodes.py]

    Conventions.
      - A Python [str] is a [string]; every character is read as a code
        point below 256.
      - A Python [dict] is an association list in insertion order
        ([dict V]); writing an existing key keeps its position, as in
        Python.
      - A Python exception is a value of [exn]; code that may raise
        returns a [result].
      - [float] is the IEEE binary64 type of the kernel. *)

From Stdlib Require Import ZArith List String Ascii Bool Lia Permutation.
From Stdlib Require Import Relations.Relation_Operators.
From Stdlib Require Import Floats.PrimFloat Floats.SpecFloat Floats.FloatOps.
From Stdlib Require Import DecimalString.
Import ListNotations.
Set Warnings "-register-all".
Open Scope string_scope.
Open Scope Z_scope.

(* ===================================================================== *)
(** ** Exceptions and results *)
(* ===================================================================== *)

Inductive exn : Type :=
| KeyError (key : string)
| ValueError (msg : string)
| TypeError (msg : string)
| AttributeError (msg : string)
| OverflowError (msg : string)
| RecursionError
| NodeExecutionError (msg : string)
| OtherError (msg : string).

Inductive result (A : Type) : Type :=
| Ok (a : A)
| Raise (e : exn).
Arguments Ok {A} a.
Arguments Raise {A} e.

Definition bind {A B : Type} (r : result A) (k : A -> result B) : result B :=
  match r with
  | Ok a => k a
  | Raise e => Raise e
  end.

Notation "x <- c ;; k" := (bind c (fun x => k))
  (at level 61, c at next level, right associativity).

Fixpoint mapM {A B : Type} (f : A -> result B) (l : list A) : result (list B) :=
  match l with
  | [] => Ok []
  | a :: l' => b <- f a ;; bs <- mapM f l' ;; Ok (b :: bs)
  end.

(* ===================================================================== *)
(** ** Python dictionaries *)
(* ===================================================================== *)

Definition dict (V : Type) : Type := list (string * V).

Fixpoint dget {V : Type} (d : dict V) (k : string) : option V :=
  match d with
  | [] => None
  | (k', v) :: d' => if String.eqb k' k then Some v else dget d' k
  end.

(** [d[k] = v]: an existing key is overwritten in place, a new key is
    appended. *)
Fixpoint dset {V : Type} (d : dict V) (k : string) (v : V) : dict V :=
  match d with
  | [] => [(k, v)]
  | (k', v') :: d' =>
      if String.eqb k' k then (k', v) :: d' else (k', v') :: dset d' k v
  end.

Definition dkeys {V : Type} (d : dict V) : list string := map fst d.

Definition dmem {V : Type} (d : dict V) (k : string) : bool :=
  match dget d k with Some _ => true | None => false end.

(** [d.get(k, default)] *)
Definition dget_default {V : Type} (d : dict V) (k : string) (default : V) : V :=
  match dget d k with Some v => v | None => default end.

(** [d1.update(d2)] *)
Definition dupdate {V : Type} (d1 d2 : dict V) : dict V :=
  fold_left (fun d kv => dset d (fst kv) (snd kv)) d2 d1.

Definition mem (x : string) (l : list string) : bool :=
  existsb (String.eqb x) l.

(* ===================================================================== *)
(** ** Python values (the JSON-shaped fragment) *)
(* ===================================================================== *)

Inductive value : Type :=
| VNone
| VBool (b : bool)
| VInt (z : Z)
| VFloat (f : float)
| VStr (s : string)
| VList (l : list value)
| VDict (d : list (string * value)).

(** Truth value of an object, as tested by [if x], [not x], [x or y]. *)
Definition truthy (v : value) : bool :=
  match v with
  | VNone => false
  | VBool b => b
  | VInt z => negb (z =? 0)
  | VFloat f => negb (PrimFloat.eqb f PrimFloat.zero)
  | VStr s => negb (String.eqb s EmptyString)
  | VList l => match l with [] => false | _ => true end
  | VDict d => match d with [] => false | _ => true end
  end.

(** [isinstance(v, dict)], [isinstance(v, str)], [isinstance(v, (int, float))];
    [bool] is a subclass of [int]. *)
Definition is_dict (v : value) : bool :=
  match v with VDict _ => true | _ => false end.
Definition is_str (v : value) : bool :=
  match v with VStr _ => true | _ => false end.
Definition is_number (v : value) : bool :=
  match v with VBool _ | VInt _ | VFloat _ => true | _ => false end.

(** [float(z)] for an [int]: round to nearest even; an integer too large
    for binary64 raises [OverflowError]. *)
Definition float_of_Z (z : Z) : float :=
  SF2Prim (binary_normalize 53 1024 z 0 false).

Definition is_infinite (f : float) : bool :=
  PrimFloat.eqb f PrimFloat.infinity || PrimFloat.eqb f PrimFloat.neg_infinity.

Definition int_to_float (z : Z) : result float :=
  let f := float_of_Z z in
  if is_infinite f then Raise (OverflowError "int too large to convert to float")
  else Ok f.

(* ===================================================================== *)
(** ** Python string operations *)
(* ===================================================================== *)

Definition code (c : ascii) : N := N_of_ascii c.

Definition char_eqb (a b : ascii) : bool := Ascii.eqb a b.

(** Characters removed by [str.strip()] without argument. *)
Definition is_space (c : ascii) : bool :=
  let n := code c in
  ((9 <=? n) && (n <=? 13) || (28 <=? n) && (n <=? 32)
   || (n =? 133) || (n =? 160))%N.

Definition is_digit (c : ascii) : bool :=
  let n := code c in ((48 <=? n) && (n <=? 57))%N.

(** The character class [[a-zA-Z0-9_\.\[\]]]. *)
Definition is_ref_char (c : ascii) : bool :=
  let n := code c in
  ((97 <=? n) && (n <=? 122) || (65 <=? n) && (n <=? 90)
   || (48 <=? n) && (n <=? 57)
   || (n =? 95) || (n =? 46) || (n =? 91) || (n =? 93))%N.

Definition lower_char (c : ascii) : ascii :=
  let n := code c in
  if ((65 <=? n) && (n <=? 90)
      || (192 <=? n) && (n <=? 222) && negb (n =? 215))%N
  then ascii_of_N (n + 32) else c.

(** [s.lower()] *)
Fixpoint lower (s : string) : string :=
  match s with
  | EmptyString => EmptyString
  | String c s' => String (lower_char c) (lower s')
  end.

(** [s.startswith(p)] *)
Definition startswith (s p : string) : bool := String.prefix p s.

(** [sub in s] *)
Fixpoint contains (s sub : string) : bool :=
  String.prefix sub s
  || match s with
     | EmptyString => false
     | String _ s' => contains s' sub
     end.

(** [c in s] for a single character. *)
Fixpoint has_char (s : string) (c : ascii) : bool :=
  match s with
  | EmptyString => false
  | String c' s' => char_eqb c' c || has_char s' c
  end.

(** [s[n:]] *)
Fixpoint drop (n : nat) (s : string) : string :=
  match n, s with
  | O, _ => s
  | S _, EmptyString => EmptyString
  | S n', String _ s' => drop n' s'
  end.

(** The longest prefix of [s] whose characters satisfy [p], and the rest. *)
Fixpoint span (p : ascii -> bool) (s : string) : string * string :=
  match s with
  | EmptyString => (EmptyString, EmptyString)
  | String c s' =>
      if p c then let (a, b) := span p s' in (String c a, b)
      else (EmptyString, s)
  end.

Fixpoint lstrip (p : ascii -> bool) (s : string) : string :=
  match s with
  | EmptyString => EmptyString
  | String c s' => if p c then lstrip p s' else s
  end.

Fixpoint rstrip (p : ascii -> bool) (s : string) : string :=
  match s with
  | EmptyString => EmptyString
  | String c s' =>
      match rstrip p s' with
      | EmptyString => if p c then EmptyString else String c EmptyString
      | r => String c r
      end
  end.

(** [s.strip()] and [s.strip(chars)] *)
Definition strip_with (p : ascii -> bool) (s : string) : string :=
  rstrip p (lstrip p s).

Definition strip (s : string) : string := strip_with is_space s.

(** [s.split(sep)] for a one-character separator, and [re.split] on a
    class of single characters: the pieces between separators, empty
    pieces included. *)
Fixpoint split_on (p : ascii -> bool) (s : string) : list string :=
  match s with
  | EmptyString => [EmptyString]
  | String c s' =>
      let r := split_on p s' in
      if p c then EmptyString :: r
      else match r with
           | [] => [String c EmptyString]
           | h :: t => String c h :: t
           end
  end.

Definition split (s : string) (sep : ascii) : list string :=
  split_on (char_eqb sep) s.

(** [sep.join(l)] *)
Fixpoint join (sep : string) (l : list string) : string :=
  match l with
  | [] => EmptyString
  | [x] => x
  | x :: l' => x ++ sep ++ join sep l'
  end.

(** [s.replace(old, new)] for a non-empty [old]: occurrences are replaced
    from left to right and do not overlap.  [skip] counts the characters
    of a matched occurrence that remain to be passed over. *)
Fixpoint replace_from (old new : string) (skip : nat) (s : string) : string :=
  match s with
  | EmptyString => EmptyString
  | String c s' =>
      match skip with
      | S k => replace_from old new k s'
      | O =>
          if String.prefix old s
          then new ++ replace_from old new (Nat.pred (String.length old)) s'
          else String c (replace_from old new O s')
      end
  end.

Definition replace (s old new : string) : string := replace_from old new O s.

(** Decimal digits with single underscores between them, as [int()]
    accepts; the accumulator holds the value read so far. *)
Fixpoint digits_value (s : string) (acc : Z) (after_digit : bool) : option Z :=
  match s with
  | EmptyString => if after_digit then Some acc else None
  | String c s' =>
      if is_digit c
      then digits_value s' (10 * acc + Z.of_N (code c - 48)) true
      else if (code c =? 95)%N
           then if after_digit then digits_value s' acc false else None
           else None
  end.

(** The white space [int()] accepts around the digits: unlike
    [str.strip()], not the separators 28 to 31. *)
Definition is_number_space (c : ascii) : bool :=
  let n := code c in
  ((9 <=? n) && (n <=? 13) || (n =? 32) || (n =? 133) || (n =? 160))%N.

(** [int(s)]: [None] stands for [ValueError]. *)
Definition py_int (s : string) : option Z :=
  match strip_with is_number_space s with
  | String "-" r => option_map Z.opp (digits_value r 0 false)
  | String "+" r => digits_value r 0 false
  | r => digits_value r 0 false
  end.

(** [str(z)] for an [int]. *)
Definition string_of_Z (z : Z) : string :=
  NilZero.string_of_int (Z.to_int z).

Definition hex_digit (n : N) : ascii :=
  if (n <? 10)%N then ascii_of_N (48 + n) else ascii_of_N (87 + n).

(** The escape of one character inside a JSON string ([ensure_ascii]). *)
Definition json_escape_char (c : ascii) : string :=
  let n := code c in
  if (n =? 34)%N then String "\" (String c EmptyString)
  else if (n =? 92)%N then "\\"
  else if (n =? 10)%N then "\n"
  else if (n =? 13)%N then "\r"
  else if (n =? 9)%N then "\t"
  else if (n =? 8)%N then "\b"
  else if (n =? 12)%N then "\f"
  else if ((32 <=? n) && (n <=? 126))%N then String c EmptyString
  else "\u00" ++ String (hex_digit (n / 16)) (String (hex_digit (n mod 16)) EmptyString).

Fixpoint json_escape (s : string) : string :=
  match s with
  | EmptyString => EmptyString
  | String c s' => json_escape_char c ++ json_escape s'
  end.

(* ===================================================================== *)
(** ** Primitives of the Python runtime that are taken as given *)
(* ===================================================================== *)

(** The textual forms of strings and floats, the parsers of the standard
    library, the builtin [eval] and the wall clock are not defined by the
    repository; the development is parametric in them. *)
Class PyRuntime : Type := {
  (** [repr(s)] for a [str] *)
  str_repr : string -> string;
  (** [repr(f)] for a [float] *)
  float_repr : float -> string;
  (** the JSON text of a [float] *)
  json_float : float -> string;
  (** [float(s)] for a [str]; [None] when it raises [ValueError] *)
  float_of_string : string -> option float;
  (** [json.loads(s)]; [None] when it raises *)
  json_loads : string -> option value;
  (** [eval(expr, {"__builtins__": {}}, {})] *)
  py_eval : string -> result value;
  (** the [n]-th reading of [datetime.now()]: epoch milliseconds and
      ISO text *)
  clock_ms : nat -> float;
  clock_iso : nat -> string;
  (** how many nested calls of the evaluator the interpreter's recursion
      limit leaves room for *)
  recursion_budget : nat
}.

Section Conversions.
Context {rt : PyRuntime}.

(** [repr(v)] *)
Fixpoint py_repr (v : value) : string :=
  match v with
  | VNone => "None"
  | VBool true => "True"
  | VBool false => "False"
  | VInt z => string_of_Z z
  | VFloat f => float_repr f
  | VStr s => str_repr s
  | VList l => "[" ++ join ", " (map py_repr l) ++ "]"
  | VDict d =>
      "{" ++ join ", " (map (fun '(k, x) => str_repr k ++ ": " ++ py_repr x) d)
          ++ "}"
  end.

(** [str(v)] *)
Definition py_str (v : value) : string :=
  match v with
  | VStr s => s
  | _ => py_repr v
  end.

(** [float(v)] *)
Definition py_float (v : value) : result float :=
  match v with
  | VBool true => Ok PrimFloat.one
  | VBool false => Ok PrimFloat.zero
  | VInt z => int_to_float z
  | VFloat f => Ok f
  | VStr s =>
      match float_of_string s with
      | Some f => Ok f
      | None => Raise (ValueError "could not convert string to float")
      end
  | _ => Raise (TypeError "float() argument must be a string or a real number")
  end.

Definition newline : string := String (ascii_of_N 10) EmptyString.

Fixpoint spaces (n : nat) : string :=
  match n with
  | O => EmptyString
  | S n' => String " " (spaces n')
  end.

Definition json_string (s : string) : string :=
  String (ascii_of_N 34) (json_escape s ++ String (ascii_of_N 34) EmptyString).

(** [json.dumps(v, indent=2)] at nesting depth [level]. *)
Fixpoint json_dumps_at (level : nat) (v : value) : string :=
  let inner := newline ++ spaces (2 * S level) in
  let close := newline ++ spaces (2 * level) in
  match v with
  | VNone => "null"
  | VBool true => "true"
  | VBool false => "false"
  | VInt z => string_of_Z z
  | VFloat f => json_float f
  | VStr s => json_string s
  | VList [] => "[]"
  | VList l =>
      "[" ++ inner ++ join ("," ++ inner) (map (json_dumps_at (S level)) l)
          ++ close ++ "]"
  | VDict [] => "{}"
  | VDict d =>
      "{" ++ inner
          ++ join ("," ++ inner)
               (map (fun '(k, x) => json_string k ++ ": " ++ json_dumps_at (S level) x) d)
          ++ close ++ "}"
  end.

Definition json_dumps (v : value) : string := json_dumps_at 0 v.

End Conversions.

(* ===================================================================== *)
(** ** expression_evaluator.py *)
(* ===================================================================== *)

Module ExpressionEvaluator.
Section Evaluator.
Context {rt : PyRuntime}.

(** The attributes set by [__init__]. *)
Record t : Type := {
  node_results : value;
  json_data : value;
  vars : value
}.

Definition __init__ (context : dict value) : t :=
  {| node_results := dget_default context "node_results" (VDict []);
     json_data := dget_default context "json" (VDict []);
     vars := dget_default context "$vars" (VDict []) |}.

Variable self : t.

(** *** Path lookup *)

Definition is_path_sep (c : ascii) : bool :=
  let n := code c in ((n =? 46) || (n =? 91) || (n =? 93))%N.

Definition is_quote (c : ascii) : bool :=
  let n := code c in ((n =? 34) || (n =? 39))%N.

Definition nonempty (s : string) : bool := negb (String.eqb s EmptyString).

(** [re.split(r'\.|\[|\]', path)], empty pieces dropped, quotes stripped. *)
Definition path_parts (path : string) : list string :=
  map (strip_with is_quote) (filter nonempty (split_on is_path_sep path)).

(** One step of the loop of [_get_nested_value]; [None] is the early
    [return None]. *)
Definition step_into (current : value) (part : string) : option value :=
  match current with
  | VDict d => Some (dget_default d part VNone)
  | VList l =>
      match py_int part with
      | Some index =>
          if (0 <=? index) && (index <? Z.of_nat (List.length l))
          then Some (nth (Z.to_nat index) l VNone)
          else None
      | None => None
      end
  | _ => None
  end.

Fixpoint walk (current : value) (parts : list string) : value :=
  match parts with
  | [] => current
  | part :: rest =>
      if nonempty part
      then match step_into current part with
           | None => VNone
           | Some VNone => VNone
           | Some next => walk next rest
           end
      else walk current rest
  end.

Definition _get_nested_value (obj : value) (path : string) : value :=
  if nonempty path then walk obj (path_parts path) else obj.

(** [re.sub(r'^\$?json\.?', '', path)] *)
Definition drop_optional_dot (s : string) : string :=
  match s with
  | String "." s' => s'
  | _ => s
  end.

Definition strip_json_prefix (path : string) : string :=
  if startswith path "$json" then drop_optional_dot (drop 5 path)
  else if startswith path "json" then drop_optional_dot (drop 4 path)
  else path.

(** [re.sub(r'^\$vars\.?', '', path)] *)
Definition strip_vars_prefix (path : string) : string :=
  if startswith path "$vars" then drop_optional_dot (drop 5 path) else path.

Definition _evaluate_json_path (path : string) : value :=
  let path := strip_json_prefix path in
  if nonempty path then _get_nested_value (json_data self) path
  else json_data self.

Definition _evaluate_vars_path (path : string) : value :=
  let path := strip_vars_prefix path in
  if nonempty path then _get_nested_value (vars self) path
  else vars self.

Definition _get_node_output (node_id : string) (path : option string)
  : result value :=
  match node_results self with
  | VDict results =>
      let node_result := dget_default results node_id VNone in
      if truthy node_result then
        let data :=
          match node_result with
          | VDict r => dget_default r "main" node_result
          | _ => node_result
          end in
        match path with
        | Some p => if nonempty p then Ok (_get_nested_value data p) else Ok data
        | None => Ok data
        end
      else Ok VNone
  | _ => Raise (AttributeError "object has no attribute 'get'")
  end.

Definition _evaluate_path (path : string) : value :=
  if startswith path "json" || startswith path "$json"
  then _evaluate_json_path path
  else if startswith path "$vars" then _evaluate_vars_path path
  else _get_nested_value (json_data self) path.

(** *** Regular expressions of the module *)

(** A match of [\$\{\{([^}]+)\}\}] at the head of [s]: the captured group
    and the length of the whole match. *)
Definition match_block (s : string) : option (string * nat) :=
  if startswith s "${{" then
    let (body, rest) := span (fun c => negb (char_eqb c "}")) (drop 3 s) in
    if nonempty body && startswith rest "}}"
    then Some (body, (3 + String.length body + 2)%nat)
    else None
  else None.

(** [re.findall(pattern, s)]: leftmost matches that do not overlap. *)
Fixpoint findall_from (skip : nat) (s : string) : list string :=
  match s with
  | EmptyString => []
  | String _ s' =>
      match skip with
      | S k => findall_from k s'
      | O =>
          match match_block s with
          | Some (body, n) => body :: findall_from (Nat.pred n) s'
          | None => findall_from O s'
          end
      end
  end.

Definition findall_blocks (s : string) : list string := findall_from O s.

(** [re.sub(pre + r'([a-zA-Z0-9_\.\[\]]+)', lambda m: f(m.group(1)), s)]
    for a literal prefix [pre]. *)
Fixpoint sub_refs_from (pre : string) (f : string -> string) (skip : nat)
  (s : string) : string :=
  match s with
  | EmptyString => EmptyString
  | String c s' =>
      match skip with
      | S k => sub_refs_from pre f k s'
      | O =>
          let (group, _) := span is_ref_char (drop (String.length pre) s) in
          if startswith s pre && nonempty group
          then f group
               ++ sub_refs_from pre f
                    (Nat.pred (String.length pre + String.length group)) s'
          else String c (sub_refs_from pre f O s')
      end
  end.

Definition json_ref_repr (group : string) : string :=
  py_repr (_evaluate_json_path ("json." ++ group)).

Definition substitute_json_refs (expr : string) : string :=
  let expr := sub_refs_from "$json." json_ref_repr O expr in
  sub_refs_from "json." json_ref_repr O expr.

(** *** The arithmetic of [_evaluate_javascript] *)

(** An [int] or a [float], with Python's promotion on mixed operands. *)
Inductive num : Type :=
| NInt (z : Z)
| NFloat (f : float).

Definition num_to_float (n : num) : result float :=
  match n with
  | NInt z => int_to_float z
  | NFloat f => Ok f
  end.

Definition num_value (n : num) : value :=
  match n with
  | NInt z => VInt z
  | NFloat f => VFloat f
  end.

Definition num_add (a b : num) : result num :=
  match a, b with
  | NInt x, NInt y => Ok (NInt (x + y))
  | _, _ => x <- num_to_float a ;; y <- num_to_float b ;;
            Ok (NFloat (PrimFloat.add x y))
  end.

Definition num_mul (a b : num) : result num :=
  match a, b with
  | NInt x, NInt y => Ok (NInt (x * y))
  | _, _ => x <- num_to_float a ;; y <- num_to_float b ;;
            Ok (NFloat (PrimFloat.mul x y))
  end.

(** [float(v) if isinstance(v, (int, float)) else 0] *)
Definition number_or_zero (v : value) : result num :=
  if is_number v then f <- py_float v ;; Ok (NFloat f) else Ok (NInt 0).

Fixpoint fold_num (op : num -> num -> result num) (acc : num)
  (l : list value) : result num :=
  match l with
  | [] => Ok acc
  | v :: l' => n <- number_or_zero v ;; acc' <- op acc n ;; fold_num op acc' l'
  end.

(** [sum(float(v) if isinstance(v, (int, float)) else 0 for v in l)] *)
Definition sum_numbers (l : list value) : result num := fold_num num_add (NInt 0) l.

(** The branch [elif '/' in expr]. *)
Definition divide (values : list value) : result value :=
  match values with
  | v0 :: v1 :: _ =>
      d <- py_float v1 ;;
      if negb (PrimFloat.eqb d PrimFloat.zero)
      then a <- py_float v0 ;; b <- py_float v1 ;; Ok (VFloat (PrimFloat.div a b))
      else Ok (VInt 0)
  | _ => Ok (VInt 0)
  end.

(** The body of the [try] block, after the two substitutions;
    [evaluate_operand] is the recursive call [self._evaluate_expression]. *)
Definition javascript_body (evaluate_operand : string -> result value)
  (expr : string) : result value :=
  let operands sep := mapM (fun p => evaluate_operand (strip p)) (split expr sep) in
  if has_char expr "+" then
    values <- operands "+"%char ;;
    total <- sum_numbers values ;;
    Ok (num_value total)
  else if has_char expr "-" then
    values <- operands "-"%char ;;
    first <- py_float (hd VNone values) ;;
    rest <- sum_numbers (tl values) ;;
    r <- num_to_float rest ;;
    Ok (VFloat (PrimFloat.sub first r))
  else if has_char expr "*" then
    values <- operands "*"%char ;;
    product <- fold_num num_mul (NInt 1) values ;;
    Ok (num_value product)
  else if has_char expr "/" then
    values <- operands "/"%char ;;
    divide values
  else py_eval expr.

(** [except Exception]: the expression text, as substituted, is returned. *)
Definition _evaluate_javascript (evaluate_operand : string -> result value)
  (expr : string) : value :=
  let expr := substitute_json_refs expr in
  match javascript_body evaluate_operand expr with
  | Ok v => v
  | Raise _ => VStr expr
  end.

Definition operator_chars : list ascii :=
  ["+"; "-"; "*"; "/"; "("; ")"; "["; "]"]%char.

(** The part of [_evaluate_expression] after the prefix tests. *)
Definition evaluate_other (evaluate_operand : string -> result value)
  (expr : string) : result value :=
  if existsb (has_char expr) operator_chars
  then Ok (_evaluate_javascript evaluate_operand expr)
  else Ok (_evaluate_path expr).

(** [depth] bounds the nesting of calls, as the interpreter's recursion
    limit does; exceeding it raises [RecursionError]. *)
Fixpoint _evaluate_expression (depth : nat) (expr : string) : result value :=
  match depth with
  | O => Raise RecursionError
  | S depth' =>
      let expr := strip expr in
      if startswith expr "$json" || startswith expr "json"
      then Ok (_evaluate_json_path expr)
      else if startswith expr "$vars"
      then Ok (_evaluate_vars_path expr)
      else if startswith expr "$json." && has_char (drop 6 expr) "."
      then
        let parts := split expr "." in
        if (2 <=? List.length parts)%nat
        then
          let node_id := nth 1 parts EmptyString in
          let path :=
            if (2 <? List.length parts)%nat
            then Some (join "." (skipn 2 parts)) else None in
          _get_node_output node_id path
        else evaluate_other (_evaluate_expression depth') expr
      else evaluate_other (_evaluate_expression depth') expr
  end.

(** The loop [for match in matches] of [evaluate]. *)
Fixpoint substitute_blocks (depth : nat) (matches : list string)
  (acc : string) : result string :=
  match matches with
  | [] => Ok acc
  | m :: rest =>
      evaluated <- _evaluate_expression depth (strip m) ;;
      substitute_blocks depth rest
        (replace acc ("${{" ++ m ++ "}}") (py_str evaluated))
  end.

Definition evaluate (depth : nat) (expression : value) : result value :=
  match expression with
  | VStr s =>
      if negb (nonempty s) then Ok expression
      else if negb (contains s "${{") then Ok expression
      else
        let matches := findall_blocks s in
        match matches with
        | [] => Ok expression
        | _ =>
            r <- substitute_blocks depth matches s ;;
            if startswith r "{" || startswith r "["
            then match json_loads r with
                 | Some parsed => Ok parsed
                 | None => Ok (VStr r)
                 end
            else Ok (VStr r)
        end
  | _ => Ok expression
  end.

End Evaluator.
End ExpressionEvaluator.

(** The module-level function [evaluate_expression]. *)
Definition evaluate_expression {rt : PyRuntime} (depth : nat)
  (expression : value) (context : dict value) : result value :=
  match expression with
  | VStr _ =>
      ExpressionEvaluator.evaluate (ExpressionEvaluator.__init__ context)
        depth expression
  | _ => Ok expression
  end.

(* ===================================================================== *)
(** ** node_executors: the base class *)
(* ===================================================================== *)

(** The attributes of an executor instance: [executor_class(node_id,
    node_type, node_data)]. *)
Record NodeExecutor : Type := {
  node_id : string;
  node_type : string;
  properties : dict value
}.

(** Modelled from the spec: [node_executors/base.py] is not among the
    sources.  A node carries "a property bag (named parameter -> value)";
    [get_property(name, default)] reads it and yields [default] for a name
    that is absent. *)
Definition get_property (self : NodeExecutor) (name : string) (default : value)
  : value :=
  dget_default (properties self) name default.

(** [validate_inputs(inputs, required)] of the same base class is taken as
    given: it returns normally or raises. *)
Class BaseNodeExecutor : Type := {
  validate_inputs : NodeExecutor -> dict value -> list string -> result unit
}.

(** [a or b] *)
Definition py_or (a b : value) : value := if truthy a then a else b.

(** [len(v)] *)
Definition py_len (v : value) : result nat :=
  match v with
  | VStr s => Ok (String.length s)
  | VList l => Ok (List.length l)
  | VDict d => Ok (List.length d)
  | _ => Raise (TypeError "object has no len()")
  end.

(** [d.get(key, default)] on an object that is expected to be a mapping. *)
Definition value_get (v : value) (key : string) (default : value) : result value :=
  match v with
  | VDict d => Ok (dget_default d key default)
  | _ => Raise (AttributeError "object has no attribute 'get'")
  end.

(** [v == s] for a string literal [s]. *)
Definition is_literal (v : value) (s : string) : bool :=
  match v with
  | VStr s' => String.eqb s' s
  | _ => false
  end.

(* ===================================================================== *)
(** ** node_executors/data_nodes.py *)
(* ===================================================================== *)

Module DataNodeExecutor.
Section Data.
Context {rt : PyRuntime} {base : BaseNodeExecutor}.

(** [try: return float(a) > float(b) except: return False] and its twin. *)
Definition float_compare (test : float -> float -> bool) (a b : value) : bool :=
  match py_float a, py_float b with
  | Ok x, Ok y => test x y
  | _, _ => false
  end.

Definition _evaluate_filter (field_value operator expected_value : value) : bool :=
  let field_value_str := lower (py_str field_value) in
  let expected_value_str := lower (py_str expected_value) in
  if is_literal operator "equals" then
    String.eqb field_value_str expected_value_str
  else if is_literal operator "notEquals" then
    negb (String.eqb field_value_str expected_value_str)
  else if is_literal operator "contains" then
    contains field_value_str expected_value_str
  else if is_literal operator "greaterThan" then
    float_compare (fun x y => PrimFloat.ltb y x) field_value expected_value
  else if is_literal operator "lessThan" then
    float_compare (fun x y => PrimFloat.ltb x y) field_value expected_value
  else true.

(** [input_data.get(field, '')]: a key that is not a string is hashable
    unless it is a list or a mapping, and is then simply absent. *)
Definition lookup_field (input_data field : value) : result value :=
  match input_data with
  | VDict d =>
      match field with
      | VStr f => Ok (dget_default d f (VStr EmptyString))
      | VList _ | VDict _ => Raise (TypeError "unhashable type")
      | _ => Ok (VStr EmptyString)
      end
  | _ => Raise (AttributeError "object has no attribute 'get'")
  end.

Definition _execute_filter (self : NodeExecutor) (inputs context : dict value)
  : result value :=
  _ <- validate_inputs self inputs ["main"] ;;
  let input_data := dget_default inputs "main" (VDict []) in
  let field := get_property self "field" (VStr EmptyString) in
  let operator := get_property self "operator" (VStr "equals") in
  let value := get_property self "value" (VStr EmptyString) in
  if negb (truthy field) then Raise (NodeExecutionError "No field specified for filter")
  else
    field_value <- lookup_field input_data field ;;
    let keep := _evaluate_filter field_value operator value in
    if keep then Ok (VDict [("main", input_data)])
    else Ok (VDict [("main", VNone)]).

(** [for field_def in fields]: a list yields its items, a mapping its keys
    and a string its characters; nothing else can be iterated. *)
Definition iterate (v : value) : result (list value) :=
  match v with
  | VList l => Ok l
  | VDict d => Ok (map (fun kv => VStr (fst kv)) d)
  | VStr s => Ok (map (fun c => VStr (String c EmptyString)) (list_ascii_of_string s))
  | _ => Raise (TypeError "object is not iterable")
  end.

(** [l[i] = v]: a negative index counts from the end. *)
Definition set_index (l : list value) (i : Z) (v : value) : result (list value) :=
  let n := Z.of_nat (List.length l) in
  let i := if i <? 0 then i + n else i in
  if (0 <=? i) && (i <? n)
  then Ok (firstn (Z.to_nat i) l ++ v :: skipn (S (Z.to_nat i)) l)%list
  else Raise (OtherError "IndexError: list assignment index out of range").

(** [input_data[key] = value] under [if key].  [None]: the key is a number
    and [input_data] a mapping, which then has a key that is not a string;
    [value] has no such mapping. *)
Definition set_item (input_data key v : value) : option (result value) :=
  match input_data with
  | VDict d =>
      match key with
      | VStr k => Some (Ok (VDict (dset d k v)))
      | VList _ | VDict _ => Some (Raise (TypeError "unhashable type"))
      | _ => None
      end
  | VList l =>
      match key with
      | VInt i => Some (l' <- set_index l i v ;; Ok (VList l'))
      | VBool b => Some (l' <- set_index l (if b then 1 else 0) v ;; Ok (VList l'))
      | _ => Some (Raise (TypeError "list indices must be integers or slices"))
      end
  | _ => Some (Raise (TypeError "object does not support item assignment"))
  end.

(** The loop [for field_def in fields] of [_execute_edit_fields]. *)
Fixpoint edit_loop (fields : list value) (input_data : value)
  : option (result value) :=
  match fields with
  | [] => Some (Ok input_data)
  | field_def :: rest =>
      match field_def with
      | VDict f =>
          let key := dget_default f "key" (VStr EmptyString) in
          let v := dget_default f "value" (VStr EmptyString) in
          if truthy key then
            match set_item input_data key v with
            | Some (Ok input_data) => edit_loop rest input_data
            | stopped => stopped
            end
          else edit_loop rest input_data
      | _ => Some (Raise (AttributeError "object has no attribute 'get'"))
      end
  end.

(** [None] as for [set_item]. *)
Definition _execute_edit_fields (self : NodeExecutor) (inputs context : dict value)
  : option (result value) :=
  match validate_inputs self inputs ["main"] with
  | Raise e => Some (Raise e)
  | Ok _ =>
      match dget_default inputs "main" (VDict []) with
      | (VDict _ | VList _) as input_data =>
          let fields := get_property self "fields" (VList []) in
          match iterate fields with
          | Raise e => Some (Raise e)
          | Ok items =>
              match edit_loop items input_data with
              | Some (Ok input_data) => Some (Ok (VDict [("main", input_data)]))
              | stopped => stopped
              end
          end
      | _ => Some (Raise (AttributeError "object has no attribute 'copy'"))
      end
  end.

End Data.

(** The methods the table [handlers] of [execute] names. *)
Inductive method : Type :=
| execute_filter
| execute_edit_fields
| execute_code
| execute_text_transform
| execute_notes.

Definition handlers : dict method :=
  [("filter", execute_filter);
   ("edit-fields", execute_edit_fields);
   ("code", execute_code);
   ("text-transform", execute_text_transform);
   ("notes", execute_notes)].

Section Dispatch.
Context {rt : PyRuntime} {base : BaseNodeExecutor}.

(** The three methods that are not embedded here. *)
Variables _execute_code _execute_text_transform _execute_notes
  : NodeExecutor -> dict value -> dict value -> result value.

Definition execute (self : NodeExecutor) (inputs context : dict value)
  : option (result value) :=
  match dget handlers (node_type self) with
  | None =>
      Some (Raise (NodeExecutionError
                     ("Unknown data node type: " ++ node_type self)))
  | Some execute_filter => Some (_execute_filter self inputs context)
  | Some execute_edit_fields => _execute_edit_fields self inputs context
  | Some execute_code => Some (_execute_code self inputs context)
  | Some execute_text_transform =>
      Some (_execute_text_transform self inputs context)
  | Some execute_notes => Some (_execute_notes self inputs context)
  end.

End Dispatch.
End DataNodeExecutor.

(* ===================================================================== *)
(** ** node_executors/output_nodes.py *)
(* ===================================================================== *)

Module OutputNodeExecutor.
Section Output.
Context {rt : PyRuntime}.

(** [d.get(k1, '') or d.get(k2, '') or ...] *)
Fixpoint first_truthy (d : dict value) (keys : list string) : value :=
  match keys with
  | [] => VStr EmptyString
  | [k] => dget_default d k (VStr EmptyString)
  | k :: ks => py_or (dget_default d k (VStr EmptyString)) (first_truthy d ks)
  end.

(** The loop over [input_data.items()] that looks one level down. *)
Fixpoint scan_items (items : dict value) (content : value) : result value :=
  match items with
  | [] => Ok content
  | (_, v) :: rest =>
      match v with
      | VDict d =>
          let content := first_truthy d ["text"; "content"; "response"; "message"] in
          if truthy content then Ok content else scan_items rest content
      | VStr s =>
          n <- py_len content ;;
          if (n <? String.length s)%nat then scan_items rest v
          else scan_items rest content
      | _ => scan_items rest content
      end
  end.

(** [not content or (isinstance(content, str) and not content.strip())] *)
Definition is_blank (content : value) : bool :=
  negb (truthy content)
  || match content with
     | VStr s => negb (ExpressionEvaluator.nonempty (strip s))
     | _ => false
     end.

(** [configured_content if configured_content and configured_content.strip()
    else 'work'] *)
Definition configured_or_work (configured_content : value) : result value :=
  if truthy configured_content then
    match configured_content with
    | VStr s =>
        if ExpressionEvaluator.nonempty (strip s) then Ok configured_content
        else Ok (VStr "work")
    | _ => Raise (AttributeError "object has no attribute 'strip'")
    end
  else Ok (VStr "work").

(** [now] is the index of the clock reading taken for the timestamp. *)
Definition _execute_readme_viewer (self : NodeExecutor) (now : nat)
  (inputs context : dict value) : result value :=
  let configured_content := get_property self "content" (VStr "work") in
  let input_data := dget_default inputs "main" (VDict []) in
  content <-
    match input_data with
    | VDict d =>
        let content :=
          first_truthy d ["text"; "content"; "response"; "message"; "output"] in
        content <- (if truthy content then Ok content else scan_items d content) ;;
        if truthy content then Ok content
        else Ok (VStr (json_dumps input_data))
    | _ => Ok (VStr (py_str input_data))
    end ;;
  content <- (if is_blank content then configured_or_work configured_content
              else Ok content) ;;
  let title := get_property self "title" (VStr "Content Viewer") in
  Ok (VDict [("main",
        VDict [("title", title);
               ("content", content);
               ("timestamp", VStr (clock_iso now));
               ("type", VStr "readme_viewer");
               ("formatted", VBool true)])]).

(** [message[:100]], for the line that is logged: a string or a list can
    be sliced (for a mapping the exception is a [KeyError] from Python 3.12
    on). *)
Definition sliceable (v : value) : result unit :=
  match v with
  | VStr _ | VList _ => Ok tt
  | _ => Raise (TypeError "object is not subscriptable")
  end.

(** [now] is the index of the clock reading taken for the timestamp. *)
Definition _execute_respond_to_chat (self : NodeExecutor) (now : nat)
  (inputs context : dict value) : result value :=
  let message := get_property self "message" (VStr EmptyString) in
  let input_data := dget_default inputs "main" VNone in
  let message :=
    if negb (truthy message) && truthy input_data then
      match input_data with
      | VDict d =>
          py_or (dget_default d "text" (VStr EmptyString))
            (py_or (dget_default d "message" (VStr EmptyString))
               (VStr (py_str input_data)))
      | _ => VStr (py_str input_data)
      end
    else message in
  _ <- sliceable message ;;
  Ok (VDict [("main",
        VDict [("response", message);
               ("text", message);
               ("timestamp", VStr (clock_iso now));
               ("type", VStr "chat_response")])]).

Inductive method : Type :=
| execute_respond_to_chat
| execute_readme_viewer.

Definition handlers : dict method :=
  [("respond-to-chat", execute_respond_to_chat);
   ("readme-viewer", execute_readme_viewer)].

Definition execute (self : NodeExecutor) (now : nat) (inputs context : dict value)
  : result value :=
  match dget handlers (node_type self) with
  | None =>
      Raise (NodeExecutionError ("Unknown output node type: " ++ node_type self))
  | Some execute_respond_to_chat => _execute_respond_to_chat self now inputs context
  | Some execute_readme_viewer => _execute_readme_viewer self now inputs context
  end.

End Output.
End OutputNodeExecutor.

(* ===================================================================== *)
(** ** execution_engine.py: the workflow graph *)
(* ===================================================================== *)

(** A node [{id, data: {type, properties}}] is the triple of an executor's
    attributes. *)
Abbreviation Node := NodeExecutor (only parsing).

(** An edge [{source, target, sourceHandle?, targetHandle?}]; [None] is an
    absent key. *)
Record Edge : Type := {
  source : string;
  target : string;
  sourceHandle : option string;
  targetHandle : option string
}.

(** [str(e)] *)
Definition exn_message {rt : PyRuntime} (e : exn) : string :=
  match e with
  | KeyError key => str_repr key
  | ValueError msg | TypeError msg | AttributeError msg | OverflowError msg
  | NodeExecutionError msg | OtherError msg => msg
  | RecursionError => "maximum recursion depth exceeded"
  end.

Module TopologicalSort.

(** [{node['id']: v for node in nodes}] *)
Definition dict_from_nodes {V : Type} (nodes : list Node) (v : V) : dict V :=
  fold_left (fun d n => dset d (node_id n) v) nodes [].

(** The loop [for edge in edges] that fills [adjacency] and [in_degree]. *)
Fixpoint build (edges : list Edge) (in_degree : dict Z)
  (adjacency : dict (list string)) : result (dict Z * dict (list string)) :=
  match edges with
  | [] => Ok (in_degree, adjacency)
  | edge :: rest =>
      match dget adjacency (source edge) with
      | None => Raise (KeyError (source edge))
      | Some targets =>
          let adjacency := dset adjacency (source edge) (targets ++ [target edge])%list in
          match dget in_degree (target edge) with
          | None => Raise (KeyError (target edge))
          | Some degree =>
              build rest (dset in_degree (target edge) (degree + 1)) adjacency
          end
      end
  end.

(** The loop [for neighbor in adjacency[current]]. *)
Fixpoint relax (neighbors : list string) (in_degree : dict Z)
  (queue : list string) : result (dict Z * list string) :=
  match neighbors with
  | [] => Ok (in_degree, queue)
  | neighbor :: rest =>
      match dget in_degree neighbor with
      | None => Raise (KeyError neighbor)
      | Some degree =>
          let degree := degree - 1 in
          let in_degree := dset in_degree neighbor degree in
          relax rest in_degree
            (if degree =? 0 then (queue ++ [neighbor])%list else queue)
      end
  end.

(** The loop [while queue]; [None] when [fuel] iterations did not empty
    the queue. *)
Fixpoint drain (fuel : nat) (adjacency : dict (list string))
  (in_degree : dict Z) (queue execution_order : list string)
  : option (result (list string)) :=
  match fuel with
  | O => None
  | S fuel' =>
      match queue with
      | [] => Some (Ok execution_order)
      | current :: queue =>
          let execution_order := (execution_order ++ [current])%list in
          match dget adjacency current with
          | None => Some (Raise (KeyError current))
          | Some neighbors =>
              match relax neighbors in_degree queue with
              | Raise e => Some (Raise e)
              | Ok (in_degree, queue) =>
                  drain fuel' adjacency in_degree queue execution_order
              end
          end
      end
  end.

(** [[node_id for node_id, degree in in_degree.items() if degree == 0]] *)
Definition roots (in_degree : dict Z) : list string :=
  map fst (filter (fun kv => snd kv =? 0) in_degree).

End TopologicalSort.

(** Every pass of the [while] loop moves one node into the order, so one
    pass per node and a last one that finds the queue empty always suffice
    (lemma [drain_total]); the [None] branch is never taken. *)
Definition _topological_sort (nodes : list Node) (edges : list Edge)
  : result (list string) :=
  let in_degree := TopologicalSort.dict_from_nodes nodes 0 in
  let adjacency := TopologicalSort.dict_from_nodes nodes [] in
  built <- TopologicalSort.build edges in_degree adjacency ;;
  let (in_degree, adjacency) := built in
  let queue := TopologicalSort.roots in_degree in
  match TopologicalSort.drain (S (List.length nodes)) adjacency in_degree queue [] with
  | None => Raise (OtherError "unreachable")
  | Some r =>
      execution_order <- r ;;
      if negb (List.length execution_order =? List.length nodes)%nat
      then Raise (ValueError "Workflow contains cycles or unreachable nodes")
      else Ok execution_order
  end.

(* ===================================================================== *)
(** ** execution_engine.py: ExecutionContext *)
(* ===================================================================== *)

(** Times are kept as the index of the clock reading they come from. *)
Record ExecutionContext : Type := {
  workflow_id : string;
  execution_id : string;
  node_results : dict value;
  node_states : dict (dict value);
  execution_order : list string;
  errors : dict string;
  start_time : nat;
  end_time : option nat;
  status : string;
  trigger_data : value;
  credentials : value;
  chat_response : value;
  persistent_memory : dict value
}.

Definition with_node_results (c : ExecutionContext) (x : dict value) :=
  {| workflow_id := workflow_id c; execution_id := execution_id c;
     node_results := x; node_states := node_states c;
     execution_order := execution_order c; errors := errors c;
     start_time := start_time c; end_time := end_time c; status := status c;
     trigger_data := trigger_data c; credentials := credentials c;
     chat_response := chat_response c;
     persistent_memory := persistent_memory c |}.

Definition with_node_states (c : ExecutionContext) (x : dict (dict value)) :=
  {| workflow_id := workflow_id c; execution_id := execution_id c;
     node_results := node_results c; node_states := x;
     execution_order := execution_order c; errors := errors c;
     start_time := start_time c; end_time := end_time c; status := status c;
     trigger_data := trigger_data c; credentials := credentials c;
     chat_response := chat_response c;
     persistent_memory := persistent_memory c |}.

Definition with_execution_order (c : ExecutionContext) (x : list string) :=
  {| workflow_id := workflow_id c; execution_id := execution_id c;
     node_results := node_results c; node_states := node_states c;
     execution_order := x; errors := errors c;
     start_time := start_time c; end_time := end_time c; status := status c;
     trigger_data := trigger_data c; credentials := credentials c;
     chat_response := chat_response c;
     persistent_memory := persistent_memory c |}.

Definition with_errors (c : ExecutionContext) (x : dict string) :=
  {| workflow_id := workflow_id c; execution_id := execution_id c;
     node_results := node_results c; node_states := node_states c;
     execution_order := execution_order c; errors := x;
     start_time := start_time c; end_time := end_time c; status := status c;
     trigger_data := trigger_data c; credentials := credentials c;
     chat_response := chat_response c;
     persistent_memory := persistent_memory c |}.

Definition with_status (c : ExecutionContext) (x : string) (t : option nat) :=
  {| workflow_id := workflow_id c; execution_id := execution_id c;
     node_results := node_results c; node_states := node_states c;
     execution_order := execution_order c; errors := errors c;
     start_time := start_time c; end_time := t; status := x;
     trigger_data := trigger_data c; credentials := credentials c;
     chat_response := chat_response c;
     persistent_memory := persistent_memory c |}.

Definition with_trigger_data (c : ExecutionContext) (x : value) :=
  {| workflow_id := workflow_id c; execution_id := execution_id c;
     node_results := node_results c; node_states := node_states c;
     execution_order := execution_order c; errors := errors c;
     start_time := start_time c; end_time := end_time c; status := status c;
     trigger_data := x; credentials := credentials c;
     chat_response := chat_response c;
     persistent_memory := persistent_memory c |}.

Definition with_credentials (c : ExecutionContext) (x : value) :=
  {| workflow_id := workflow_id c; execution_id := execution_id c;
     node_results := node_results c; node_states := node_states c;
     execution_order := execution_order c; errors := errors c;
     start_time := start_time c; end_time := end_time c; status := status c;
     trigger_data := trigger_data c; credentials := x;
     chat_response := chat_response c;
     persistent_memory := persistent_memory c |}.

Definition with_chat_response (c : ExecutionContext) (x : value) :=
  {| workflow_id := workflow_id c; execution_id := execution_id c;
     node_results := node_results c; node_states := node_states c;
     execution_order := execution_order c; errors := errors c;
     start_time := start_time c; end_time := end_time c; status := status c;
     trigger_data := trigger_data c; credentials := credentials c;
     chat_response := x;
     persistent_memory := persistent_memory c |}.

Section Context_methods.
Context {rt : PyRuntime}.

(** [ExecutionContext(workflow_id, execution_id)]; [now] is the reading
    taken for [start_time]. *)
Definition new_context (now : nat) (workflow_id execution_id : string)
  : ExecutionContext :=
  {| workflow_id := workflow_id; execution_id := execution_id;
     node_results := []; node_states := []; execution_order := [];
     errors := []; start_time := now; end_time := None;
     status := "running"; trigger_data := VDict []; credentials := VDict [];
     chat_response := VNone; persistent_memory := [] |}.

Definition set_node_state (now : nat) (self : ExecutionContext)
  (node : string) (status : string) (kwargs : dict value) : ExecutionContext :=
  let existing_state := dget_default (node_states self) node [] in
  let state :=
    dupdate
      (dupdate existing_state
         [("status", VStr status);
          ("timestamp", VStr (clock_iso now));
          ("endTime", VFloat (clock_ms now))])
      kwargs in
  let state :=
    if dmem existing_state "startTime" then state
    else dset state "startTime" (VFloat (clock_ms now)) in
  with_node_states self (dset (node_states self) node state).

Definition set_node_result (self : ExecutionContext) (node : string)
  (result : value) : ExecutionContext :=
  with_node_results self (dset (node_results self) node result).

Definition set_node_error (now : nat) (self : ExecutionContext)
  (node : string) (error : string) : ExecutionContext :=
  let self := with_errors self (dset (errors self) node error) in
  set_node_state now self node "error" [("error", VStr error)].

(** [self.node_results.get(node_id)] *)
Definition get_node_result (self : ExecutionContext) (node : string) : value :=
  dget_default (node_results self) node VNone.

Definition complete (now : nat) (self : ExecutionContext) (status : string)
  : ExecutionContext :=
  with_status self status (Some now).

(** [node_states[node]['status']] *)
Definition node_status (self : ExecutionContext) (node : string) : option value :=
  match dget (node_states self) node with
  | Some state => dget state "status"
  | None => None
  end.

End Context_methods.

(* ===================================================================== *)
(** ** execution_engine.py: WorkflowExecutionEngine *)
(* ===================================================================== *)

Inductive ExecutorClass : Type :=
| DynamicNodeExecutor
| TriggerNodeExecutor
| AINodeExecutor
| ChatModelExecutor
| MemoryExecutor
| ToolExecutor
| FlowNodeExecutor
| DataNodeExecutor
| ActionNodeExecutor
| OutputNodeExecutor.

(** What a call [executor.execute(inputs, exec_context)] leaves behind: the
    value returned or the exception raised, and the runtime context as the
    call left it.  The trigger payload in that context is the very object
    the run context holds (the webhook trigger writes into it), and
    [chat_response] is a key executors may add. *)
Record Execution : Type := {
  returned : result value;
  context_after : dict value
}.

(** The collaborators of the engine: the registry of dynamic nodes and the
    behaviour of the executor classes. *)
Class Executors : Type := {
  (** [node_registry.get_node(node_type)] finds a node *)
  is_registered : string -> bool;
  execute : ExecutorClass -> Node -> dict value -> dict value -> Execution
}.

Inductive ProgressEvent : Type :=
| node_start (node : string) (progress : float)
| node_complete (node : string) (result : value) (progress : float)
| workflow_complete (context : ExecutionContext)
| workflow_error (error : string).

(** A progress callback returns or raises. *)
Definition ProgressCallback : Type := ProgressEvent -> result unit.

(** The state a run threads: its context, the number of clock readings
    taken, and (as a record of the calls made) the nodes whose executor
    was invoked, in order. *)
Record Run : Type := {
  context : ExecutionContext;
  clock : nat;
  dispatched : list string
}.

Definition M (A : Type) : Type := Run -> result A * Run.

Definition ret {A : Type} (a : A) : M A := fun s => (Ok a, s).

Definition raise {A : Type} (e : exn) : M A := fun s => (Raise e, s).

Definition lift {A : Type} (r : result A) : M A := fun s => (r, s).

Definition bindM {A B : Type} (m : M A) (k : A -> M B) : M B :=
  fun s =>
    match m s with
    | (Ok a, s') => k a s'
    | (Raise e, s') => (Raise e, s')
    end.

Notation "x <-- c ;; k" := (bindM c (fun x => k))
  (at level 61, c at next level, right associativity).

(** [try: body except Exception as e: handler] *)
Definition try_except {A : Type} (body : M A) (handler : exn -> M A) : M A :=
  fun s =>
    match body s with
    | (Ok a, s') => (Ok a, s')
    | (Raise e, s') => handler e s'
    end.

Definition get_context : M ExecutionContext := fun s => (Ok (context s), s).

Definition update (f : ExecutionContext -> ExecutionContext) : M unit :=
  fun s => (Ok tt, {| context := f (context s); clock := clock s;
                      dispatched := dispatched s |}).

(** [datetime.now()] *)
Definition now : M nat :=
  fun s => (Ok (clock s), {| context := context s; clock := S (clock s);
                             dispatched := dispatched s |}).

Definition record_dispatch (node : string) : M unit :=
  fun s => (Ok tt, {| context := context s; clock := clock s;
                      dispatched := (dispatched s ++ [node])%list |}).

Module WorkflowExecutionEngine.
Section Engine.
Context {rt : PyRuntime} {ex : Executors}.

Definition _get_node_executor (node : Node) : result ExecutorClass :=
  let node_type := node_type node in
  let among := existsb (String.eqb node_type) in
  if is_registered node_type then Ok DynamicNodeExecutor
  else if among ["when-chat-received"; "webhook"; "schedule"; "manual-trigger"]
  then Ok TriggerNodeExecutor
  else if among ["ai-agent"; "openai"; "anthropic"; "google-gemini";
                 "groq-llama"; "groq-gemma"; "question-answer-chain";
                 "summarization-chain"; "information-extractor";
                 "text-classifier"; "sentiment-analysis"]
  then Ok AINodeExecutor
  else if among ["gpt-4-turbo"; "gpt-3.5-turbo"; "claude-3-opus"; "claude-3-sonnet"]
  then Ok ChatModelExecutor
  else if among ["simple-memory"; "vector-memory"; "window-buffer-memory";
                 "agent-flow-db-memory"]
  then Ok MemoryExecutor
  else if among ["calculator"; "web-search"; "duckduckgo-search"; "api-caller"]
  then Ok ToolExecutor
  else if among ["if-else"; "switch"; "merge"] then Ok FlowNodeExecutor
  else if among ["filter"; "edit-fields"; "code"] then Ok DataNodeExecutor
  else if among ["http-request"; "google-sheets"] then Ok ActionNodeExecutor
  else if among ["respond-to-chat"; "readme-viewer"] then Ok OutputNodeExecutor
  else Raise (ValueError ("Unknown node type: " ++ node_type)).

(** The loop [for edge in edges] of [_build_execution_graph]. *)
Fixpoint fill_graph (edges : list Edge) (graph : dict (list string))
  : result (dict (list string)) :=
  match edges with
  | [] => Ok graph
  | edge :: rest =>
      match dget graph (target edge) with
      | None => Raise (KeyError (target edge))
      | Some sources =>
          fill_graph rest (dset graph (target edge) (sources ++ [source edge])%list)
      end
  end.

Definition _build_execution_graph (nodes : list Node) (edges : list Edge)
  : result (dict (list string)) :=
  fill_graph edges (TopologicalSort.dict_from_nodes nodes []).

(** *** Inputs of a node *)

(** The loop [for edge in edges] of [_get_node_inputs]; [main_inputs]
    holds the pairs [(source_id, data)]. *)
Fixpoint collect_inputs (node : string) (edges : list Edge)
  (context : ExecutionContext) (inputs : dict value)
  (main_inputs : list (string * value)) : dict value * list (string * value) :=
  match edges with
  | [] => (inputs, main_inputs)
  | edge :: rest =>
      if String.eqb (target edge) node then
        let source_id := source edge in
        let source_output := match sourceHandle edge with Some h => h | None => "main" end in
        let target_input := match targetHandle edge with Some h => h | None => "main" end in
        let source_result := get_node_result context source_id in
        if truthy source_result then
          let output_data :=
            match source_result with
            | VDict d => dget_default d source_output source_result
            | _ => source_result
            end in
          if String.eqb target_input "main"
          then collect_inputs node rest context
                 (dset inputs source_id output_data)
                 (main_inputs ++ [(source_id, output_data)])%list
          else collect_inputs node rest context
                 (dset inputs target_input output_data) main_inputs
        else collect_inputs node rest context inputs main_inputs
      else collect_inputs node rest context inputs main_inputs
  end.

(** The loop [for main_input in main_inputs] that merges. *)
Definition merge_main (main_inputs : list (string * value)) : dict value :=
  fold_left
    (fun merged_main main_input =>
       match snd main_input with
       | VDict data => dupdate merged_main data
       | data => dset merged_main (fst main_input) data
       end)
    main_inputs [].

Definition _get_node_inputs (node : string) (edges : list Edge)
  (context : ExecutionContext) : dict value :=
  let (inputs, main_inputs) := collect_inputs node edges context [] [] in
  let inputs :=
    match main_inputs with
    | [] => inputs
    | [main_input] => dset inputs "main" (snd main_input)
    | _ => dset inputs "main" (VDict (merge_main main_inputs))
    end in
  match dget inputs "main" with
  | Some main => dset inputs "json" main
  | None => inputs
  end.

(** *** One node *)

(** The loop that evaluates the properties holding [${{]. *)
Definition evaluate_properties (node_properties eval_context : dict value)
  : dict value :=
  map (fun '(key, v) =>
         match v with
         | VStr s =>
             if contains s "${{" then
               match evaluate_expression recursion_budget v eval_context with
               | Ok evaluated => (key, evaluated)
               | Raise _ => (key, v)
               end
             else (key, v)
         | _ => (key, v)
         end)
      node_properties.

(** [if not isinstance(result, dict): ... elif 'main' not in result: ...] *)
Definition normalize (result : value) : value :=
  match result with
  | VDict d => if dmem d "main" then result else VDict [("main", result)]
  | _ => VDict [("main", result)]
  end.

Definition execute_node (node : Node) (edges : list Edge) : M value :=
  let id := node_id node in
  try_except
    (t <-- now ;;
     _ <-- update (fun c => set_node_state t c id "running" []) ;;
     context <-- get_context ;;
     let inputs := _get_node_inputs id edges context in
     let main := dget_default inputs "main" (VDict []) in
     let eval_context :=
       [("node_results", VDict (node_results context));
        ("json", main);
        ("$vars",
          VDict [("$execution",
                   VDict [("id", VStr (execution_id context)); ("mode", VStr "test")]);
                 ("$workflow",
                   VDict [("id", VStr (workflow_id context));
                          ("name", VStr "Workflow")])])] in
     let node_properties := evaluate_properties (properties node) eval_context in
     let node := {| node_id := id; node_type := node_type node;
                    properties := node_properties |} in
     executor <-- lift (_get_node_executor node) ;;
     openai <-- lift (value_get (credentials context) "openai_api_key" VNone) ;;
     anthropic <-- lift (value_get (credentials context) "anthropic_api_key" VNone) ;;
     google <-- lift (value_get (credentials context) "google_api_key" VNone) ;;
     groq <-- lift (value_get (credentials context) "groq_api_key" VNone) ;;
     let exec_context :=
       [("execution_id", VStr (execution_id context));
        ("workflow_id", VStr (workflow_id context));
        ("trigger_data", trigger_data context);
        ("openai_api_key", openai);
        ("anthropic_api_key", anthropic);
        ("google_api_key", google);
        ("groq_api_key", groq);
        ("node_results", VDict (node_results context));
        ("json", main)] in
     _ <-- record_dispatch id ;;
     let call := execute executor node inputs exec_context in
     _ <-- update (fun c =>
             with_trigger_data c
               (dget_default (context_after call) "trigger_data" (trigger_data c))) ;;
     result <-- lift (returned call) ;;
     let result := normalize result in
     _ <-- update (fun c => set_node_result c id result) ;;
     t <-- now ;;
     _ <-- update (fun c =>
             set_node_state t c id "completed"
               [("output", result); ("input", VDict inputs)]) ;;
     _ <-- update (fun c => with_execution_order c (execution_order c ++ [id])%list) ;;
     _ <-- match dget (context_after call) "chat_response" with
           | Some response => update (fun c => with_chat_response c response)
           | None => ret tt
           end ;;
     ret result)
    (fun e =>
       let error_msg := exn_message e in
       t <-- now ;;
       _ <-- update (fun c => set_node_error t c id error_msg) ;;
       raise e).

(** *** The nodes a partial run reaches *)

(** The loop [for edge in edges] of [_get_dependencies] (with [near :=
    target], [far := source]) and of [_get_downstream] (the other way
    round); the set is kept as a list without repetition. *)
Fixpoint visit (near far : Edge -> string) (current : string)
  (edges : list Edge) (found queue : list string) : list string * list string :=
  match edges with
  | [] => (found, queue)
  | edge :: rest =>
      if String.eqb (near edge) current && negb (mem (far edge) found)
      then visit near far current rest (found ++ [far edge])%list
             (queue ++ [far edge])%list
      else visit near far current rest found queue
  end.

(** The loop [while queue]; [None] when [fuel] passes did not empty the
    queue. *)
Fixpoint search (fuel : nat) (near far : Edge -> string) (edges : list Edge)
  (found queue : list string) : option (list string) :=
  match fuel with
  | O => None
  | S fuel' =>
      match queue with
      | [] => Some found
      | current :: queue =>
          let (found, queue) := visit near far current edges found queue in
          search fuel' near far edges found queue
      end
  end.

(** Every pass but the first handles a node that some edge made the search
    add, and an edge end is added once, so two passes more than there are
    edges always suffice (lemma [search_total]). *)
Definition reachable (near far : Edge -> string) (start : string)
  (edges : list Edge) : list string :=
  match search (2 + List.length edges) near far edges [] [start] with
  | Some found => found
  | None => []
  end.

Definition _get_dependencies (node : string) (edges : list Edge) : list string :=
  reachable target source node edges.

Definition _get_downstream (node : string) (edges : list Edge) : list string :=
  reachable source target node edges.

(** Set union, on lists without repetition. *)
Definition union (a b : list string) : list string :=
  (a ++ filter (fun x => negb (mem x a)) b)%list.

Definition _get_execution_subgraph (node : string) (nodes : list Node)
  (edges : list Edge) (include_downstream : bool) : list string :=
  let dependencies := _get_dependencies node edges in
  let result := union dependencies [node] in
  if include_downstream then union result (_get_downstream node edges)
  else result.

(** *** The run-level drivers *)

Definition call_back (progress_callback : option ProgressCallback)
  (event : ProgressEvent) : M unit :=
  match progress_callback with
  | Some callback => lift (callback event)
  | None => ret tt
  end.

(** [(idx / len(execution_order)) * 100] *)
Definition percent (idx total : nat) : float :=
  PrimFloat.mul
    (PrimFloat.div (float_of_Z (Z.of_nat idx)) (float_of_Z (Z.of_nat total)))
    (float_of_Z 100).

(** [next(n for n in nodes if n['id'] == node_id)] *)
Definition find_node (nodes : list Node) (node : string) : result Node :=
  match find (fun n => String.eqb (node_id n) node) nodes with
  | Some n => Ok n
  | None => Raise (OtherError "StopIteration")
  end.

(** The loop [for idx, node_id in enumerate(execution_order)] of the full
    run, from index [idx] on. *)
Fixpoint run_nodes (nodes : list Node) (edges : list Edge)
  (progress_callback : option ProgressCallback) (total idx : nat)
  (remaining : list string) : M unit :=
  match remaining with
  | [] => ret tt
  | id :: rest =>
      node <-- lift (find_node nodes id) ;;
      _ <-- call_back progress_callback (node_start id (percent idx total)) ;;
      _ <-- execute_node node edges ;;
      context <-- get_context ;;
      _ <-- call_back progress_callback
              (node_complete id (get_node_result context id)
                 (percent (S idx) total)) ;;
      run_nodes nodes edges progress_callback total (S idx) rest
  end.

(** The same loop in [_execute_from_node], where the callback comes before
    the node is looked up. *)
Fixpoint run_subgraph_nodes (nodes : list Node) (edges : list Edge)
  (progress_callback : option ProgressCallback) (total idx : nat)
  (remaining : list string) : M unit :=
  match remaining with
  | [] => ret tt
  | id :: rest =>
      _ <-- call_back progress_callback (node_start id (percent idx total)) ;;
      node <-- lift (find_node nodes id) ;;
      _ <-- execute_node node edges ;;
      context <-- get_context ;;
      _ <-- call_back progress_callback
              (node_complete id (get_node_result context id)
                 (percent (S idx) total)) ;;
      run_subgraph_nodes nodes edges progress_callback total (S idx) rest
  end.

Definition _execute_from_node (start_node_id : string) (nodes : list Node)
  (edges : list Edge) (progress_callback : option ProgressCallback)
  (include_downstream : bool) : M unit :=
  let nodes_to_execute :=
    _get_execution_subgraph start_node_id nodes edges include_downstream in
  execution_order <--
    lift (_topological_sort
            (filter (fun n => mem (node_id n) nodes_to_execute) nodes)
            (filter (fun e => mem (source e) nodes_to_execute
                              && mem (target e) nodes_to_execute) edges)) ;;
  run_subgraph_nodes nodes edges progress_callback
    (List.length execution_order) 0 execution_order.

Definition default_trigger_data : value :=
  VDict [("message", VStr "Hello, how can I help you today?");
         ("text", VStr "Hello, how can I help you today?");
         ("user", VStr "anonymous");
         ("channel", VStr EmptyString);
         ("timestamp", VStr EmptyString)].

(** The state in which [execute_workflow] enters its [try] block.  An
    argument left out is [VNone]. *)
Definition start_run (workflow_id execution_id : string)
  (trigger_data credentials : value) : Run :=
  let context := new_context 0 workflow_id execution_id in
  let context := with_trigger_data context (py_or trigger_data default_trigger_data) in
  let context := with_credentials context (py_or credentials (VDict [])) in
  {| context := context; clock := 1; dispatched := [] |}.

(** The [try] block. *)
Definition full_run (nodes : list Node) (edges : list Edge)
  (progress_callback : option ProgressCallback) : M unit :=
  execution_order <-- lift (_topological_sort nodes edges) ;;
  run_nodes nodes edges progress_callback
    (List.length execution_order) 0 execution_order.

(** [if start_node_id]: an id that is absent or the empty string selects
    the full run. *)
Definition partial_run_requested (start_node_id : option string) : option string :=
  match start_node_id with
  | Some id => if ExpressionEvaluator.nonempty id then Some id else None
  | None => None
  end.

Definition run_body (nodes : list Node) (edges : list Edge)
  (start_node_id : option string) (progress_callback : option ProgressCallback)
  : M unit :=
  _ <-- match partial_run_requested start_node_id with
        | Some id => _execute_from_node id nodes edges progress_callback false
        | None => full_run nodes edges progress_callback
        end ;;
  t <-- now ;;
  _ <-- update (fun c => complete t c "completed") ;;
  context <-- get_context ;;
  call_back progress_callback (workflow_complete context).

(** The [except] block. *)
Definition run_failed (progress_callback : option ProgressCallback) (e : exn)
  : M unit :=
  t <-- now ;;
  _ <-- update (fun c => complete t c "error") ;;
  call_back progress_callback (workflow_error (exn_message e)).

(** [execute_workflow]: the first component is [Ok] when the call returns
    (it then returns the context of the second component) and [Raise]
    when an exception leaves it. *)
Definition execute_workflow (workflow_id execution_id : string)
  (nodes : list Node) (edges : list Edge) (trigger_data credentials : value)
  (start_node_id : option string) (progress_callback : option ProgressCallback)
  : result unit * Run :=
  try_except (run_body nodes edges start_node_id progress_callback)
    (run_failed progress_callback)
    (start_run workflow_id execution_id trigger_data credentials).

(** [execute_single_node]: no trigger payload is passed on. *)
Definition execute_single_node (node_id workflow_id execution_id : string)
  (nodes : list Node) (edges : list Edge) (credentials : value)
  (progress_callback : option ProgressCallback) : result unit * Run :=
  execute_workflow workflow_id execution_id nodes edges VNone credentials
    (Some node_id) progress_callback.

End Engine.
End WorkflowExecutionEngine.

(* ===================================================================== *)
(** ** node_executors/trigger_nodes.py *)
(* ===================================================================== *)

Module TriggerNodeExecutor.
Section Trigger.
Context {rt : PyRuntime}.

(** [context.get('trigger_data', {}).get(key, default)] *)
Definition trigger_field (context : dict value) (key : string) (default : value)
  : result value :=
  value_get (dget_default context "trigger_data" (VDict [])) key default.

Definition _execute_chat_trigger (self : NodeExecutor) (inputs context : dict value)
  : result value :=
  let channel := get_property self "channel" (VStr EmptyString) in
  message <- trigger_field context "message" (VStr EmptyString) ;;
  user <- trigger_field context "user" (VStr "anonymous") ;;
  timestamp <- trigger_field context "timestamp" (VStr EmptyString) ;;
  Ok (VDict [("main",
        VDict [("message", message);
               ("user", user);
               ("channel", channel);
               ("timestamp", timestamp);
               ("text", message)])]).

(** The body taken from the property [test_json] when the payload has
    none: [Some] when the text is there and parses. *)
Definition test_body (self : NodeExecutor) : result (option value) :=
  let test_json := get_property self "test_json" (VStr EmptyString) in
  if truthy test_json then
    match test_json with
    | VStr s =>
        if ExpressionEvaluator.nonempty (strip s) then Ok (json_loads s)
        else Ok None
    | _ => Raise (AttributeError "object has no attribute 'strip'")
    end
  else Ok None.

(** The webhook trigger writes the body it parsed into the payload, which
    is the object the context holds. *)
Definition _execute_webhook (self : NodeExecutor) (inputs context : dict value)
  : Execution :=
  let path := get_property self "path" (VStr "/webhook") in
  let methods := get_property self "method" (VList [VStr "POST"]) in
  match dget_default context "trigger_data" (VDict []) with
  | VDict webhook_data =>
      let body_data := dget_default webhook_data "body" (VDict []) in
      match (if negb (truthy body_data) then test_body self else Ok None) with
      | Raise e => {| returned := Raise e; context_after := context |}
      | Ok parsed =>
          let body_data :=
            match parsed with Some body => body | None => body_data end in
          let webhook_data :=
            match parsed with
            | Some body => dset webhook_data "body" body
            | None => webhook_data
            end in
          let output :=
            [("path", path);
             ("methods", methods);
             ("data", VDict webhook_data);
             ("body", body_data);
             ("headers", dget_default webhook_data "headers" (VDict []));
             ("query_params", dget_default webhook_data "query_params" (VDict []));
             ("method", dget_default webhook_data "method" (VStr "POST"));
             ("timestamp", dget_default webhook_data "timestamp" VNone);
             ("text", VStr (py_str (VDict webhook_data)))] in
          let output :=
            match body_data with
            | VDict body => dupdate output body
            | _ => output
            end in
          {| returned := Ok (VDict [("main", VDict output)]);
             context_after :=
               if dmem context "trigger_data"
               then dset context "trigger_data" (VDict webhook_data)
               else context |}
      end
  | _ =>
      {| returned := Raise (AttributeError "object has no attribute 'get'");
         context_after := context |}
  end.

Definition _execute_schedule (self : NodeExecutor) (inputs context : dict value)
  : result value :=
  let interval := get_property self "interval" (VStr "hours") in
  let v := get_property self "value" (VInt 1) in
  triggered_at <- trigger_field context "timestamp" (VStr EmptyString) ;;
  Ok (VDict [("main",
        VDict [("interval", interval);
               ("value", v);
               ("triggered_at", triggered_at);
               ("text", VStr ("Scheduled execution every " ++ py_str v ++ " "
                                ++ py_str interval))])]).

Definition _execute_manual_trigger (self : NodeExecutor)
  (inputs context : dict value) : result value :=
  let configured := get_property self "message" (VStr EmptyString) in
  message <-
    (if truthy configured then Ok configured
     else
       received <- trigger_field context "message" (VStr EmptyString) ;;
       if truthy received then Ok received
       else trigger_field context "text" (VStr "Manual execution started")) ;;
  Ok (VDict [("main",
        VDict [("triggered_manually", VBool true);
               ("message", message);
               ("text", message)])]).

Inductive method : Type :=
| execute_chat_trigger
| execute_webhook
| execute_schedule
| execute_manual_trigger.

Definition handlers : dict method :=
  [("when-chat-received", execute_chat_trigger);
   ("webhook", execute_webhook);
   ("schedule", execute_schedule);
   ("manual-trigger", execute_manual_trigger)].

Definition execute (self : NodeExecutor) (inputs context : dict value)
  : Execution :=
  let unchanged r := {| returned := r; context_after := context |} in
  match dget handlers (node_type self) with
  | None =>
      unchanged (Raise (NodeExecutionError
                          ("Unknown trigger node type: " ++ node_type self)))
  | Some execute_chat_trigger => unchanged (_execute_chat_trigger self inputs context)
  | Some execute_webhook => _execute_webhook self inputs context
  | Some execute_schedule => unchanged (_execute_schedule self inputs context)
  | Some execute_manual_trigger =>
      unchanged (_execute_manual_trigger self inputs context)
  end.

End Trigger.
End TriggerNodeExecutor.

(* ===================================================================== *)
(** * The vocabulary of the properties *)
(* ===================================================================== *)

Open Scope list_scope.

(** The step of the comprehension [{node['id']: v for node in nodes}]. *)
Definition add_node_key {V : Type} (v : V) (d : dict V) (n : Node) : dict V :=
  dset d (node_id n) v.

(** The outcome of [execute_workflow] when no start node is given. *)
Definition full_run_outcome {rt : PyRuntime} {ex : Executors}
  (workflow_id execution_id : string) (nodes : list Node) (edges : list Edge)
  (trigger_data credentials : value)
  (progress_callback : option ProgressCallback) : result unit * Run :=
  WorkflowExecutionEngine.execute_workflow workflow_id execution_id nodes edges
    trigger_data credentials None progress_callback.

Definition node_ids (nodes : list Node) : list string := map node_id nodes.

(** Every edge joins two nodes of the node list. *)
Definition edges_closed (nodes : list Node) (edges : list Edge) : Prop :=
  forall e, In e edges -> In (source e) (node_ids nodes) /\ In (target e) (node_ids nodes).

Definition edge_rel (edges : list Edge) (u v : string) : Prop :=
  exists e, In e edges /\ source e = u /\ target e = v.

(** A path of one or more edges. *)
Definition path (edges : list Edge) : string -> string -> Prop :=
  clos_trans string (edge_rel edges).

Definition has_cycle (edges : list Edge) : Prop := exists v, path edges v v.


(** [x] stands at a position of [l] strictly before a position of [y]. *)
Definition before (l : list string) (x y : string) : Prop :=
  exists l1 l2 l3, l = l1 ++ x :: l2 ++ y :: l3.

Definition in_degree_of (es : list Edge) (k : string) : nat :=
  List.length (filter (fun e => String.eqb (target e) k) es).

Definition targets_of (es : list Edge) (k : string) : list string :=
  map target (filter (fun e => String.eqb (source e) k) es).

(** The edges into [k] whose source is not yet in [order]. *)
Definition pending (es : list Edge) (order : list string) (k : string) : nat :=
  List.length
    (filter (fun e => String.eqb (target e) k && negb (mem (source e) order)) es).

Definition occ (l : list string) (k : string) : nat := count_occ string_dec l k.

(** While the neighbours [nbrs] of the node appended last are being
    processed, an in-degree still counts the occurrences that remain. *)
Record kahn_inv (edges : list Edge) (K : list string) (in_degree : dict Z)
  (order queue nbrs : list string) : Prop := {
  inv_keys : dkeys in_degree = K;
  inv_degree : forall k, In k K ->
    dget in_degree k = Some (Z.of_nat (pending edges order k + occ nbrs k));
  inv_nodup : NoDup (order ++ queue);
  inv_zero : forall k, In k (order ++ queue) ->
    In k K /\ (pending edges order k + occ nbrs k = 0)%nat;
  inv_ready : forall k, In k K ->
    (pending edges order k + occ nbrs k = 0)%nat -> In k (order ++ queue);
  inv_nbrs : forall n, In n nbrs -> In n K
}.

(** Every edge into a node of the order leaves from an earlier node. *)
Definition sources_first (edges : list Edge) (order : list string) : Prop :=
  forall l1 k l2, order = l1 ++ k :: l2 ->
  forall e, In e edges -> target e = k -> In (source e) l1.

Definition cycle_error : exn :=
  ValueError "Workflow contains cycles or unreachable nodes".

(** What the [while] loop leaves in [execution_order]. *)
Record drained (nodes : list Node) (edges : list Edge) (final : list string)
  : Prop := {
  drained_nodup : NoDup final;
  drained_nodes : forall k, In k final -> In k (node_ids nodes);
  drained_sources : sources_first edges final;
  drained_ready : forall k, In k (node_ids nodes) ->
    pending edges final k = 0%nat -> In k final
}.

(** What [execute_node] does to the run, whether it returns or raises. *)
Record node_run {rt : PyRuntime} (id : string) (r : result value) (s s' : Run) : Prop := {
  nr_status : status (context s') = status (context s);
  nr_frame : forall x, x <> id ->
    dget (node_states (context s')) x = dget (node_states (context s)) x;
  nr_order : execution_order (context s')
             = match r with
               | Ok _ => execution_order (context s) ++ [id]
               | Raise _ => execution_order (context s)
               end;
  nr_errors : errors (context s')
              = match r with
                | Ok _ => errors (context s)
                | Raise e => dset (errors (context s)) id (exn_message e)
                end;
  nr_state : node_status (context s') id
             = Some (VStr match r with Ok _ => "completed" | Raise _ => "error" end);
  nr_dispatched : match r with
                  | Ok _ => dispatched s' = dispatched s ++ [id]
                  | Raise _ => dispatched s' = dispatched s
                               \/ dispatched s' = dispatched s ++ [id]
                  end
}.

(** How far the loop of the full run got: the nodes [done] completed, and
    either nothing failed among them, or the node at the head of what
    remained raised. *)
Record loop_run {rt : PyRuntime} (remaining : list string) (r : result unit) (s s' : Run)
  (done rest : list string) : Prop := {
  lr_split : remaining = done ++ rest;
  lr_order : execution_order (context s') = execution_order (context s) ++ done;
  lr_status : status (context s') = status (context s);
  lr_completed : forall a, In a done ->
    node_status (context s') a = Some (VStr "completed");
  lr_frame : forall x, ~ In x remaining ->
    dget (node_states (context s')) x = dget (node_states (context s)) x;
  lr_finished : r = Ok tt -> rest = [];
  lr_failure :
    (errors (context s') = errors (context s)
     /\ dispatched s' = dispatched s ++ done)
    \/ (exists b rest' e,
          rest = b :: rest' /\ r = Raise e
          /\ errors (context s') = dset (errors (context s)) b (exn_message e)
          /\ node_status (context s') b = Some (VStr "error")
          /\ (dispatched s' = dispatched s ++ done
              \/ dispatched s' = dispatched s ++ done ++ [b]))
}.


(** What a full run leaves when the sort has returned [order]. *)
Record dispatch_report (order : list string) (r : result unit) (s : Run)
  (done rest : list string) : Prop := {
  dr_split : order = done ++ rest;
  dr_order : execution_order (context s) = done;
  dr_completed : forall a, In a done ->
    node_status (context s) a = Some (VStr "completed");
  dr_status : status (context s) = "completed" \/ status (context s) = "error";
  dr_success : status (context s) = "completed" -> rest = [] /\ r = Ok tt;
  dr_failure :
    (errors (context s) = [] /\ dispatched s = done)
    \/ (exists b rest' msg,
          rest = b :: rest' /\ status (context s) = "error"
          /\ errors (context s) = [(b, msg)]
          /\ node_status (context s) b = Some (VStr "error")
          /\ (dispatched s = done \/ dispatched s = done ++ [b]))
}.

(** The call returns, or the exception that leaves it is the one the
    callback raised on the [workflow_error] event. *)
Definition escapes (progress_callback : option ProgressCallback)
  (r : result unit) : Prop :=
  r = Ok tt
  \/ exists f msg e,
       progress_callback = Some f /\ f (workflow_error msg) = Raise e /\ r = Raise e.

(** No executor changes the trigger payload it shares with the run. *)
Definition payload_kept {ex : Executors} : Prop :=
  forall cls node inputs exec_context,
    dget (context_after (execute cls node inputs exec_context)) "trigger_data"
    = dget exec_context "trigger_data".

(** A computation that leaves the trigger payload of the context as it
    is. *)
Definition keeps (payload : value) {A : Type} (m : M A) : Prop :=
  forall s, trigger_data (context s) = payload ->
            trigger_data (context (snd (m s))) = payload.

Definition handle_or_main (handle : option string) : string :=
  match handle with Some h => h | None => "main"%string end.

(** The edge ends at the [main] input handle of [node]. *)
Definition targets_main (node : string) (edge : Edge) : bool :=
  String.eqb (target edge) node
  && String.eqb (handle_or_main (targetHandle edge)) "main".

(** The payload an edge carries: the output handle it names in the
    recorded result of its source, or that result as a whole; an edge
    whose source has no result, or a falsy one, carries none. *)
Definition payload_of (context : ExecutionContext) (edge : Edge) : option value :=
  let source_result := get_node_result context (source edge) in
  if truthy source_result then
    Some match source_result with
         | VDict d => dget_default d (handle_or_main (sourceHandle edge)) source_result
         | _ => source_result
         end
  else None.

Definition main_entry (context : ExecutionContext) (node : string) (edge : Edge)
  : list (string * value) :=
  if targets_main node edge then
    match payload_of context edge with
    | Some p => [(source edge, p)]
    | None => []
    end
  else [].

(** [float(v)] succeeds and the result equals zero. *)
Definition zero_valued {rt : PyRuntime} (v : value) : bool :=
  match py_float v with
  | Ok f => PrimFloat.eqb f PrimFloat.zero
  | Raise _ => false
  end.

(** An empty or none result. *)
Definition empty_or_none (v : value) : Prop :=
  v = VNone \/ v = VStr EmptyString \/ v = VList [] \/ v = VDict [].

(** The entry [field] of the [main] output of an executor that
    returned. *)
Definition output_field (r : result value) (field : string) : option value :=
  match r with
  | Ok (VDict d) =>
      match dget d "main" with
      | Some (VDict m) => dget m field
      | _ => None
      end
  | _ => None
  end.



(* ===================================================================== *)
(** * Collaborators and data of the examples *)
(* ===================================================================== *)

(** ** Concrete collaborators, for the examples *)

Definition demo_runtime : PyRuntime :=
  {| str_repr := fun s => ("'" ++ s ++ "'")%string;
     float_repr := fun _ => "0.0"%string;
     json_float := fun _ => "0.0"%string;
     float_of_string := fun s => option_map float_of_Z (py_int s);
     json_loads := fun _ => None;
     py_eval := fun s =>
       match py_int s with
       | Some z => Ok (VInt z)
       | None => Raise (OtherError "invalid syntax")
       end;
     clock_ms := fun n => float_of_Z (Z.of_nat n);
     clock_iso := fun n => string_of_Z (Z.of_nat n);
     recursion_budget := 300 |}.

(** Executors that echo their inputs, except that a [code] node raises. *)
Definition demo_executors : Executors :=
  {| is_registered := fun _ => false;
     execute := fun _ node inputs exec_context =>
       {| returned :=
            if String.eqb (node_type node) "code"
            then Raise (NodeExecutionError "JavaScript execution requires additional setup")
            else Ok (VDict [("main", VDict inputs)]);
          context_after := exec_context |} |}.

Definition demo_node (id type : string) : Node :=
  {| node_id := id; node_type := type; properties := [] |}.

Definition demo_edge (s t : string) : Edge :=
  {| source := s; target := t; sourceHandle := None; targetHandle := None |}.


Definition demo_nodes : list Node :=
  [demo_node "C" "filter"; demo_node "A" "webhook"; demo_node "B" "edit-fields"].

Definition demo_edges : list Edge := [demo_edge "A" "B"; demo_edge "B" "C"].



Definition cyclic_edges : list Edge := [demo_edge "A" "B"; demo_edge "B" "A"].


Definition ada_json : value := VDict [("user", VDict [("name", VStr "Ada")])].

(** A context in which the node [n1] has the recorded result
    [{main: {x: "v"}}] and the current input is empty. *)
Definition recorded_context : dict value :=
  [("node_results", VDict [("n1", VDict [("main", VDict [("x", VStr "v")])])]);
   ("json", VDict [])]%string.

Definition ratio_evaluator : ExpressionEvaluator.t :=
  ExpressionEvaluator.__init__
    [("json", VDict [("total", VInt 10); ("count", VInt 0)])]%string.

Definition viewer (content : string) : NodeExecutor :=
  {| node_id := "viewer"; node_type := "readme-viewer";
     properties := [("content", VStr content)]%string |}.

(** The usual check of required inputs. *)
Definition demo_base : BaseNodeExecutor :=
  {| validate_inputs := fun _ inputs required =>
       if forallb (dmem inputs) required then Ok tt
       else Raise (NodeExecutionError "Missing required input") |}.


Definition merge_context : ExecutionContext :=
  set_node_result
    (set_node_result (new_context 0 "w" "x") "left"
       (VDict [("main", VDict [("a", VInt 1)])]))
    "right" (VDict [("main", VDict [("a", VInt 2); ("b", VInt 3)])]).

Definition merge_edges : list Edge :=
  [demo_edge "left" "X"; demo_edge "X" "Y"; demo_edge "right" "X"].

(* ===================================================================== *)
(** * The vocabulary of the further properties *)
(* ===================================================================== *)

(** Both ends of the edge are ids of the node list. *)
Definition edge_known (nodes : list Node) (edge : Edge) : bool :=
  mem (source edge) (node_ids nodes) && mem (target edge) (node_ids nodes).

(** The sources of the edges into [k], in the order of the edge list. *)
Definition sources_of (es : list Edge) (k : string) : list string :=
  map source (filter (fun e => String.eqb (target e) k) es).

(** One pass of a search along the edges: from the [near] end of an edge
    to its [far] end. *)
Definition hop (near far : Edge -> string) (edges : list Edge) (u v : string)
  : Prop :=
  exists e, In e edges /\ near e = u /\ far e = v.

(** The order a run schedules: that of all the nodes, or, when a start
    node is given, that of the nodes [_execute_from_node] selects. *)
Definition scheduled (nodes : list Node) (edges : list Edge)
  (start_node_id : option string) : result (list string) :=
  match WorkflowExecutionEngine.partial_run_requested start_node_id with
  | Some id =>
      let nodes_to_execute :=
        WorkflowExecutionEngine._get_execution_subgraph id nodes edges false in
      _topological_sort
        (filter (fun n => mem (node_id n) nodes_to_execute) nodes)
        (filter (fun e => mem (source e) nodes_to_execute
                          && mem (target e) nodes_to_execute) edges)
  | None => _topological_sort nodes edges
  end.

(** The loop over the scheduled nodes, in either mode. *)
Definition run_scheduled {rt : PyRuntime} {ex : Executors} (nodes : list Node)
  (edges : list Edge) (start_node_id : option string)
  (progress_callback : option ProgressCallback) (order : list string) : M unit :=
  match WorkflowExecutionEngine.partial_run_requested start_node_id with
  | Some _ =>
      WorkflowExecutionEngine.run_subgraph_nodes nodes edges progress_callback
        (List.length order) 0 order
  | None =>
      WorkflowExecutionEngine.run_nodes nodes edges progress_callback
        (List.length order) 0 order
  end.

(** A computation that keeps a property of the context. *)
Definition preserves (P : ExecutionContext -> Prop) {A : Type} (m : M A) : Prop :=
  forall s, P (context s) -> P (context (snd (m s))).

(** A result as [execute_node] stores it: a mapping with the key [main]. *)
Definition has_main (v : value) : Prop :=
  exists d, v = VDict d /\ dmem d "main" = true.

(** The books of a run agree: the nodes with a recorded result are those
    of ExecutionOrder, every recorded result is a mapping with the key
    [main], and a node with a result or an error has a state. *)
Record tidy (c : ExecutionContext) : Prop := {
  tidy_results : forall id,
    In id (dkeys (node_results c)) <-> In id (execution_order c);
  tidy_main : forall id v, dget (node_results c) id = Some v -> has_main v;
  tidy_states : forall id,
    In id (execution_order c) \/ In id (dkeys (errors c)) ->
    In id (dkeys (node_states c))
}.

(** The edge ends at [node] and its source has a recorded result that is
    truthy. *)
Definition live_edge (context : ExecutionContext) (node : string) (edge : Edge)
  : bool :=
  String.eqb (target edge) node && truthy (get_node_result context (source edge)).

(** A context in which [left] and [right] have results whose [main] is a
    string, and [idle] has none. *)
Definition plain_context : ExecutionContext :=
  set_node_result
    (set_node_result (new_context 0 "w" "x") "left" (VDict [("main", VStr "l")]))
    "right" (VDict [("main", VStr "r")]).

Definition plain_edges : list Edge :=
  [demo_edge "left" "X"; demo_edge "idle" "X"; demo_edge "right" "X";
   demo_edge "X" "Y"].


Definition count_evaluator : ExpressionEvaluator.t :=
  ExpressionEvaluator.__init__
    [("json", VDict [("count", VInt 5);
                     ("items", VList [VDict [("name", VStr "first")]])])]%string.

(** The value the field definitions give to the key [k]: that of the last
    definition whose key is [k]; the empty key is never set. *)
Fixpoint declared (fields : list value) (k : string) : option value :=
  match fields with
  | [] => None
  | field_def :: rest =>
      match declared rest k with
      | Some v => Some v
      | None =>
          match field_def with
          | VDict f =>
              if is_literal (dget_default f "key" (VStr EmptyString)) k
                 && ExpressionEvaluator.nonempty k
              then Some (dget_default f "value" (VStr EmptyString))
              else None
          | _ => None
          end
      end
  end.

(** A field definition as the editor writes it: a mapping whose key is a
    string. *)
Definition keyed_by_string (field_def : value) : Prop :=
  exists f k, field_def = VDict f
              /\ dget_default f "key" (VStr EmptyString) = VStr k.


Definition rename_fields : NodeExecutor :=
  {| node_id := "e"; node_type := "edit-fields";
     properties :=
       [("fields",
          VList [VDict [("key", VStr "name"); ("value", VStr "first")];
                 VDict [("key", VStr EmptyString); ("value", VStr "lost")];
                 VDict [("key", VStr "name"); ("value", VStr "second")]])]%string |}.


Definition webhook_node : NodeExecutor :=
  {| node_id := "hook"; node_type := "webhook";
     properties := [("path", VStr "/orders")]%string |}.

(** A runtime whose JSON parser knows one text. *)
Definition json_runtime : PyRuntime :=
  {| str_repr := fun s => ("'" ++ s ++ "'")%string;
     float_repr := fun _ => "0.0"%string;
     json_float := fun _ => "0.0"%string;
     float_of_string := fun s => option_map float_of_Z (py_int s);
     json_loads := fun s =>
       if String.eqb s "[7]" then Some (VList [VInt 7]) else None;
     py_eval := fun s =>
       match py_int s with
       | Some z => Ok (VInt z)
       | None => Raise (OtherError "invalid syntax")
       end;
     clock_ms := fun n => float_of_Z (Z.of_nat n);
     clock_iso := fun n => string_of_Z (Z.of_nat n);
     recursion_budget := 300 |}.

Definition tested_webhook : NodeExecutor :=
  {| node_id := "hook"; node_type := "webhook";
     properties := [("test_json", VStr "[7]")]%string |}.

(** The trigger class of the engine's collaborators is the one of
    [trigger_nodes.py]. *)
Definition triggers_from_source {rt : PyRuntime} {ex : Executors} : Prop :=
  forall node inputs exec_context,
    execute TriggerNodeExecutor node inputs exec_context
    = TriggerNodeExecutor.execute node inputs exec_context.

(** Executors whose trigger class is that of the sources; the other
    classes echo their inputs. *)
Definition source_triggers {rt : PyRuntime} : Executors :=
  {| is_registered := fun _ => false;
     execute := fun cls node inputs exec_context =>
       match cls with
       | TriggerNodeExecutor => TriggerNodeExecutor.execute node inputs exec_context
       | _ => {| returned := Ok (VDict [("main", VDict inputs)]);
                 context_after := exec_context |}
       end |}.

(** The state in which a run with the payload [{method: "POST"}] enters
    its loop. *)
Definition posted_run : Run :=
  WorkflowExecutionEngine.start_run "w" "x" (VDict [("method", VStr "POST")]) VNone.

Definition chat_node : NodeExecutor :=
  {| node_id := "chat"; node_type := "when-chat-received";
     properties := [("channel", VStr "support")]%string |}.

(* ===================================================================== *)
(** * Properties *)
(* ===================================================================== *)


(** ** Dictionaries *)

Section DictFacts.
Context {V : Type}.
Implicit Types (d : dict V) (k : string) (v : V).

Lemma dget_dset d k k' v :
  dget (dset d k v) k' = if String.eqb k k' then Some v else dget d k'.
Proof.
  induction d as [|[k0 v0] d IH]; simpl.
  - reflexivity.
  - destruct (String.eqb_spec k0 k) as [->|Hne]; simpl.
    + destruct (String.eqb k k'); reflexivity.
    + rewrite IH. destruct (String.eqb_spec k0 k') as [->|Hne'].
      * destruct (String.eqb_spec k k'); [congruence | reflexivity].
      * reflexivity.
Qed.

Lemma dget_dset_same d k v : dget (dset d k v) k = Some v.
Proof. rewrite dget_dset, String.eqb_refl. reflexivity. Qed.

Lemma dget_dset_other d k k' v : k <> k' -> dget (dset d k v) k' = dget d k'.
Proof.
  intros Hne. rewrite dget_dset.
  destruct (String.eqb_spec k k'); [contradiction | reflexivity].
Qed.

Lemma dget_None_iff d k : dget d k = None <-> ~ In k (dkeys d).
Proof.
  induction d as [|[k0 v0] d IH]; simpl.
  - tauto.
  - destruct (String.eqb_spec k0 k) as [->|Hne].
    + split; [discriminate | intros H; exfalso; apply H; now left].
    + rewrite IH. tauto.
Qed.

Lemma dget_Some_in d k v : dget d k = Some v -> In k (dkeys d).
Proof.
  intros H. destruct (in_dec string_dec k (dkeys d)) as [Hin|Hout]; [assumption|].
  apply dget_None_iff in Hout. congruence.
Qed.

Lemma in_keys_dget d k : In k (dkeys d) -> exists v, dget d k = Some v.
Proof.
  intros Hin. destruct (dget d k) eqn:E; [eauto|].
  apply dget_None_iff in E. contradiction.
Qed.

Lemma dkeys_dset_present d k v : In k (dkeys d) -> dkeys (dset d k v) = dkeys d.
Proof.
  induction d as [|[k0 v0] d IH]; simpl; intros Hin.
  - contradiction.
  - destruct (String.eqb_spec k0 k) as [->|Hne]; simpl.
    + reflexivity.
    + f_equal. apply IH. destruct Hin; [contradiction | assumption].
Qed.

Lemma dkeys_dset_absent d k v : ~ In k (dkeys d) -> dkeys (dset d k v) = dkeys d ++ [k].
Proof.
  induction d as [|[k0 v0] d IH]; simpl; intros Hout.
  - reflexivity.
  - destruct (String.eqb_spec k0 k) as [->|Hne]; simpl.
    + exfalso. apply Hout. now left.
    + f_equal. apply IH. tauto.
Qed.

End DictFacts.

Lemma mem_In x l : mem x l = true <-> In x l.
Proof.
  unfold mem. rewrite existsb_exists. split.
  - intros (y & Hy & E). apply String.eqb_eq in E. now subst.
  - intros H. exists x. split; [assumption | apply String.eqb_refl].
Qed.

Lemma mem_false x l : mem x l = false <-> ~ In x l.
Proof.
  rewrite <- mem_In. destruct (mem x l); split; intros; congruence.
Qed.

(** ** The topological sort *)

Section DictFromNodes.
Context {V : Type} (v : V).

Local Abbreviation step := (add_node_key v).

Lemma fold_nodes_spec (nodes : list Node) (d : dict V) :
  NoDup (dkeys d) ->
  (forall k x, dget d k = Some x -> x = v) ->
  let d' := fold_left step nodes d in
  NoDup (dkeys d')
  /\ (forall k, In k (dkeys d') <-> In k (dkeys d) \/ In k (map node_id nodes))
  /\ (forall k x, dget d' k = Some x -> x = v)
  /\ (List.length (dkeys d') <= List.length (dkeys d) + List.length nodes)%nat
  /\ (d = [] -> NoDup (map node_id nodes) -> dkeys d' = map node_id nodes).
Proof.
  revert d. induction nodes as [|n nodes IH]; simpl; intros d Hnd Hv.
  - repeat split; auto; try tauto; try lia. intros ->. reflexivity.
  - assert (Hnd' : NoDup (dkeys (step d n))).
    { unfold add_node_key. destruct (in_dec string_dec (node_id n) (dkeys d)) as [Hin|Hout].
      - rewrite dkeys_dset_present by assumption. assumption.
      - rewrite dkeys_dset_absent by assumption.
        apply NoDup_app; [assumption | repeat constructor; auto | ].
        intros x Hx [<-|[]]. contradiction. }
    assert (Hv' : forall k x, dget (step d n) k = Some x -> x = v).
    { unfold add_node_key. intros k x. rewrite dget_dset.
      destruct (String.eqb (node_id n) k); [congruence | apply Hv]. }
    assert (Hk : forall k, In k (dkeys (step d n)) <-> In k (dkeys d) \/ k = node_id n).
    { unfold add_node_key. intros k.
      destruct (in_dec string_dec (node_id n) (dkeys d)) as [Hin|Hout].
      - rewrite dkeys_dset_present by assumption. split; [tauto|].
        intros [H| ->]; assumption.
      - rewrite dkeys_dset_absent by assumption. rewrite in_app_iff. simpl.
        split; intros [H|H]; auto. destruct H as [->|[]]; auto. }
    assert (Hlen : (List.length (dkeys (step d n)) <= S (List.length (dkeys d)))%nat).
    { unfold add_node_key.
      destruct (in_dec string_dec (node_id n) (dkeys d)) as [Hin|Hout].
      - rewrite dkeys_dset_present by assumption. lia.
      - rewrite dkeys_dset_absent by assumption. rewrite length_app. simpl. lia. }
    destruct (IH _ Hnd' Hv') as (A & B & C & D & E).
    repeat split.
    + exact A.
    + intros H. apply B in H. rewrite Hk in H. intuition auto.
    + intros H. apply B. rewrite Hk. destruct H as [H|[H|H]]; auto.
    + exact C.
    + lia.
    + intros -> Hnd2. inversion Hnd2 as [|? ? Hnotin Hnd3]; subst.
      clear - IH Hnotin Hnd3. unfold add_node_key at 2. simpl.
      (* the first key stays in front *)
      assert (G : forall (ns : list Node) (d0 : dict V) k,
                 fold_left step ns ((k, v) :: d0)
                 = (k, v) :: fold_left step ns
                               (d0) \/ In k (map node_id ns)).
      { induction ns as [|m ns IHns]; intros d0 k; simpl.
        - now left.
        - unfold add_node_key at 2 4. simpl.
          destruct (String.eqb_spec k (node_id m)) as [->|Hne].
          + right. now left.
          + destruct (IHns (dset d0 (node_id m) v) k) as [H|H]; [left | right; now right].
            exact H. }
      destruct (G nodes [] (node_id n)) as [H|H]; [|contradiction].
      rewrite H. unfold dkeys at 1. simpl. f_equal.
      destruct (IH [] (NoDup_nil _)) as (_ & _ & _ & _ & E').
      { intros k x; simpl; discriminate. }
      apply E'; auto.
Qed.

Lemma dict_from_nodes_spec (nodes : list Node) :
  let d := TopologicalSort.dict_from_nodes nodes v in
  NoDup (dkeys d)
  /\ (forall k, In k (dkeys d) <-> In k (map node_id nodes))
  /\ (forall k, In k (dkeys d) -> dget d k = Some v)
  /\ (List.length (dkeys d) <= List.length nodes)%nat
  /\ (NoDup (map node_id nodes) -> dkeys d = map node_id nodes).
Proof.
  destruct (fold_nodes_spec nodes [] (NoDup_nil _)) as (A & B & C & D & E).
  { intros k x; simpl; discriminate. }
  unfold TopologicalSort.dict_from_nodes. repeat split.
  - exact A.
  - intros H. apply B in H. simpl in H. tauto.
  - intros H. apply B. now right.
  - intros k Hin. destruct (in_keys_dget _ _ Hin) as [x Hx].
    rewrite Hx. f_equal. eapply C; eassumption.
  - simpl in D. exact D.
  - intros H. apply E; auto.
Qed.

End DictFromNodes.

Lemma dict_from_nodes_keys {V W : Type} (v : V) (w : W) (nodes : list Node) :
  dkeys (TopologicalSort.dict_from_nodes nodes v)
  = dkeys (TopologicalSort.dict_from_nodes nodes w).
Proof.
  unfold TopologicalSort.dict_from_nodes.
  assert (G : forall (d1 : dict V) (d2 : dict W), dkeys d1 = dkeys d2 ->
            dkeys (fold_left (fun d n => dset d (node_id n) v) nodes d1)
            = dkeys (fold_left (fun d n => dset d (node_id n) w) nodes d2)).
  { induction nodes as [|n nodes IH]; simpl; intros d1 d2 E; [assumption|].
    apply IH.
    destruct (in_dec string_dec (node_id n) (dkeys d1)) as [Hin|Hout].
    - rewrite !dkeys_dset_present; congruence.
    - rewrite !dkeys_dset_absent; congruence. }
  apply G. reflexivity.
Qed.

(** *** Counting edges *)


Lemma pending_nil es k : pending es [] k = in_degree_of es k.
Proof.
  unfold pending, in_degree_of. f_equal. apply filter_ext.
  intros e. simpl. apply andb_true_r.
Qed.

Lemma pending_snoc es order cur k :
  ~ In cur order ->
  pending es order k = (pending es (order ++ [cur]) k + occ (targets_of es cur) k)%nat.
Proof.
  intros Hcur. unfold pending, occ, targets_of.
  induction es as [|e es IH]; simpl; [reflexivity|].
  assert (Hm : mem (source e) (order ++ [cur])
               = mem (source e) order || String.eqb (source e) cur).
  { unfold mem. rewrite existsb_app. simpl. rewrite orb_false_r. reflexivity. }
  rewrite Hm.
  destruct (String.eqb_spec (source e) cur) as [Es|Es].
  - assert (Hn : mem (source e) order = false).
    { apply mem_false. rewrite Es. assumption. }
    rewrite Hn. simpl. rewrite andb_false_r.
    destruct (String.eqb_spec (target e) k) as [Et|Et]; simpl.
    + destruct (string_dec (target e) k); [|contradiction]. lia.
    + destruct (string_dec (target e) k); [contradiction|]. lia.
  - rewrite orb_false_r.
    destruct (String.eqb (target e) k && negb (mem (source e) order)); simpl; lia.
Qed.

Lemma pending_zero_sources es order k :
  pending es order k = 0%nat ->
  forall e, In e es -> target e = k -> In (source e) order.
Proof.
  unfold pending. intros H e He Et.
  destruct (in_dec string_dec (source e) order) as [Hin|Hout]; [assumption|].
  exfalso.
  assert (Hf : In e (filter (fun e => String.eqb (target e) k
                                      && negb (mem (source e) order)) es)).
  { apply filter_In. split; [assumption|].
    cbv beta. rewrite Et, String.eqb_refl. simpl.
    apply mem_false in Hout. rewrite Hout. reflexivity. }
  destruct (filter _ es); [contradiction | discriminate].
Qed.


Lemma targets_of_app es1 es2 k :
  targets_of (es1 ++ es2) k = targets_of es1 k ++ targets_of es2 k.
Proof. unfold targets_of. rewrite filter_app, map_app. reflexivity. Qed.

(** *** Filling [adjacency] and [in_degree] *)

Lemma build_spec (es : list Edge) :
  forall in_degree adjacency in_degree' adjacency' K,
  dkeys in_degree = K -> dkeys adjacency = K ->
  TopologicalSort.build es in_degree adjacency = Ok (in_degree', adjacency') ->
  dkeys in_degree' = K /\ dkeys adjacency' = K
  /\ (forall e, In e es -> In (source e) K /\ In (target e) K)
  /\ (forall k d, dget in_degree k = Some d ->
        dget in_degree' k = Some (d + Z.of_nat (in_degree_of es k)))
  /\ (forall k l, dget adjacency k = Some l ->
        dget adjacency' k = Some (l ++ targets_of es k)).
Proof.
  induction es as [|e es IH]; simpl; intros ind adj ind' adj' K Hk1 Hk2 Hb.
  - inversion Hb; subst. repeat split; auto; try contradiction.
    + intros k d H. rewrite H. f_equal. unfold in_degree_of. simpl. lia.
    + intros k l H. rewrite H. f_equal. unfold targets_of. simpl.
      now rewrite app_nil_r.
  - destruct (dget adj (source e)) as [ts|] eqn:Ea; [|discriminate].
    destruct (dget ind (target e)) as [dg|] eqn:Ei; [|discriminate].
    assert (Hs : In (source e) K) by (rewrite <- Hk2; eapply dget_Some_in; eauto).
    assert (Ht : In (target e) K) by (rewrite <- Hk1; eapply dget_Some_in; eauto).
    apply IH with (K := K) in Hb.
    + destruct Hb as (A & B & C & D & E). repeat split; auto.
      * destruct H as [<-|H]; [assumption | now apply C].
      * destruct H as [<-|H]; [assumption | now apply C].
      * intros k d Hd. unfold in_degree_of. simpl.
        destruct (String.eqb_spec (target e) k) as [Et|Hne]; simpl.
        -- subst k. rewrite (D (target e) (dg + 1)) by apply dget_dset_same.
           f_equal. fold (in_degree_of es (target e)).
           rewrite Ei in Hd. inversion Hd. lia.
        -- rewrite (D k d) by (rewrite dget_dset_other; assumption).
           reflexivity.
      * intros k l Hl. unfold targets_of. simpl.
        destruct (String.eqb_spec (source e) k) as [Es|Hne]; simpl.
        -- subst k. rewrite (E (source e) (ts ++ [target e])) by apply dget_dset_same.
           rewrite Ea in Hl. inversion Hl; subst.
           now rewrite <- app_assoc.
        -- rewrite (E k l) by (rewrite dget_dset_other; assumption).
           reflexivity.
    + rewrite dkeys_dset_present; [assumption | now rewrite Hk1].
    + rewrite dkeys_dset_present; [assumption | now rewrite Hk2].
Qed.

Lemma build_ok (es : list Edge) :
  forall in_degree adjacency K,
  dkeys in_degree = K -> dkeys adjacency = K ->
  (forall e, In e es -> In (source e) K /\ In (target e) K) ->
  exists built, TopologicalSort.build es in_degree adjacency = Ok built.
Proof.
  induction es as [|e es IH]; simpl; intros ind adj K Hk1 Hk2 Hc.
  - eauto.
  - destruct (Hc e (or_introl eq_refl)) as [Hs Ht].
    rewrite <- Hk2 in Hs. rewrite <- Hk1 in Ht.
    destruct (in_keys_dget _ _ Hs) as [ts ->].
    destruct (in_keys_dget _ _ Ht) as [dg ->].
    apply IH with (K := K).
    + rewrite dkeys_dset_present; assumption.
    + rewrite dkeys_dset_present; assumption.
    + intros e' He'. apply Hc. now right.
Qed.

(** *** The invariant of the [while] loop *)

Section Kahn.
Variable edges : list Edge.
Variable K : list string.
Hypothesis K_nodup : NoDup K.
Hypothesis edges_in_K : forall e, In e edges -> In (source e) K /\ In (target e) K.



Lemma relax_spec (nbrs : list string) :
  forall in_degree order queue,
  kahn_inv edges K in_degree order queue nbrs ->
  exists in_degree' queue',
    TopologicalSort.relax nbrs in_degree queue = Ok (in_degree', queue')
    /\ kahn_inv edges K in_degree' order queue' [].
Proof.
  induction nbrs as [|n nbrs IH]; intros ind order queue I; simpl.
  - eauto.
  - assert (HnK : In n K) by (apply (inv_nbrs _ _ _ _ _ _ I); now left).
    rewrite (inv_degree _ _ _ _ _ _ I n HnK).
    assert (Hocc : occ (n :: nbrs) n = S (occ nbrs n)).
    { unfold occ. simpl. destruct (string_dec n n); [reflexivity | contradiction]. }
    assert (Hother : forall k, k <> n -> occ (n :: nbrs) k = occ nbrs k).
    { intros k Hk. unfold occ. simpl.
      destruct (string_dec n k); [congruence | reflexivity]. }
    assert (Hfresh : ~ In n (order ++ queue)).
    { intros Hin. apply (inv_zero _ _ _ _ _ _ I) in Hin. rewrite Hocc in Hin. lia. }
    set (deg := Z.of_nat (pending edges order n + occ (n :: nbrs) n) - 1).
    assert (Hdeg : deg = Z.of_nat (pending edges order n + occ nbrs n)).
    { unfold deg. rewrite Hocc. lia. }
    apply IH. constructor.
    + rewrite dkeys_dset_present; [apply (inv_keys _ _ _ _ _ _ I)|].
      rewrite (inv_keys _ _ _ _ _ _ I). assumption.
    + intros k Hk. destruct (string_dec n k) as [<-|Hne].
      * rewrite dget_dset_same. now rewrite Hdeg.
      * rewrite dget_dset_other by assumption.
        rewrite (inv_degree _ _ _ _ _ _ I k Hk). rewrite Hother by congruence.
        reflexivity.
    + destruct (Z.eqb_spec deg 0).
      * rewrite app_assoc. apply NoDup_app.
        -- apply (inv_nodup _ _ _ _ _ _ I).
        -- repeat constructor. simpl. tauto.
        -- intros x Hx [<-|[]]. contradiction.
      * apply (inv_nodup _ _ _ _ _ _ I).
    + intros k Hk.
      assert (Hcase : In k (order ++ queue) \/ (k = n /\ deg = 0)).
      { destruct (Z.eqb_spec deg 0).
        - rewrite app_assoc in Hk. apply in_app_or in Hk.
          destruct Hk as [Hk|[<-|[]]]; auto.
        - now left. }
      destruct Hcase as [Hin|[-> Hz]].
      * assert (Hne : k <> n) by (intros ->; contradiction).
        apply (inv_zero _ _ _ _ _ _ I) in Hin. rewrite Hother in Hin by assumption.
        assumption.
      * split; [assumption | lia].
    + intros k Hk Hz.
      destruct (string_dec k n) as [->|Hne].
      * assert (Hd0 : deg = 0) by lia.
        destruct (Z.eqb_spec deg 0); [|contradiction].
        rewrite app_assoc. apply in_or_app. right. now left.
      * assert (Hin : In k (order ++ queue)).
        { apply (inv_ready _ _ _ _ _ _ I); [assumption|]. now rewrite Hother. }
        destruct (Z.eqb_spec deg 0); [|assumption].
        rewrite app_assoc. apply in_or_app. now left.
    + intros m Hm. apply (inv_nbrs _ _ _ _ _ _ I). now right.
Qed.

Lemma kahn_inv_order_bound in_degree order queue :
  kahn_inv edges K in_degree order queue [] ->
  (List.length order + List.length queue <= List.length K)%nat.
Proof.
  intros I. rewrite <- length_app.
  apply NoDup_incl_length; [apply (inv_nodup _ _ _ _ _ _ I)|].
  intros k Hk. now apply (inv_zero _ _ _ _ _ _ I).
Qed.

Lemma drain_spec (adjacency : dict (list string)) :
  (forall k, In k K -> dget adjacency k = Some (targets_of edges k)) ->
  forall fuel in_degree queue order,
  kahn_inv edges K in_degree order queue [] ->
  sources_first edges order ->
  (List.length K - List.length order < fuel)%nat ->
  exists final in_degree',
    TopologicalSort.drain fuel adjacency in_degree queue order = Some (Ok final)
    /\ kahn_inv edges K in_degree' final [] []
    /\ sources_first edges final.
Proof.
  intros Hadj. induction fuel as [|fuel IH]; intros ind queue order I Hsf Hfuel.
  - lia.
  - destruct queue as [|cur queue]; simpl.
    + exists order, ind. auto.
    + assert (Hcur : In cur K /\ (pending edges order cur + occ [] cur = 0)%nat).
      { apply (inv_zero _ _ _ _ _ _ I). apply in_or_app. right. now left. }
      destruct Hcur as [HcurK Hcur0].
      rewrite (Hadj cur HcurK).
      assert (Hnd := inv_nodup _ _ _ _ _ _ I).
      assert (Hnew : ~ In cur order).
      { intros Hin. apply NoDup_remove_2 in Hnd. apply Hnd.
        apply in_or_app. now left. }
      assert (I' : kahn_inv edges K ind (order ++ [cur]) queue (targets_of edges cur)).
      { constructor.
        - apply (inv_keys _ _ _ _ _ _ I).
        - intros k Hk. rewrite (inv_degree _ _ _ _ _ _ I k Hk).
          rewrite (pending_snoc edges order cur k Hnew).
          change (occ [] k) with 0%nat. do 2 f_equal. lia.
        - rewrite <- app_assoc. exact Hnd.
        - intros k Hk. rewrite <- app_assoc in Hk. simpl in Hk.
          apply (inv_zero _ _ _ _ _ _ I) in Hk. destruct Hk as [Hk Hz].
          split; [assumption|].
          rewrite (pending_snoc edges order cur k Hnew) in Hz.
          change (occ [] k) with 0%nat in Hz. lia.
        - intros k Hk Hz. rewrite <- app_assoc. simpl.
          apply (inv_ready _ _ _ _ _ _ I); [assumption|].
          rewrite (pending_snoc edges order cur k Hnew).
          change (occ [] k) with 0%nat. lia.
        - intros m Hm. unfold targets_of in Hm. apply in_map_iff in Hm.
          destruct Hm as (e & <- & He). apply filter_In in He.
          now apply edges_in_K. }
      destruct (relax_spec _ _ _ _ I') as (ind' & queue' & -> & I'').
      assert (Hsf' : sources_first edges (order ++ [cur])).
      { intros l1 k l2 Hsplit e He Ht.
        destruct l2 as [|x l2' _] using rev_ind.
        - apply app_inj_tail in Hsplit. destruct Hsplit as [<- <-].
          apply (pending_zero_sources edges order cur); [lia | assumption | assumption].
        - change (l1 ++ k :: l2' ++ [x]) with (l1 ++ (k :: l2') ++ [x]) in Hsplit.
          rewrite app_assoc in Hsplit. apply app_inj_tail in Hsplit.
          destruct Hsplit as [Ho _]. now apply (Hsf l1 k l2' Ho e). }
      apply (IH ind' queue' (order ++ [cur]) I'' Hsf').
      pose proof (kahn_inv_order_bound _ _ _ I) as Hb. simpl in Hb.
      rewrite length_app. simpl. lia.
Qed.

End Kahn.

(** *** Graphs, cycles and positions *)


Lemma split_unique (z : string) (a : list string) :
  forall a' r r', NoDup (a ++ z :: r) -> a ++ z :: r = a' ++ z :: r' -> a = a'.
Proof.
  induction a as [|x a IH]; intros a' r r' Hnd E.
  - destruct a' as [|y a']; [reflexivity|].
    simpl in *. inversion E; subst. inversion Hnd as [|? ? Hn _]; subst.
    exfalso. apply Hn. apply in_or_app. right. now left.
  - destruct a' as [|y a']; simpl in *.
    + inversion E; subst. inversion Hnd as [|? ? Hn _]; subst.
      exfalso. apply Hn. apply in_or_app. right. now left.
    + inversion E; subst. f_equal. inversion Hnd; subst. eapply IH; eauto.
Qed.

Lemma before_iff (l : list string) (x y : string) :
  before l x y <-> exists l1 l2, l = l1 ++ y :: l2 /\ In x l1.
Proof.
  split.
  - intros (l1 & l2 & l3 & ->). exists (l1 ++ x :: l2), l3. split.
    + now rewrite <- app_assoc.
    + apply in_or_app. right. now left.
  - intros (l1 & l2 & -> & Hx). apply in_split in Hx.
    destruct Hx as (a & b & ->). exists a, b, l2.
    now rewrite <- app_assoc.
Qed.

Lemma before_trans (l : list string) (x z y : string) :
  NoDup l -> before l x z -> before l z y -> before l x y.
Proof.
  intros Hnd Hxz Hzy. apply before_iff in Hxz. apply before_iff.
  destruct Hxz as (p & q & Hl & Hx).
  destruct Hzy as (l1 & l2 & l3 & Hl').
  exists (l1 ++ z :: l2), l3. split.
  - now rewrite <- app_assoc.
  - assert (p = l1).
    { apply (split_unique z p l1 q (l2 ++ y :: l3)); congruence. }
    subst p. apply in_or_app. now left.
Qed.

Lemma before_irrefl (l : list string) (x : string) : NoDup l -> ~ before l x x.
Proof.
  intros Hnd (l1 & l2 & l3 & ->).
  apply NoDup_remove_2 in Hnd. apply Hnd.
  apply in_or_app. right. apply in_or_app. right. now left.
Qed.

Lemma before_In (l : list string) (x y : string) :
  before l x y -> In x l /\ In y l.
Proof.
  intros (l1 & l2 & l3 & ->). split.
  - apply in_or_app. right. now left.
  - apply in_or_app. right. right. apply in_or_app. right. now left.
Qed.

Lemma path_before (edges : list Edge) (order : list string) :
  NoDup order -> sources_first edges order ->
  forall x y, path edges x y -> In y order -> before order x y.
Proof.
  intros Hnd Hsf x y Hp. induction Hp as [x y (e & He & <- & <-)|x z y _ IH1 _ IH2];
    intros Hy.
  - apply before_iff. apply in_split in Hy. destruct Hy as (l1 & l2 & ->).
    exists l1, l2. split; [reflexivity|]. eapply Hsf; eauto.
  - specialize (IH2 Hy). apply before_trans with (z := z); auto.
    apply IH1. apply (before_In _ _ _ IH2).
Qed.


(** *** The result of [_topological_sort] *)

Lemma dget_In_pair {V : Type} (d : dict V) k v : dget d k = Some v -> In (k, v) d.
Proof.
  induction d as [|[k0 v0] d IH]; simpl; [discriminate|].
  destruct (String.eqb_spec k0 k) as [->|Hne].
  - intros H. inversion H. now left.
  - intros H. right. now apply IH.
Qed.

Lemma In_pair_dget {V : Type} (d : dict V) k v :
  NoDup (dkeys d) -> In (k, v) d -> dget d k = Some v.
Proof.
  induction d as [|[k0 v0] d IH]; simpl; intros Hnd Hin; [contradiction|].
  inversion Hnd as [|? ? Hn Hnd']; subst.
  destruct Hin as [E|Hin].
  - inversion E; subst. now rewrite String.eqb_refl.
  - destruct (String.eqb_spec k0 k) as [->|Hne].
    + exfalso. apply Hn. change k with (fst (k, v)). now apply in_map.
    + now apply IH.
Qed.

Lemma NoDup_keys_filter {V : Type} (f : string * V -> bool) (d : dict V) :
  NoDup (dkeys d) -> NoDup (dkeys (filter f d)).
Proof.
  unfold dkeys. induction d as [|kv d IH]; simpl; intros Hnd; [constructor|].
  inversion Hnd as [|? ? Hn Hnd']; subst.
  destruct (f kv); simpl; [|now apply IH].
  constructor; [|now apply IH].
  intros Hin. apply Hn. apply in_map_iff in Hin.
  destruct Hin as (x & Hx & Hf). apply filter_In in Hf.
  apply in_map_iff. exists x. tauto.
Qed.

Lemma build_raises_key_error (es : list Edge) :
  forall in_degree adjacency e,
  TopologicalSort.build es in_degree adjacency = Raise e -> exists k, e = KeyError k.
Proof.
  induction es as [|edge es IH]; simpl; intros ind adj e H; [discriminate|].
  destruct (dget adj (source edge)); [|inversion H; eauto].
  destruct (dget ind (target edge)); [|inversion H; eauto].
  eapply IH; eauto.
Qed.


Lemma topological_sort_closed (nodes : list Node) (edges : list Edge) :
  edges_closed nodes edges ->
  exists final,
    drained nodes edges final
    /\ _topological_sort nodes edges
       = if (List.length final =? List.length nodes)%nat
         then Ok final else Raise cycle_error.
Proof.
  intros Hclosed. unfold _topological_sort.
  set (ind0 := TopologicalSort.dict_from_nodes nodes 0).
  set (adj0 := TopologicalSort.dict_from_nodes nodes (@nil string)).
  destruct (dict_from_nodes_spec 0 nodes) as (Knd & Kin & Kget & Klen & _).
  destruct (dict_from_nodes_spec (@nil string) nodes) as (_ & _ & Aget & _ & _).
  fold ind0 in Knd, Kin, Kget, Klen. fold adj0 in Aget.
  assert (Hkeys : dkeys adj0 = dkeys ind0) by apply dict_from_nodes_keys.
  set (K := dkeys ind0) in *.
  assert (HclosedK : forall e, In e edges -> In (source e) K /\ In (target e) K).
  { intros e He. destruct (Hclosed e He). split; now apply Kin. }
  destruct (build_ok edges ind0 adj0 K eq_refl Hkeys HclosedK) as [[ind adj] Hb].
  rewrite Hb. cbn [bind].
  destruct (build_spec edges ind0 adj0 ind adj K eq_refl Hkeys Hb)
    as (Ki & Ka & _ & Hdeg & Hadj).
  assert (Hdeg' : forall k, In k K ->
            dget ind k = Some (Z.of_nat (in_degree_of edges k))).
  { intros k Hk. rewrite (Hdeg k 0) by now apply Kget. reflexivity. }
  assert (Hadj' : forall k, In k K -> dget adj k = Some (targets_of edges k)).
  { intros k Hk. rewrite (Hadj k []); [reflexivity|].
    apply Aget. now rewrite Hkeys. }
  assert (I : kahn_inv edges K ind [] (TopologicalSort.roots ind) []).
  { constructor.
    - exact Ki.
    - intros k Hk. rewrite Hdeg' by assumption. rewrite pending_nil.
      change (occ [] k) with 0%nat. do 2 f_equal. lia.
    - simpl. unfold TopologicalSort.roots. apply (NoDup_keys_filter _ ind).
      now rewrite Ki.
    - simpl. intros k Hk. unfold TopologicalSort.roots in Hk.
      apply in_map_iff in Hk. destruct Hk as ([k' d] & Hfst & Hf).
      simpl in Hfst. subst k'. apply filter_In in Hf. destruct Hf as [Hin Hz].
      simpl in Hz. apply Z.eqb_eq in Hz. subst d.
      assert (HkK : In k K).
      { rewrite <- Ki. change k with (fst (k, 0)). now apply in_map. }
      split; [assumption|].
      apply In_pair_dget in Hin; [|now rewrite Ki].
      rewrite Hdeg' in Hin by assumption. rewrite pending_nil.
      change (occ [] k) with 0%nat. inversion Hin. lia.
    - simpl. intros k Hk Hz. unfold TopologicalSort.roots.
      apply in_map_iff. exists (k, 0). split; [reflexivity|].
      apply filter_In. split; [|reflexivity].
      apply dget_In_pair. rewrite Hdeg' by assumption.
      rewrite pending_nil in Hz. change (occ [] k) with 0%nat in Hz.
      do 2 f_equal. lia.
    - intros n []. }
  assert (Hsf : sources_first edges []).
  { intros l1 k l2 Hnil. destruct l1; discriminate. }
  destruct (drain_spec edges K HclosedK adj Hadj' (S (List.length nodes))
              ind (TopologicalSort.roots ind) [] I Hsf) as (final & ind' & Hd & I' & Hsf').
  { simpl. lia. }
  rewrite Hd. cbn [bind]. exists final. split.
  - constructor.
    + pose proof (inv_nodup _ _ _ _ _ _ I') as H. now rewrite app_nil_r in H.
    + intros k Hk. apply Kin. apply (inv_zero _ _ _ _ _ _ I').
      now rewrite app_nil_r.
    + exact Hsf'.
    + intros k Hk Hz. apply Kin in Hk.
      pose proof (inv_ready _ _ _ _ _ _ I' k Hk) as H.
      rewrite app_nil_r in H. apply H. change (occ [] k) with 0%nat. lia.
  - destruct (List.length final =? List.length nodes)%nat; reflexivity.
Qed.

(** The sort returns an order or raises [KeyError] or the cycle error; the
    bound on the passes of its loop is never reached. *)
Lemma drain_total (nodes : list Node) (edges : list Edge) :
  (exists k, _topological_sort nodes edges = Raise (KeyError k))
  \/ _topological_sort nodes edges = Raise cycle_error
  \/ (exists order, _topological_sort nodes edges = Ok order).
Proof.
  destruct (TopologicalSort.build edges (TopologicalSort.dict_from_nodes nodes 0)
              (TopologicalSort.dict_from_nodes nodes [])) as [[ind adj]|e] eqn:Hb.
  - assert (Hclosed : edges_closed nodes edges).
    { destruct (dict_from_nodes_spec 0 nodes) as (_ & Kin & _).
      eapply build_spec in Hb; [|reflexivity | apply dict_from_nodes_keys].
      destruct Hb as (_ & _ & C & _). intros e He.
      destruct (C e He). split; now apply Kin. }
    destruct (topological_sort_closed nodes edges Hclosed) as (final & _ & ->).
    destruct (List.length final =? List.length nodes)%nat; eauto.
  - left. destruct (build_raises_key_error _ _ _ _ Hb) as [k ->].
    exists k. unfold _topological_sort. now rewrite Hb.
Qed.

Lemma topological_sort_Ok (nodes : list Node) (edges : list Edge) order :
  _topological_sort nodes edges = Ok order ->
  edges_closed nodes edges /\ drained nodes edges order
  /\ List.length order = List.length nodes.
Proof.
  intros Hs.
  assert (Hclosed : edges_closed nodes edges).
  { unfold _topological_sort in Hs.
    destruct (TopologicalSort.build edges (TopologicalSort.dict_from_nodes nodes 0)
                (TopologicalSort.dict_from_nodes nodes [])) as [[ind adj]|e] eqn:Hb;
      [|discriminate].
    destruct (dict_from_nodes_spec 0 nodes) as (_ & Kin & _).
    eapply build_spec in Hb; [|reflexivity | apply dict_from_nodes_keys].
    destruct Hb as (_ & _ & C & _). intros e He.
    destruct (C e He). split; now apply Kin. }
  split; [assumption|].
  destruct (topological_sort_closed nodes edges Hclosed) as (final & Hd & E).
  rewrite E in Hs.
  destruct (Nat.eqb_spec (List.length final) (List.length nodes)); [|discriminate].
  inversion Hs; subst. auto.
Qed.

Lemma path_target (edges : list Edge) x y :
  path edges x y -> exists e, In e edges /\ target e = y.
Proof.
  intros Hp. induction Hp as [x y (e & He & _ & Ht)|x z y _ _ _ IH]; eauto.
Qed.


(** Whatever order the sort returns, it has no repetition and every edge
    into one of its nodes leaves from an earlier one. *)
Lemma topological_sort_sound (nodes : list Node) (edges : list Edge) order :
  _topological_sort nodes edges = Ok order ->
  NoDup order
  /\ (forall k, In k order <-> In k (node_ids nodes))
  /\ (forall e, In e edges -> before order (source e) (target e)).
Proof.
  intros Hs. destruct (topological_sort_Ok _ _ _ Hs) as (Hclosed & Hd & Hlen).
  destruct Hd as [Hnd Hin Hsf Hready].
  assert (Hall : incl (node_ids nodes) order).
  { apply NoDup_length_incl; [assumption | | exact Hin].
    unfold node_ids. rewrite length_map. lia. }
  repeat split; auto.
  intros e He. apply before_iff.
  assert (Ht : In (target e) order) by (apply Hall; now apply Hclosed).
  apply in_split in Ht. destruct Ht as (l1 & l2 & E).
  exists l1, l2. split; [assumption|]. eapply Hsf; eauto.
Qed.


(** A graph with a cycle is never ordered. *)
Lemma topological_sort_cycle (nodes : list Node) (edges : list Edge) :
  has_cycle edges -> exists e, _topological_sort nodes edges = Raise e.
Proof.
  intros [v Hv].
  destruct (drain_total nodes edges) as [[k ->]|[->|[order Hs]]]; eauto.
  exfalso.
  destruct (topological_sort_sound _ _ _ Hs) as (Hnd & Hin & _).
  destruct (topological_sort_Ok _ _ _ Hs) as (Hclosed & Hd & _).
  destruct (path_target _ _ _ Hv) as (e & He & Ht).
  assert (Hvin : In v order).
  { apply Hin. rewrite <- Ht. now apply Hclosed. }
  apply (before_irrefl order v Hnd).
  apply (path_before edges order Hnd (drained_sources _ _ _ Hd) v v Hv Hvin).
Qed.

(** ** One node *)

Section NodeRun.
Context {rt : PyRuntime} {ex : Executors}.
Import WorkflowExecutionEngine.

Lemma dget_dupdate_other {V : Type} (l d : dict V) k :
  ~ In k (dkeys l) -> dget (dupdate d l) k = dget d k.
Proof.
  unfold dupdate. revert d. induction l as [|[k0 v0] l IH]; simpl; intros d Hk.
  - reflexivity.
  - rewrite IH by tauto. apply dget_dset_other. tauto.
Qed.

Lemma set_node_state_status t c id st kwargs :
  ~ In "status" (dkeys kwargs) ->
  node_status (set_node_state t c id st kwargs) id = Some (VStr st).
Proof.
  intros Hk. unfold node_status, set_node_state. simpl.
  rewrite dget_dset_same.
  assert (E : dget (dupdate
                (dupdate (dget_default (node_states c) id [])
                   [("status", VStr st); ("timestamp", VStr (clock_iso t));
                    ("endTime", VFloat (clock_ms t))]) kwargs) "status"
              = Some (VStr st)).
  { rewrite dget_dupdate_other by assumption.
    unfold dupdate. simpl. rewrite !dget_dset. reflexivity. }
  destruct (dmem _ "startTime"); [assumption|].
  rewrite dget_dset_other by discriminate. assumption.
Qed.

Lemma set_node_state_other t c id st kwargs x :
  x <> id ->
  dget (node_states (set_node_state t c id st kwargs)) x = dget (node_states c) x.
Proof.
  intros Hx. unfold set_node_state. simpl. apply dget_dset_other. congruence.
Qed.

Lemma set_node_error_effect t c id msg :
  let c' := set_node_error t c id msg in
  status c' = status c
  /\ execution_order c' = execution_order c
  /\ errors c' = dset (errors c) id msg
  /\ node_status c' id = Some (VStr "error")
  /\ (forall x, x <> id -> dget (node_states c') x = dget (node_states c) x).
Proof.
  unfold set_node_error. repeat split.
  - apply set_node_state_status. simpl. intros [H|[]]. discriminate.
  - intros x Hx. now rewrite set_node_state_other.
Qed.

Lemma set_node_completed_effect t c id result inputs :
  let c' := set_node_state t (set_node_result c id result) id "completed"
              [("output", result); ("input", inputs)] in
  status c' = status c
  /\ execution_order c' = execution_order c
  /\ errors c' = errors c
  /\ node_status c' id = Some (VStr "completed")
  /\ (forall x, x <> id -> dget (node_states c') x = dget (node_states c) x).
Proof.
  repeat split.
  - apply set_node_state_status. simpl. intros [H|[H|[]]]; discriminate.
  - intros x Hx. now rewrite set_node_state_other.
Qed.


Lemma node_run_raise id e t c (s : Run) d k :
  status c = status (context s) ->
  execution_order c = execution_order (context s) ->
  errors c = errors (context s) ->
  (forall x, x <> id -> dget (node_states c) x = dget (node_states (context s)) x) ->
  d = dispatched s \/ d = dispatched s ++ [id] ->
  node_run id (Raise e) s
    {| context := set_node_error t c id (exn_message e); clock := k;
       dispatched := d |}.
Proof.
  intros Hs Ho He Hf Hd.
  destruct (set_node_error_effect t c id (exn_message e)) as (A & B & C & D & E).
  constructor; cbn [context clock dispatched].
  - congruence.
  - intros x Hx. rewrite E by assumption. now apply Hf.
  - congruence.
  - congruence.
  - exact D.
  - exact Hd.
Qed.

Lemma execute_node_run (node : Node) (edges : list Edge) (s : Run) :
  let (r, s') := execute_node node edges s in
  node_run (node_id node) r s s'.
Proof.
  unfold execute_node, try_except, bindM, now, update, get_context, lift,
    record_dispatch, ret, raise.
  cbn [context clock dispatched].
  set (c1 := set_node_state (clock s) (context s) (node_id node) "running" []).
  assert (F1 : forall x, x <> node_id node ->
             dget (node_states c1) x = dget (node_states (context s)) x).
  { intros x Hx. now apply set_node_state_other. }
  assert (S1 : status c1 = status (context s)) by reflexivity.
  assert (O1 : execution_order c1 = execution_order (context s)) by reflexivity.
  assert (E1 : errors c1 = errors (context s)) by reflexivity.
  destruct (_get_node_executor _) as [cls|e]; cbn [context clock dispatched].
  2:{ apply node_run_raise; auto. }
  destruct (value_get (credentials c1) "openai_api_key" VNone) as [k1|e];
    cbn [context clock dispatched].
  2:{ apply node_run_raise; auto. }
  destruct (value_get (credentials c1) "anthropic_api_key" VNone) as [k2|e];
    cbn [context clock dispatched].
  2:{ apply node_run_raise; auto. }
  destruct (value_get (credentials c1) "google_api_key" VNone) as [k3|e];
    cbn [context clock dispatched].
  2:{ apply node_run_raise; auto. }
  destruct (value_get (credentials c1) "groq_api_key" VNone) as [k4|e];
    cbn [context clock dispatched].
  2:{ apply node_run_raise; auto. }
  match goal with |- context [returned ?c] => set (call := c) end.
  set (c2 := with_trigger_data c1
               (dget_default (context_after call) "trigger_data" (trigger_data c1))).
  destruct (returned call) as [v|e]; cbn [context clock dispatched].
  2:{ apply node_run_raise; auto. }
  match goal with
  | |- context [set_node_state ?t (set_node_result c2 ?i ?r) ?i "completed"
                  [("output", ?r); ("input", ?inp)]] =>
      destruct (set_node_completed_effect t c2 i r inp) as (A & B & C & D & E)
  end.
  destruct (dget (context_after call) "chat_response") as [resp|];
    cbn [context clock dispatched].
  - constructor; cbn [context clock dispatched].
    + cbn [status with_chat_response with_execution_order]. rewrite A. exact S1.
    + intros x Hx. cbn [node_states with_chat_response with_execution_order].
      rewrite E by assumption. now apply F1.
    + cbn [execution_order with_chat_response with_execution_order].
      rewrite B. now rewrite <- O1.
    + cbn [errors with_chat_response with_execution_order]. rewrite C. exact E1.
    + exact D.
    + reflexivity.
  - constructor; cbn [context clock dispatched].
    + cbn [status with_execution_order]. rewrite A. exact S1.
    + intros x Hx. cbn [node_states with_execution_order].
      rewrite E by assumption. now apply F1.
    + cbn [execution_order with_execution_order]. rewrite B. now rewrite <- O1.
    + cbn [errors with_execution_order]. rewrite C. exact E1.
    + exact D.
    + reflexivity.
Qed.


End NodeRun.

(** ** The full run *)

Section FullRun.
Context {rt : PyRuntime} {ex : Executors}.
Import WorkflowExecutionEngine.
Variables (nodes : list Node) (edges : list Edge).
Variable progress_callback : option ProgressCallback.

Lemma find_node_id (id : string) (node : Node) :
  find_node nodes id = Ok node -> node_id node = id.
Proof.
  unfold find_node. destruct (find _ nodes) as [n|] eqn:E; [|discriminate].
  intros H. inversion H; subst. apply find_some in E.
  now apply String.eqb_eq.
Qed.


Lemma loop_run_stop (remaining : list string) (e : exn) (s : Run) :
  loop_run remaining (Raise e) s s [] remaining.
Proof.
  constructor; auto.
  - now rewrite app_nil_r.
  - intros a [].
  - discriminate.
  - left. now rewrite app_nil_r.
Qed.

Lemma run_nodes_spec (remaining : list string) :
  forall total idx s, NoDup remaining ->
  let (r, s') := run_nodes nodes edges progress_callback total idx remaining s in
  exists done rest, loop_run remaining r s s' done rest.
Proof.
  induction remaining as [|id remaining IH]; intros total idx s Hnd.
  - simpl. exists [], []. constructor; auto.
    + now rewrite app_nil_r.
    + intros a [].
    + left. now rewrite app_nil_r.
  - inversion Hnd as [|? ? Hfresh Hnd']; subst.
    cbn [run_nodes]. unfold bindM at 1. unfold lift at 1.
    destruct (find_node nodes id) as [node|e] eqn:Hfind.
    2:{ exists [], (id :: remaining). apply loop_run_stop. }
    apply find_node_id in Hfind.
    unfold bindM at 1.
    assert (Hcb : forall ev s0, call_back progress_callback ev s0 = (Ok tt, s0)
                             \/ exists e, call_back progress_callback ev s0 = (Raise e, s0)).
    { intros ev s0. unfold call_back, lift, ret.
      destruct progress_callback as [f|]; [|now left].
      destruct (f ev) as [[]|e]; [now left | right; eauto]. }
    destruct (Hcb (node_start id (percent idx total)) s) as [->|[e ->]].
    2:{ exists [], (id :: remaining). apply loop_run_stop. }
    unfold bindM at 1.
    pose proof (execute_node_run node edges s) as Hrun.
    destruct (execute_node node edges s) as [[v|e] s1]; rewrite Hfind in Hrun.
    2:{ exists [], (id :: remaining).
        destruct Hrun as [Hs Hf Ho He Hst Hd]. constructor; auto.
        - now rewrite app_nil_r.
        - intros a [].
        - intros x Hx. apply Hf. intros ->. apply Hx. now left.
        - discriminate.
        - right. exists id, remaining, e. rewrite !app_nil_r. auto. }
    destruct Hrun as [Hs Hf Ho He Hst Hd].
    unfold bindM at 1. unfold get_context at 1. unfold bindM at 1.
    destruct (Hcb (node_complete id (get_node_result (context s1) id)
                     (percent (S idx) total)) s1) as [->|[e ->]].
    2:{ exists [id], remaining. constructor; auto.
        - intros a [<-|[]]. assumption.
        - intros x Hx. apply Hf. intros ->. apply Hx. now left.
        - discriminate. }
    specialize (IH total (S idx) s1 Hnd').
    destruct (run_nodes nodes edges progress_callback total (S idx) remaining s1)
      as [r s'].
    destruct IH as (done & rest & [Isplit Iorder Istatus Icompleted Iframe Ifin Ifail]).
    exists (id :: done), rest. constructor.
    + simpl. now rewrite Isplit.
    + rewrite Iorder, Ho. now rewrite <- app_assoc.
    + congruence.
    + intros a [<-|Ha]; [|now apply Icompleted].
      unfold node_status. rewrite Iframe by assumption. exact Hst.
    + intros x Hx. rewrite Iframe by (intros H; apply Hx; now right).
      apply Hf. intros ->. apply Hx. now left.
    + exact Ifin.
    + destruct Ifail as [[Ie Id]|(b & rest' & e & Hr & Hres & Ie & Ist & Id)].
      * left. split; [congruence|]. rewrite Id, Hd. now rewrite <- app_assoc.
      * right. exists b, rest', e. repeat split; auto.
        -- congruence.
        -- rewrite Hd in Id. rewrite <- !app_assoc in Id. simpl in Id.
           exact Id.
Qed.

End FullRun.

Section Driver.
Context {rt : PyRuntime} {ex : Executors}.
Import WorkflowExecutionEngine.
Variables (nodes : list Node) (edges : list Edge).
Variables (workflow_id execution_id : string) (trigger_data credentials : value).
Variable progress_callback : option ProgressCallback.


Lemma run_failed_spec (e : exn) (s : Run) :
  let (r, s') := run_failed progress_callback e s in
  escapes progress_callback r
  /\ status (context s') = "error"
  /\ node_states (context s') = node_states (context s)
  /\ execution_order (context s') = execution_order (context s)
  /\ errors (context s') = errors (context s)
  /\ dispatched s' = dispatched s.
Proof.
  unfold run_failed, bindM, now, update, call_back, lift, ret.
  cbn [context clock dispatched].
  destruct progress_callback as [f|] eqn:Hcb.
  - destruct (f (workflow_error (exn_message e))) as [[]|e'] eqn:Hf;
      cbn [context clock dispatched]; repeat split; auto.
    + now left.
    + right. exists f, (exn_message e), e'. auto.
  - cbn [context clock dispatched]. repeat split; auto. now left.
Qed.

Lemma execute_workflow_full :
  let (r, s) := execute_workflow workflow_id execution_id nodes edges
                  trigger_data credentials None progress_callback in
  escapes progress_callback r
  /\ match _topological_sort nodes edges with
     | Raise _ =>
         status (context s) = "error"
         /\ node_states (context s) = []
         /\ execution_order (context s) = []
         /\ errors (context s) = []
         /\ dispatched s = []
     | Ok order => exists done rest, dispatch_report order r s done rest
     end.
Proof.
  unfold execute_workflow, try_except, run_body, partial_run_requested, full_run.
  set (s0 := start_run workflow_id execution_id trigger_data credentials).
  unfold bindM at 1. unfold bindM at 1. unfold lift at 1.
  destruct (_topological_sort nodes edges) as [order|e] eqn:Hsort.
  2:{ pose proof (run_failed_spec e s0) as H.
      destruct (run_failed progress_callback e s0) as [r s].
      destruct H as (A & B & C & D & E & F). repeat split; auto. }
  destruct (topological_sort_sound _ _ _ Hsort) as (Hnd & _ & _).
  pose proof (run_nodes_spec nodes edges progress_callback order
                (List.length order) 0 s0 Hnd) as Hloop.
  destruct (run_nodes nodes edges progress_callback (List.length order) 0 order s0)
    as [[[]|e] s1].
  - destruct Hloop as (done & rest & [Isplit Iorder Istatus Icompleted Iframe Ifin Ifail]).
    specialize (Ifin eq_refl). subst rest.
    destruct Ifail as [[Ie Id]|(b & rest' & e & Hr & _)]; [|discriminate].
    unfold bindM, now, update, get_context.
    cbn [context clock dispatched].
    set (c2 := complete (clock s1) (context s1) "completed").
    unfold call_back at 1.
    destruct progress_callback as [f|] eqn:Hcb.
    + unfold lift. destruct (f (workflow_complete c2)) as [[]|e].
      * split; [now left|]. exists done, []. constructor; auto.
      * pose proof (run_failed_spec e
                      {| context := c2; clock := S (clock s1);
                         dispatched := dispatched s1 |}) as H.
        rewrite Hcb in H.
        destruct (run_failed (Some f) e _) as [r s].
        destruct H as (A & B & C & D & E & F).
        cbn [context clock dispatched] in *.
        split; [assumption|]. exists done, []. constructor; auto.
        -- rewrite D. exact Iorder.
        -- intros a Ha. unfold node_status. rewrite C. now apply Icompleted.
        -- intros H. rewrite B in H. discriminate.
        -- left. split; [rewrite E; exact Ie | rewrite F; exact Id].
    + unfold ret. split; [now left|]. exists done, []. constructor; auto.
  - destruct Hloop as (done & rest & [Isplit Iorder Istatus Icompleted Iframe Ifin Ifail]).
    pose proof (run_failed_spec e s1) as H.
    destruct (run_failed progress_callback e s1) as [r s].
    destruct H as (A & B & C & D & E & F).
    split; [assumption|]. exists done, rest. constructor; auto.
    + rewrite D. exact Iorder.
    + intros a Ha. unfold node_status. rewrite C. now apply Icompleted.
    + intros H. rewrite B in H. discriminate.
    + destruct Ifail as [[Ie Id]|(b & rest' & e' & Hr & _ & Ie & Ist & Id)].
      * left. split; [rewrite E; exact Ie | rewrite F; exact Id].
      * right. exists b, rest', (exn_message e'). repeat split; auto.
        -- rewrite E. exact Ie.
        -- unfold node_status. rewrite C. exact Ist.
        -- rewrite F. exact Id.
Qed.

End Driver.


(** ** The scheduler *)


Lemma before_prefix (done rest : list string) (x y : string) :
  NoDup (done ++ rest) -> before (done ++ rest) x y -> In y done ->
  before done x y.
Proof.
  intros Hnd (l1 & l2 & l3 & E) Hy.
  apply in_split in Hy. destruct Hy as (a & b & ->).
  assert (Ha : a = l1 ++ x :: l2).
  { apply (split_unique y a (l1 ++ x :: l2) (b ++ rest) l3).
    - now rewrite <- app_assoc in Hnd.
    - rewrite <- !app_assoc in *. simpl in *. exact E. }
  subst a. exists l1, l2, b. now rewrite <- app_assoc.
Qed.

Lemma NoDup_app_disjoint (l1 l2 : list string) :
  NoDup (l1 ++ l2) -> forall x, In x l2 -> ~ In x l1.
Proof.
  induction l1 as [|a l1 IH]; simpl; intros Hnd x Hx; [tauto|].
  inversion Hnd as [|? ? Hn Hnd']; subst. intros [->|Hin].
  - apply Hn. apply in_or_app. now right.
  - now apply (IH Hnd' x).
Qed.

Section Scheduler.
Context {rt : PyRuntime} {ex : Executors}.
Import WorkflowExecutionEngine.
Variables (nodes : list Node) (edges : list Edge).
Variables (workflow_id execution_id : string) (trigger_data credentials : value).
Variable progress_callback : option ProgressCallback.

Local Abbreviation outcome :=
  (full_run_outcome workflow_id execution_id nodes edges trigger_data
     credentials progress_callback).


(** C2.  On a graph with a cycle the full run ends with status [error]
    before any node is dispatched: no executor is invoked, and NodeStates
    and ExecutionOrder stay empty. *)
Theorem cycle_fails_before_dispatch :
  has_cycle edges ->
  status (context (snd outcome)) = "error"
  /\ dispatched (snd outcome) = []
  /\ node_states (context (snd outcome)) = []
  /\ execution_order (context (snd outcome)) = [].
Proof.
  intros Hcycle. unfold full_run_outcome.
  destruct (topological_sort_cycle nodes edges Hcycle) as [e Hsort].
  pose proof (execute_workflow_full nodes edges workflow_id execution_id
                trigger_data credentials progress_callback) as H.
  destruct (execute_workflow _ _ _ _ _ _ _ _) as [r s]. cbn [snd].
  destruct H as [_ H]. rewrite Hsort in H. tauto.
Qed.


End Scheduler.

(** *** Examples of runs *)






(** The run of the example completes, in the order A, B, C. *)
Example demo_run_completes :
  let s := snd (@full_run_outcome demo_runtime demo_executors "w" "x" demo_nodes
      demo_edges VNone VNone None) in
  status (context s) = "completed"%string
  /\ execution_order (context s) = ["A"; "B"; "C"]%string.
Proof. vm_compute. split; reflexivity. Qed.


Lemma cyclic_edges_cycle : has_cycle cyclic_edges.
Proof.
  exists "A"%string. apply t_trans with (y := "B"%string); apply t_step.
  - exists (demo_edge "A" "B"). cbv. tauto.
  - exists (demo_edge "B" "A"). cbv. tauto.
Qed.

Lemma cycle_fails_before_dispatch_witness :
  let s := snd (@full_run_outcome demo_runtime demo_executors "w" "x" demo_nodes
      cyclic_edges VNone VNone None) in
  status (context s) = "error"%string
  /\ dispatched s = []
  /\ node_states (context s) = []
  /\ execution_order (context s) = [].
Proof.
  exact (@cycle_fails_before_dispatch demo_runtime demo_executors demo_nodes
           cyclic_edges "w" "x" VNone VNone None cyclic_edges_cycle).
Defined.






(** ** The default trigger payload *)

Section TriggerData.
Context {rt : PyRuntime} {ex : Executors}.
Import WorkflowExecutionEngine.


Variable payload : value.


Lemma keeps_ret {A : Type} (a : A) : keeps payload (ret a).
Proof. intros s H. exact H. Qed.

Lemma keeps_raise {A : Type} (e : exn) : keeps payload (@raise A e).
Proof. intros s H. exact H. Qed.

Lemma keeps_lift {A : Type} (r : result A) : keeps payload (lift r).
Proof. intros s H. exact H. Qed.

Lemma keeps_now : keeps payload now.
Proof. intros s H. exact H. Qed.

Lemma keeps_get_context : keeps payload get_context.
Proof. intros s H. exact H. Qed.

Lemma keeps_record_dispatch id : keeps payload (record_dispatch id).
Proof. intros s H. exact H. Qed.

Lemma keeps_update f :
  (forall c, trigger_data c = payload -> trigger_data (f c) = payload) ->
  keeps payload (update f).
Proof. intros Hf s H. now apply Hf. Qed.

Lemma keeps_bind {A B : Type} (m : M A) (k : A -> M B) :
  keeps payload m -> (forall a, keeps payload (k a)) -> keeps payload (bindM m k).
Proof.
  intros Hm Hk s H. unfold bindM. specialize (Hm s H).
  destruct (m s) as [[a|e] s1]; cbn [snd] in *; [now apply Hk | assumption].
Qed.

Lemma keeps_try {A : Type} (m : M A) (h : exn -> M A) :
  keeps payload m -> (forall e, keeps payload (h e)) -> keeps payload (try_except m h).
Proof.
  intros Hm Hh s H. unfold try_except. specialize (Hm s H).
  destruct (m s) as [[a|e] s1]; cbn [snd] in *; [assumption | now apply Hh].
Qed.

Lemma keeps_bind_context {B : Type} (k : ExecutionContext -> M B) :
  (forall c, trigger_data c = payload -> keeps payload (k c)) ->
  keeps payload (bindM get_context k).
Proof. intros Hk s H. unfold bindM, get_context. now apply Hk. Qed.

Lemma keeps_call_back cb ev : keeps payload (call_back cb ev).
Proof. unfold call_back. destruct cb; [apply keeps_lift | apply keeps_ret]. Qed.

Hypothesis executors_keep_payload : payload_kept.

Lemma keeps_execute_node node edges : keeps payload (execute_node node edges).
Proof.
  unfold execute_node. apply keeps_try.
  - apply keeps_bind; [apply keeps_now | intros t].
    apply keeps_bind; [apply keeps_update; auto | intros _].
    apply keeps_bind_context. intros c Hc. cbv zeta.
    repeat (apply keeps_bind; [apply keeps_lift | intros ?]).
    apply keeps_bind; [apply keeps_record_dispatch | intros _].
    apply keeps_bind.
    { apply keeps_update. intros c0 Hc0. cbn [trigger_data with_trigger_data].
      unfold dget_default. rewrite executors_keep_payload. simpl.
      exact Hc. }
    intros _. apply keeps_bind; [apply keeps_lift | intros v].
    apply keeps_bind; [apply keeps_update; auto | intros _].
    apply keeps_bind; [apply keeps_now | intros t2].
    apply keeps_bind; [apply keeps_update; auto | intros _].
    apply keeps_bind; [apply keeps_update; auto | intros _].
    apply keeps_bind; [|intros _; apply keeps_ret].
    destruct (dget _ "chat_response"); [apply keeps_update; auto | apply keeps_ret].
  - intros e. apply keeps_bind; [apply keeps_now | intros t].
    apply keeps_bind; [apply keeps_update; auto | intros _].
    apply keeps_raise.
Qed.

Lemma keeps_run_nodes nodes edges cb total remaining :
  forall idx, keeps payload (run_nodes nodes edges cb total idx remaining).
Proof.
  induction remaining as [|id remaining IH]; intros idx; cbn [run_nodes].
  - apply keeps_ret.
  - apply keeps_bind; [apply keeps_lift | intros node].
    apply keeps_bind; [apply keeps_call_back | intros _].
    apply keeps_bind; [apply keeps_execute_node | intros _].
    apply keeps_bind; [apply keeps_get_context | intros c].
    apply keeps_bind; [apply keeps_call_back | intros _].
    apply IH.
Qed.

Lemma keeps_run_subgraph_nodes nodes edges cb total remaining :
  forall idx, keeps payload (run_subgraph_nodes nodes edges cb total idx remaining).
Proof.
  induction remaining as [|id remaining IH]; intros idx; cbn [run_subgraph_nodes].
  - apply keeps_ret.
  - apply keeps_bind; [apply keeps_call_back | intros _].
    apply keeps_bind; [apply keeps_lift | intros node].
    apply keeps_bind; [apply keeps_execute_node | intros _].
    apply keeps_bind; [apply keeps_get_context | intros c].
    apply keeps_bind; [apply keeps_call_back | intros _].
    apply IH.
Qed.

Lemma keeps_run_body nodes edges start_node_id cb :
  keeps payload (run_body nodes edges start_node_id cb).
Proof.
  unfold run_body. apply keeps_bind.
  - destruct (partial_run_requested start_node_id) as [id|].
    + unfold _execute_from_node.
      apply keeps_bind; [apply keeps_lift | intros order].
      apply keeps_run_subgraph_nodes.
    + unfold full_run.
      apply keeps_bind; [apply keeps_lift | intros order].
      apply keeps_run_nodes.
  - intros _. apply keeps_bind; [apply keeps_now | intros t].
    apply keeps_bind; [apply keeps_update; auto | intros _].
    apply keeps_bind; [apply keeps_get_context | intros c].
    apply keeps_call_back.
Qed.

Lemma keeps_run_failed cb e : keeps payload (run_failed cb e).
Proof.
  unfold run_failed. apply keeps_bind; [apply keeps_now | intros t].
  apply keeps_bind; [apply keeps_update; auto | intros _].
  apply keeps_call_back.
Qed.

End TriggerData.

(** C10.  A run is started with the supplied trigger payload when that
    payload is truthy, and with the canned greeting when the payload is
    absent or falsy (the empty mapping included); the greeting has
    [message] and [text] "Hello, how can I help you today?" and [user]
    "anonymous".  In either mode of [execute_workflow] the context still
    holds that payload at the end, as long as no executor writes into the
    payload it shares with the run. *)
Theorem trigger_data_defaulting {rt : PyRuntime} {ex : Executors}
  (workflow_id execution_id : string) (nodes : list Node) (edges : list Edge)
  (payload credentials : value) (start_node_id : option string)
  (progress_callback : option ProgressCallback) :
  let stored :=
    if truthy payload then payload
    else VDict [("message", VStr "Hello, how can I help you today?");
                ("text", VStr "Hello, how can I help you today?");
                ("user", VStr "anonymous");
                ("channel", VStr EmptyString);
                ("timestamp", VStr EmptyString)] in
  trigger_data
    (context (WorkflowExecutionEngine.start_run workflow_id execution_id
                payload credentials)) = stored
  /\ (payload_kept ->
      trigger_data
        (context (snd (WorkflowExecutionEngine.execute_workflow workflow_id
                         execution_id nodes edges payload credentials
                         start_node_id progress_callback))) = stored).
Proof.
  cbv zeta. split; [reflexivity|]. intros Hkept.
  unfold WorkflowExecutionEngine.execute_workflow.
  apply keeps_try.
  - now apply keeps_run_body.
  - intros e. apply keeps_run_failed.
  - reflexivity.
Qed.

Lemma demo_executors_keep_payload : @payload_kept demo_executors.
Proof. intros cls node inputs exec_context. reflexivity. Qed.

Lemma trigger_data_defaulting_witness :
  trigger_data
    (context (WorkflowExecutionEngine.start_run "w" "x"
                (VDict []) VNone))
  = WorkflowExecutionEngine.default_trigger_data
  /\ (@payload_kept demo_executors ->
      trigger_data
        (context (snd (@WorkflowExecutionEngine.execute_workflow demo_runtime
                         demo_executors "w" "x" demo_nodes demo_edges
                         (VDict []) VNone None None)))
      = WorkflowExecutionEngine.default_trigger_data).
Proof.
  exact (@trigger_data_defaulting demo_runtime demo_executors "w" "x"
           demo_nodes demo_edges (VDict []) VNone None None).
Defined.

(** A payload that is supplied and not empty is the one stored. *)
Example supplied_payload_stored :
  trigger_data
    (context (snd (@WorkflowExecutionEngine.execute_workflow demo_runtime
                     demo_executors "w" "x" demo_nodes demo_edges
                     (VDict [("message", VStr "hi")]) VNone None None)))
  = VDict [("message", VStr "hi")].
Proof. vm_compute. reflexivity. Qed.


(** ** Inputs of a node *)

Section Inputs.
Import WorkflowExecutionEngine.


Lemma collect_inputs_main (context : ExecutionContext) (node : string)
  (edges : list Edge) :
  forall inputs main_inputs,
  snd (collect_inputs node edges context inputs main_inputs)
  = main_inputs ++ flat_map (main_entry context node) edges.
Proof.
  induction edges as [|edge edges IH]; intros inputs main_inputs; simpl.
  - now rewrite app_nil_r.
  - unfold main_entry at 1, targets_main, payload_of, handle_or_main.
    destruct (String.eqb (target edge) node); simpl; [|apply IH].
    destruct (truthy (get_node_result context (source edge))).
    + destruct (String.eqb _ "main"); rewrite IH; [|reflexivity].
      now rewrite <- app_assoc.
    + destruct (String.eqb _ "main"); apply IH.
Qed.

Lemma flat_map_main_filter (context : ExecutionContext) (node : string)
  (edges : list Edge) :
  flat_map (main_entry context node) edges
  = flat_map (main_entry context node) (filter (targets_main node) edges).
Proof.
  induction edges as [|edge edges IH]; simpl; [reflexivity|].
  destruct (targets_main node edge) eqn:E; simpl.
  - now rewrite IH.
  - unfold main_entry at 1. now rewrite E.
Qed.

Lemma main_entry_carried context node edge p :
  targets_main node edge = true ->
  payload_of context edge = Some p ->
  main_entry context node edge = [(source edge, p)].
Proof.
  intros Ht Hp. unfold main_entry. now rewrite Ht, Hp.
Qed.

Lemma get_node_inputs_main (context : ExecutionContext) (node : string)
  (edges : list Edge) :
  dget (_get_node_inputs node edges context) "main"
  = match flat_map (main_entry context node)
            (filter (targets_main node) edges) with
    | [] => dget (fst (collect_inputs node edges context [] [])) "main"
    | [main_input] => Some (snd main_input)
    | main_inputs => Some (VDict (merge_main main_inputs))
    end.
Proof.
  unfold _get_node_inputs.
  pose proof (collect_inputs_main context node edges [] []) as H.
  rewrite flat_map_main_filter in H. simpl in H.
  destruct (collect_inputs node edges context [] []) as [inputs main_inputs].
  cbn [fst snd] in *. subst main_inputs.
  destruct (flat_map _ _) as [|m1 [|m2 rest]].
  - destruct (dget inputs "main") eqn:E.
    + rewrite dget_dset_other by discriminate. assumption.
    + assumption.
  - rewrite dget_dset_same. rewrite dget_dset_other by discriminate.
    apply dget_dset_same.
  - rewrite dget_dset_same. rewrite dget_dset_other by discriminate.
    apply dget_dset_same.
Qed.

Lemma dget_dupdate {V : Type} (d2 : dict V) :
  forall d1 k, NoDup (dkeys d2) ->
  dget (dupdate d1 d2) k
  = match dget d2 k with Some v => Some v | None => dget d1 k end.
Proof.
  unfold dupdate. induction d2 as [|[k0 v0] d2 IH]; simpl; intros d1 k Hnd.
  - reflexivity.
  - inversion Hnd as [|? ? Hn Hnd']; subst. rewrite IH by assumption.
    destruct (String.eqb_spec k0 k) as [->|Hne].
    + assert (E : dget d2 k = None) by now apply dget_None_iff.
      rewrite E. apply dget_dset_same.
    + destruct (dget d2 k); [reflexivity|]. now apply dget_dset_other.
Qed.

(** C7.  When exactly two edges end at the [main] handle of a node and
    carry, in the order of the edge list, the mappings [{a:1}] and
    [{a:2, b:3}], the aggregated inputs have [main] equal to
    [{a:2, b:3}]; whatever two mappings they carry, a key of [main] has
    the value of the later edge when that edge has the key, and of the
    earlier edge otherwise.  When exactly one edge ends at [main], its
    payload is [main] as it is. *)
Theorem main_input_aggregation (context : ExecutionContext) (node : string)
  (edges : list Edge) :
  (forall e1 e2,
     filter (targets_main node) edges = [e1; e2] ->
     payload_of context e1 = Some (VDict [("a", VInt 1)]) ->
     payload_of context e2 = Some (VDict [("a", VInt 2); ("b", VInt 3)]) ->
     dget (_get_node_inputs node edges context) "main"
     = Some (VDict [("a", VInt 2); ("b", VInt 3)]))
  /\ (forall e1 e2 d1 d2,
     filter (targets_main node) edges = [e1; e2] ->
     payload_of context e1 = Some (VDict d1) ->
     payload_of context e2 = Some (VDict d2) ->
     NoDup (dkeys d1) -> NoDup (dkeys d2) ->
     exists merged,
       dget (_get_node_inputs node edges context) "main" = Some (VDict merged)
       /\ forall k, dget merged k
                    = match dget d2 k with Some v => Some v | None => dget d1 k end)
  /\ (forall e p,
     filter (targets_main node) edges = [e] ->
     payload_of context e = Some p ->
     dget (_get_node_inputs node edges context) "main" = Some p).
Proof.
  assert (Hin : forall e l, filter (targets_main node) edges = l -> In e l ->
                  targets_main node e = true).
  { intros e l <- H. apply filter_In in H. tauto. }
  repeat split.
  - intros e1 e2 Hf H1 H2. rewrite get_node_inputs_main, Hf. simpl.
    rewrite (main_entry_carried context node e1 _ (Hin e1 _ Hf (or_introl eq_refl)) H1).
    rewrite (main_entry_carried context node e2 _
               (Hin e2 _ Hf (or_intror (or_introl eq_refl))) H2).
    reflexivity.
  - intros e1 e2 d1 d2 Hf H1 H2 Hn1 Hn2. rewrite get_node_inputs_main, Hf. simpl.
    rewrite (main_entry_carried context node e1 _ (Hin e1 _ Hf (or_introl eq_refl)) H1).
    rewrite (main_entry_carried context node e2 _
               (Hin e2 _ Hf (or_intror (or_introl eq_refl))) H2).
    simpl. exists (dupdate (dupdate [] d1) d2). split; [reflexivity|].
    intros k. rewrite !dget_dupdate by assumption. simpl.
    destruct (dget d2 k); [reflexivity|]. now destruct (dget d1 k).
  - intros e p Hf Hp. rewrite get_node_inputs_main, Hf. simpl.
    rewrite (main_entry_carried context node e _ (Hin e _ Hf (or_introl eq_refl)) Hp).
    reflexivity.
Qed.

End Inputs.

(** ** The expression evaluator *)

Section Evaluator.
Context {rt : PyRuntime}.
Import ExpressionEvaluator.

Lemma prefix_app (a b s : string) :
  String.prefix (a ++ b)%string s = true -> String.prefix a s = true.
Proof.
  revert s. induction a as [|c a IH]; intros s; simpl.
  - now destruct s.
  - destruct s as [|c' s]; [discriminate|]. simpl.
    destruct (ascii_dec c c'); [apply IH | discriminate].
Qed.

(** The test for a reference to a node's output comes after the test for
    the prefix [$json], which it implies: the branch is never taken. *)
Lemma node_reference_branch_dead (expr : string) :
  startswith expr "$json" || startswith expr "json" = false ->
  startswith expr "$json." && has_char (drop 6 expr) "." = false.
Proof.
  intros H. apply orb_false_iff in H. destruct H as [H _].
  destruct (startswith expr "$json.") eqn:E; [|reflexivity].
  unfold startswith in *.
  rewrite (prefix_app "$json" "." expr E) in H. discriminate.
Qed.

Variable self : ExpressionEvaluator.t.

Lemma evaluate_expression_cases (depth : nat) (expr : string) :
  _evaluate_expression self (S depth) expr
  = let expr := strip expr in
    if startswith expr "$json" || startswith expr "json"
    then Ok (_evaluate_json_path self expr)
    else if startswith expr "$vars" then Ok (_evaluate_vars_path self expr)
    else evaluate_other self (_evaluate_expression self depth) expr.
Proof.
  cbn [_evaluate_expression]. cbv zeta.
  destruct (startswith (strip expr) "$json" || startswith (strip expr) "json")
    eqn:E; [reflexivity|].
  destruct (startswith (strip expr) "$vars"); [reflexivity|].
  now rewrite (node_reference_branch_dead _ E).
Qed.

(** With room for one call, [_evaluate_expression] returns. *)
Lemma evaluate_expression_returns (depth : nat) (expr : string) :
  exists v, _evaluate_expression self (S depth) expr = Ok v.
Proof.
  rewrite evaluate_expression_cases. cbv zeta.
  destruct (_ || _); [eauto|].
  destruct (startswith _ "$vars"); [eauto|].
  unfold evaluate_other. destruct (existsb _ _); eauto.
Qed.

Lemma operands_evaluate (depth : nat) (parts : list string) :
  exists values,
    mapM (fun p => _evaluate_expression self (S depth) (strip p)) parts = Ok values.
Proof.
  induction parts as [|p parts [values IH]]; cbn [mapM]; [eauto|].
  destruct (evaluate_expression_returns depth (strip p)) as [v Hv].
  rewrite Hv. cbn [bind]. rewrite IH. cbn [bind]. eauto.
Qed.



(** The integers and floats that are zero, and [False], are zero-valued. *)
Lemma zero_numbers_zero_valued :
  zero_valued (VInt 0) = true
  /\ zero_valued (VBool false) = true
  /\ forall f, PrimFloat.eqb f PrimFloat.zero = true -> zero_valued (VFloat f) = true.
Proof. repeat split. intros f H. exact H. Qed.

(** An expression that begins with [$json] is looked up in the input of
    the current node, whatever follows the prefix. *)
Lemma dollar_json_reads_current_input (depth : nat) (expr : string) :
  startswith (strip expr) "$json" = true ->
  _evaluate_expression self (S depth) expr
  = Ok (_evaluate_json_path self (strip expr)).
Proof.
  intros H. rewrite evaluate_expression_cases. cbv zeta. now rewrite H.
Qed.

End Evaluator.

(** *** Examples for the evaluator *)


(** C5, amended.  Against a context whose [json] is
    [{user: {name: "Ada"}}], the string ["${{ json.user.name }}"]
    evaluates to ["Ada"], and ["${{ json.missing }}"] evaluates, without
    raising, to the four-character string ["None"], the text of the
    absent value. *)
Theorem json_path_template {rt : PyRuntime} (context : dict value)
  (depth : nat) :
  dget context "json" = Some ada_json ->
  evaluate_expression (S depth) (VStr "${{ json.user.name }}") context
  = Ok (VStr "Ada")
  /\ evaluate_expression (S depth) (VStr "${{ json.missing }}") context
     = Ok (VStr "None").
Proof.
  intros H.
  unfold evaluate_expression, ExpressionEvaluator.evaluate,
    ExpressionEvaluator.__init__, dget_default.
  rewrite H. split; reflexivity.
Qed.

Lemma json_path_template_witness :
  @evaluate_expression demo_runtime 1 (VStr "${{ json.user.name }}")
    [("json", ada_json)]%string = Ok (VStr "Ada")
  /\ @evaluate_expression demo_runtime 1 (VStr "${{ json.missing }}")
       [("json", ada_json)]%string = Ok (VStr "None").
Proof.
  exact (@json_path_template demo_runtime [("json", ada_json)]%string 0 eq_refl).
Defined.


(** C5 as stated fails: the result for the missing key is a string that is
    neither empty nor the none value. *)
Lemma missing_key_not_empty :
  exists v,
    @evaluate_expression demo_runtime 1 (VStr "${{ json.missing }}")
      [("json", ada_json)]%string = Ok v
    /\ ~ empty_or_none v /\ truthy v = true.
Proof.
  exists (VStr "None"). split; [reflexivity|]. split; [|reflexivity].
  intros [H|[H|[H|H]]]; discriminate.
Qed.


(** C4.  The evaluator does not resolve a reference to the output of a
    node: the expression [$json.n1.x] is read as the path [n1.x] of the
    current input and yields the text of the absent value, although the
    node [n1] has a recorded result whose [main] holds [x]; the lookup in
    the recorded results, [_get_node_output], gives ["v"]. *)
Theorem node_reference_not_resolved {rt : PyRuntime} (depth : nat) :
  evaluate_expression (S depth) (VStr "${{ $json.n1.x }}") recorded_context
  = Ok (VStr "None")
  /\ ExpressionEvaluator._get_node_output
       (ExpressionEvaluator.__init__ recorded_context) "n1" (Some "x"%string)
     = Ok (VStr "v").
Proof. split; reflexivity. Qed.



(** Through [evaluate], the block is replaced by the text of that 0. *)
Example division_template :
  @ExpressionEvaluator.evaluate demo_runtime ratio_evaluator 2
    (VStr "${{ total / count }}") = Ok (VStr "0").
Proof. vm_compute. reflexivity. Qed.

(** ** Node executors *)


(** C6, amended.  The readme viewer, given the empty mapping as input,
    returns as content the JSON text [{}] of that input, whatever content
    is configured; given the input [{text: "hi"}] it returns the content
    ["hi"], whatever content is configured. *)
Theorem readme_viewer_content {rt : PyRuntime} (self : NodeExecutor) (now : nat)
  (inputs context : dict value) :
  (dget_default inputs "main" (VDict []) = VDict [] ->
   output_field (OutputNodeExecutor._execute_readme_viewer self now inputs context)
     "content" = Some (VStr "{}"))
  /\ (dget_default inputs "main" (VDict []) = VDict [("text", VStr "hi")] ->
      output_field (OutputNodeExecutor._execute_readme_viewer self now inputs context)
        "content" = Some (VStr "hi")).
Proof.
  split; intros H; unfold OutputNodeExecutor._execute_readme_viewer;
    rewrite H; reflexivity.
Qed.


Lemma readme_viewer_content_witness :
  output_field
    (@OutputNodeExecutor._execute_readme_viewer demo_runtime
       (viewer EmptyString) 0 [("main", VDict [])]%string []) "content"
  = Some (VStr "{}")
  /\ output_field
       (@OutputNodeExecutor._execute_readme_viewer demo_runtime
          (viewer "configured") 0
          [("main", VDict [("text", VStr "hi")])]%string []) "content"
     = Some (VStr "hi").
Proof.
  split.
  - apply (proj1 (@readme_viewer_content demo_runtime (viewer EmptyString) 0
                    [("main", VDict [])]%string [])).
    reflexivity.
  - apply (proj2 (@readme_viewer_content demo_runtime (viewer "configured") 0
                    [("main", VDict [("text", VStr "hi")])]%string [])).
    reflexivity.
Defined.

(** C6 as stated fails: with the empty mapping as input (under [main], or
    with no [main] at all) and the configured content the empty string,
    the content is not ["work"]. *)
Lemma readme_viewer_empty_input_not_work :
  output_field
    (@OutputNodeExecutor._execute_readme_viewer demo_runtime
       (viewer EmptyString) 0 [("main", VDict [])]%string []) "content"
  <> Some (VStr "work")
  /\ output_field
       (@OutputNodeExecutor._execute_readme_viewer demo_runtime
          (viewer EmptyString) 0 [] []) "content"
     <> Some (VStr "work").
Proof. vm_compute. split; discriminate. Qed.

(** The literal ["work"] is what a blank input that is not a mapping and a
    blank configured content leave. *)
Example readme_viewer_blank_input :
  output_field
    (@OutputNodeExecutor._execute_readme_viewer demo_runtime
       (viewer EmptyString) 0 [("main", VStr EmptyString)]%string []) "content"
  = Some (VStr "work").
Proof. vm_compute. reflexivity. Qed.

Section Filter.
Context {rt : PyRuntime} {base : BaseNodeExecutor}.
Import DataNodeExecutor.





End Filter.



(** At the level of the node: a comparison with a value that is not
    numeric filters the item out. *)
Example filter_not_numeric :
  @DataNodeExecutor._execute_filter demo_runtime demo_base
    {| node_id := "f"; node_type := "filter";
       properties := [("field", VStr "age"); ("operator", VStr "greaterThan");
                      ("value", VInt 18)]%string |}
    [("main", VDict [("age", VStr "unknown")])]%string []
  = Ok (VDict [("main", VNone)]).
Proof. vm_compute. reflexivity. Qed.

(** *** Examples for the inputs *)


Lemma main_input_aggregation_witness :
  dget (WorkflowExecutionEngine._get_node_inputs "X" merge_edges merge_context)
    "main" = Some (VDict [("a", VInt 2); ("b", VInt 3)])
  /\ (exists merged,
        dget (WorkflowExecutionEngine._get_node_inputs "X" merge_edges
                merge_context) "main" = Some (VDict merged)
        /\ forall k,
             dget merged k
             = match dget [("a", VInt 2); ("b", VInt 3)]%string k with
               | Some v => Some v
               | None => dget [("a", VInt 1)]%string k
               end)
  /\ dget (WorkflowExecutionEngine._get_node_inputs "X"
             [demo_edge "left" "X"; demo_edge "X" "Y"] merge_context) "main"
     = Some (VDict [("a", VInt 1)]).
Proof.
  assert (Hkeys1 : NoDup (dkeys [("a", VInt 1)]%string)).
  { repeat constructor. simpl. tauto. }
  assert (Hkeys2 : NoDup (dkeys [("a", VInt 2); ("b", VInt 3)]%string)).
  { repeat constructor; simpl; intuition discriminate. }
  split; [|split].
  - apply (proj1 (main_input_aggregation merge_context "X" merge_edges)
             (demo_edge "left" "X") (demo_edge "right" "X"));
      reflexivity.
  - apply (proj1 (proj2 (main_input_aggregation merge_context "X" merge_edges))
             (demo_edge "left" "X") (demo_edge "right" "X")
             [("a", VInt 1)]%string [("a", VInt 2); ("b", VInt 3)]%string);
      try reflexivity; assumption.
  - apply (proj2 (proj2 (main_input_aggregation merge_context "X"
                           [demo_edge "left" "X"; demo_edge "X" "Y"]))
             (demo_edge "left" "X") (VDict [("a", VInt 1)]));
      reflexivity.
Defined.

(** ** The search of a partial run *)

Section Search.
Import WorkflowExecutionEngine.
Variables (near far : Edge -> string).

Lemma visit_spec (current : string) (edges : list Edge) :
  forall found queue,
  exists added,
    visit near far current edges found queue = (found ++ added, queue ++ added)
    /\ incl added (map far edges)
    /\ (NoDup found -> NoDup (found ++ added)).
Proof.
  induction edges as [|e edges IH]; intros found queue; simpl.
  - exists []. rewrite !app_nil_r. repeat split; auto. intros x [].
  - destruct (String.eqb (near e) current && negb (mem (far e) found)) eqn:E.
    + destruct (IH (found ++ [far e]) (queue ++ [far e])) as (added & Hv & Hin & Hnd).
      exists (far e :: added). rewrite Hv, <- !app_assoc. simpl.
      repeat split; auto.
      * intros x [<-|Hx]; [now left | right; now apply Hin].
      * intros Hf. change (found ++ far e :: added)
          with (found ++ [far e] ++ added). rewrite app_assoc. apply Hnd.
        apply andb_true_iff in E. destruct E as [_ E].
        apply negb_true_iff, mem_false in E.
        apply NoDup_app; [assumption | repeat constructor; auto |].
        intros x Hx [<-|[]]. contradiction.
    + destruct (IH found queue) as (added & Hv & Hin & Hnd).
      exists added. repeat split; auto.
      intros x Hx. right. now apply Hin.
Qed.

(** The bound on the passes of the search is never reached. *)
Lemma search_bounded (edges : list Edge) :
  forall fuel found queue,
  NoDup found -> incl found (map far edges) ->
  (List.length queue + (List.length edges - List.length found) < fuel)%nat ->
  search fuel near far edges found queue <> None.
Proof.
  induction fuel as [|fuel IH]; intros found queue Hnd Hin Hfuel; [lia|].
  destruct queue as [|current queue]; simpl; [discriminate|].
  destruct (visit_spec current edges found queue) as (added & -> & Ha & Hnd').
  specialize (Hnd' Hnd).
  assert (Hin' : incl (found ++ added) (map far edges)).
  { intros x Hx. apply in_app_or in Hx. destruct Hx; auto. }
  apply IH; auto.
  pose proof (NoDup_incl_length Hnd' Hin') as Hlen.
  rewrite length_map in Hlen. rewrite !length_app in *. simpl in Hfuel. lia.
Qed.

Lemma search_total (start : string) (edges : list Edge) :
  search (2 + List.length edges) near far edges [] [start] <> None.
Proof.
  apply search_bounded.
  - constructor.
  - intros x [].
  - simpl. lia.
Qed.

End Search.

(* ===================================================================== *)
(** * Further properties *)
(* ===================================================================== *)

(** ** More on [_topological_sort] *)

Lemma build_app (es1 es2 : list Edge) :
  forall in_degree adjacency,
  TopologicalSort.build (es1 ++ es2) in_degree adjacency
  = bind (TopologicalSort.build es1 in_degree adjacency)
      (fun built => TopologicalSort.build es2 (fst built) (snd built)).
Proof.
  induction es1 as [|e es1 IH]; intros ind adj; simpl; [reflexivity|].
  destruct (dget adj (source e)); [|reflexivity].
  destruct (dget ind (target e)); [|reflexivity].
  apply IH.
Qed.

Lemma node_keys {V : Type} (v : V) (nodes : list Node) (k : string) :
  In k (dkeys (TopologicalSort.dict_from_nodes nodes v)) <-> In k (node_ids nodes).
Proof. destruct (dict_from_nodes_spec v nodes) as (_ & H & _). apply H. Qed.

(** X1.  When the edge list holds an edge one of whose ends is not the id
    of a node, and every edge before it joins two nodes, the sort raises
    [KeyError] for the unknown end of that edge: for its source when that
    is unknown, for its target otherwise. *)
Theorem unknown_endpoint_key_error (nodes : list Node)
  (pre post : list Edge) (edge : Edge) :
  forallb (edge_known nodes) pre = true ->
  edge_known nodes edge = false ->
  _topological_sort nodes (pre ++ edge :: post)
  = Raise (KeyError (if mem (source edge) (node_ids nodes)
                     then target edge else source edge)).
Proof.
  intros Hpre Hedge. unfold _topological_sort.
  set (ind0 := TopologicalSort.dict_from_nodes nodes 0).
  set (adj0 := TopologicalSort.dict_from_nodes nodes (@nil string)).
  assert (Hkeys : dkeys adj0 = dkeys ind0) by apply dict_from_nodes_keys.
  assert (Hclosed : forall e, In e pre ->
            In (source e) (dkeys ind0) /\ In (target e) (dkeys ind0)).
  { intros e He. rewrite forallb_forall in Hpre. specialize (Hpre e He).
    unfold edge_known in Hpre. apply andb_true_iff in Hpre.
    destruct Hpre as [A B]. apply mem_In in A, B.
    split; now apply node_keys. }
  destruct (build_ok pre ind0 adj0 _ eq_refl Hkeys Hclosed) as [[ind adj] Hb].
  destruct (build_spec pre ind0 adj0 ind adj _ eq_refl Hkeys Hb)
    as (Ki & Ka & _).
  rewrite build_app, Hb. cbn [bind fst snd TopologicalSort.build].
  unfold edge_known in Hedge.
  destruct (mem (source edge) (node_ids nodes)) eqn:Hs.
  - apply mem_In in Hs. apply (node_keys 0) in Hs. fold ind0 in Hs.
    rewrite <- Ka in Hs. apply in_keys_dget in Hs. destruct Hs as [l ->].
    simpl in Hedge. apply mem_false in Hedge.
    assert (Hn : dget ind (target edge) = None).
    { apply dget_None_iff. rewrite Ki. intros H. apply Hedge.
      now apply (node_keys 0). }
    now rewrite Hn.
  - apply mem_false in Hs.
    assert (Hn : dget adj (source edge) = None).
    { apply dget_None_iff. rewrite Ka. intros H. apply Hs.
      now apply (node_keys 0). }
    now rewrite Hn.
Qed.

Lemma unknown_endpoint_key_error_witness :
  _topological_sort demo_nodes [demo_edge "A" "B"; demo_edge "B" "Z"; demo_edge "Y" "C"]
  = Raise (KeyError "Z").
Proof.
  exact (unknown_endpoint_key_error demo_nodes [demo_edge "A" "B"]
           [demo_edge "Y" "C"] (demo_edge "B" "Z") eq_refl eq_refl).
Defined.

(** X2.  When two nodes of the node list have the same id and every edge
    joins two nodes, the sort raises the error for cycles, whatever the
    edges are. *)
Theorem duplicate_id_rejected (pre mid post : list Node) (n1 n2 : Node)
  (edges : list Edge) :
  edges_closed (pre ++ n1 :: mid ++ n2 :: post) edges ->
  node_id n1 = node_id n2 ->
  _topological_sort (pre ++ n1 :: mid ++ n2 :: post) edges = Raise cycle_error.
Proof.
  intros Hclosed Hid.
  destruct (topological_sort_closed _ edges Hclosed) as (final & [Hnd Hin _ _] & ->).
  destruct (Nat.eqb_spec (List.length final)
              (List.length (pre ++ n1 :: mid ++ n2 :: post))) as [E|_];
    [exfalso | reflexivity].
  assert (Hids : NoDup (node_ids (pre ++ n1 :: mid ++ n2 :: post))).
  { apply (NoDup_incl_NoDup Hnd).
    - unfold node_ids. rewrite length_map. lia.
    - exact Hin. }
  unfold node_ids in Hids. rewrite map_app in Hids. simpl in Hids.
  apply NoDup_remove_2 in Hids. apply Hids.
  apply in_or_app. right. rewrite map_app. apply in_or_app. right.
  left. now symmetry.
Qed.

Lemma duplicate_id_rejected_witness :
  _topological_sort [demo_node "A" "webhook"; demo_node "B" "filter";
                     demo_node "A" "code"] [demo_edge "A" "B"]
  = Raise cycle_error.
Proof.
  apply (duplicate_id_rejected [] [demo_node "B" "filter"] []
           (demo_node "A" "webhook") (demo_node "A" "code")).
  - intros e [<-|[]]. simpl. auto.
  - reflexivity.
Defined.

Lemma relax_queue (nbrs : list string) :
  forall in_degree queue in_degree' queue',
  TopologicalSort.relax nbrs in_degree queue = Ok (in_degree', queue') ->
  exists added, queue' = queue ++ added.
Proof.
  induction nbrs as [|n nbrs IH]; simpl; intros ind q ind' q' H.
  - inversion H. exists []. now rewrite app_nil_r.
  - destruct (dget ind n) as [d|]; [|discriminate].
    apply IH in H. destruct H as [added ->].
    destruct (d - 1 =? 0).
    + exists (n :: added). now rewrite <- app_assoc.
    + now exists added.
Qed.

(** The loop appends to the order the nodes that wait in the queue, in
    the order of the queue, before any other. *)
Lemma drain_prefix (adjacency : dict (list string)) :
  forall fuel in_degree queue order final,
  TopologicalSort.drain fuel adjacency in_degree queue order = Some (Ok final) ->
  exists rest, final = order ++ queue ++ rest.
Proof.
  induction fuel as [|fuel IH]; intros ind queue order final H; [discriminate|].
  simpl in H. destruct queue as [|current queue].
  - inversion H. exists []. now rewrite !app_nil_r.
  - destruct (dget adjacency current) as [nbrs|]; [|discriminate].
    destruct (TopologicalSort.relax nbrs ind queue) as [[ind' queue']|e] eqn:Hr;
      [|discriminate].
    apply relax_queue in Hr. destruct Hr as [added ->].
    apply IH in H. destruct H as [rest ->].
    exists (added ++ rest). rewrite <- !app_assoc. reflexivity.
Qed.

Lemma roots_spec (f : string -> nat) (d : dict Z) :
  (forall k v, In (k, v) d -> v = Z.of_nat (f k)) ->
  TopologicalSort.roots d = filter (fun k => (f k =? 0)%nat) (dkeys d).
Proof.
  unfold TopologicalSort.roots, dkeys.
  induction d as [|[k v] d IH]; simpl; intros H; [reflexivity|].
  rewrite (H k v) by now left.
  assert (E : (Z.of_nat (f k) =? 0) = (f k =? 0)%nat).
  { destruct (Nat.eqb_spec (f k) 0) as [->|Hne]; [reflexivity|].
    apply Z.eqb_neq. lia. }
  rewrite E. destruct (f k =? 0)%nat; simpl; rewrite IH; auto.
Qed.

(** X3.  An order the sort returns begins with the nodes that no edge
    enters, in the order of the node list. *)
Theorem initial_nodes_lead (nodes : list Node) (edges : list Edge)
  (order : list string) :
  _topological_sort nodes edges = Ok order ->
  exists rest,
    order = filter (fun id => (in_degree_of edges id =? 0)%nat) (node_ids nodes)
              ++ rest.
Proof.
  intros Hsort.
  destruct (topological_sort_Ok _ _ _ Hsort) as (Hclosed & [Hnd Hin _ _] & Hlen).
  assert (Hids : NoDup (node_ids nodes)).
  { apply (NoDup_incl_NoDup Hnd); [|exact Hin].
    unfold node_ids. rewrite length_map. lia. }
  unfold _topological_sort in Hsort.
  set (ind0 := TopologicalSort.dict_from_nodes nodes 0) in *.
  set (adj0 := TopologicalSort.dict_from_nodes nodes (@nil string)) in *.
  destruct (dict_from_nodes_spec 0 nodes) as (Knd & _ & Kget & _ & Kids).
  fold ind0 in Knd, Kget, Kids. specialize (Kids Hids).
  assert (Hkeys : dkeys adj0 = dkeys ind0) by apply dict_from_nodes_keys.
  destruct (TopologicalSort.build edges ind0 adj0) as [[ind adj]|e] eqn:Hb;
    [|discriminate].
  cbn [bind] in Hsort.
  destruct (build_spec edges ind0 adj0 ind adj _ eq_refl Hkeys Hb)
    as (Ki & _ & _ & Hdeg & _).
  destruct (TopologicalSort.drain _ adj ind (TopologicalSort.roots ind) [])
    as [[final|e]|] eqn:Hd; try discriminate.
  cbn [bind] in Hsort.
  destruct (negb (List.length final =? List.length nodes)%nat); [discriminate|].
  inversion Hsort; subst final.
  apply drain_prefix in Hd. destruct Hd as [rest Hd]. simpl in Hd.
  exists rest. rewrite Hd. f_equal.
  rewrite (roots_spec (in_degree_of edges)).
  - rewrite Ki, Kids. reflexivity.
  - intros k v Hkv. apply In_pair_dget in Hkv; [|now rewrite Ki].
    assert (Hk : In k (dkeys ind0)).
    { rewrite <- Ki. now apply dget_Some_in in Hkv. }
    rewrite (Hdeg k 0) in Hkv by now apply Kget.
    inversion Hkv. reflexivity.
Qed.

Lemma initial_nodes_lead_witness :
  let nodes := [demo_node "C" "filter"; demo_node "A" "webhook";
                demo_node "B" "filter"] in
  _topological_sort nodes [demo_edge "A" "B"] = Ok ["C"; "A"; "B"]%string
  /\ exists rest,
       ["C"; "A"; "B"]%string
       = filter (fun id => (in_degree_of [demo_edge "A" "B"] id =? 0)%nat)
           (node_ids nodes) ++ rest.
Proof.
  split; [reflexivity|].
  exact (initial_nodes_lead
           [demo_node "C" "filter"; demo_node "A" "webhook"; demo_node "B" "filter"]
           [demo_edge "A" "B"] ["C"; "A"; "B"]%string eq_refl).
Defined.

(** ** [_build_execution_graph] *)

Lemma sources_of_app es1 es2 k :
  sources_of (es1 ++ es2) k = sources_of es1 k ++ sources_of es2 k.
Proof. unfold sources_of. now rewrite filter_app, map_app. Qed.

Lemma fill_graph_spec (es : list Edge) :
  forall graph,
  match WorkflowExecutionEngine.fill_graph es graph with
  | Ok graph' =>
      dkeys graph' = dkeys graph
      /\ (forall e, In e es -> In (target e) (dkeys graph))
      /\ (forall k l, dget graph k = Some l ->
            dget graph' k = Some (l ++ sources_of es k))
  | Raise ex =>
      exists pre e post,
        es = pre ++ e :: post
        /\ (forall e', In e' pre -> In (target e') (dkeys graph))
        /\ ~ In (target e) (dkeys graph)
        /\ ex = KeyError (target e)
  end.
Proof.
  induction es as [|e es IH]; intros graph; simpl.
  - repeat split; [intros e [] |].
    intros k l H. now rewrite app_nil_r.
  - destruct (dget graph (target e)) as [l0|] eqn:Ht.
    + assert (Hin : In (target e) (dkeys graph)) by (eapply dget_Some_in; eauto).
      specialize (IH (dset graph (target e) (l0 ++ [source e]))).
      rewrite dkeys_dset_present in IH by assumption.
      destruct (WorkflowExecutionEngine.fill_graph es _) as [graph'|ex].
      * destruct IH as (K & C & G). repeat split; auto.
        -- intros e' [<-|He']; auto.
        -- intros k l Hk.
           change (e :: es) with ([e] ++ es). rewrite sources_of_app.
           unfold sources_of at 1. simpl.
           destruct (String.eqb_spec (target e) k) as [Et|Hne].
           ++ subst k. rewrite Ht in Hk. inversion Hk; subst l0.
              rewrite (G (target e) (l ++ [source e])) by apply dget_dset_same.
              simpl. now rewrite <- app_assoc.
           ++ simpl. apply G. now rewrite dget_dset_other.
      * destruct IH as (pre & e1 & post & -> & P & N & ->).
        exists (e :: pre), e1, post. repeat split; auto.
        intros e' [<-|He']; auto.
    + exists [], e, es. repeat split; auto.
      * intros e' [].
      * now apply dget_None_iff.
Qed.

(** X4.  [_build_execution_graph] returns, for every node, the sources of
    the edges that enter it, in the order of the edge list; it asks of an
    edge only that its target is a node, and raises [KeyError] for the
    target of the first edge that fails this. *)
Theorem execution_graph_lists_sources (nodes : list Node) (edges : list Edge) :
  match WorkflowExecutionEngine._build_execution_graph nodes edges with
  | Ok graph =>
      (forall e, In e edges -> In (target e) (node_ids nodes))
      /\ (forall k, In k (dkeys graph) <-> In k (node_ids nodes))
      /\ (forall k, In k (node_ids nodes) -> dget graph k = Some (sources_of edges k))
  | Raise ex =>
      exists pre e post,
        edges = pre ++ e :: post
        /\ (forall e', In e' pre -> In (target e') (node_ids nodes))
        /\ ~ In (target e) (node_ids nodes)
        /\ ex = KeyError (target e)
  end.
Proof.
  unfold WorkflowExecutionEngine._build_execution_graph.
  pose proof (fill_graph_spec edges (TopologicalSort.dict_from_nodes nodes [])) as H.
  destruct (dict_from_nodes_spec (@nil string) nodes) as (_ & _ & Kget & _).
  destruct (WorkflowExecutionEngine.fill_graph edges _) as [graph|ex].
  - destruct H as (K & C & G). repeat split.
    + intros e He. apply (node_keys (@nil string)). auto.
    + rewrite K. apply node_keys.
    + rewrite K. apply node_keys.
    + intros k Hk. apply (node_keys (@nil string)) in Hk.
      rewrite (G k []); [reflexivity | now apply Kget].
  - destruct H as (pre & e & post & E & P & N & X).
    exists pre, e, post. repeat split; auto.
    + intros e' He'. apply (node_keys (@nil string)). auto.
    + intros Hin. apply N. now apply node_keys.
Qed.

(** ** The searches of a partial run *)

Section Reach.
Import WorkflowExecutionEngine.
Variables (near far : Edge -> string).
Variable edges : list Edge.

Local Abbreviation reached := (clos_trans string (hop near far edges)).

(** One pass adds far ends of edges that leave [current], and with them
    [found] has the far end of every such edge. *)
Lemma visit_hops (current : string) (es : list Edge) :
  forall found queue,
  exists added,
    visit near far current es found queue = (found ++ added, queue ++ added)
    /\ (forall x, In x added -> exists e, In e es /\ near e = current /\ far e = x)
    /\ (forall e, In e es -> near e = current -> In (far e) (found ++ added)).
Proof.
  induction es as [|e es IH]; intros found queue; simpl.
  - exists []. rewrite !app_nil_r. repeat split; [intros x [] | intros e []].
  - destruct (String.eqb (near e) current && negb (mem (far e) found)) eqn:E.
    + destruct (IH (found ++ [far e]) (queue ++ [far e])) as (added & Hv & Ha & Hc).
      exists (far e :: added). rewrite Hv, <- !app_assoc. simpl.
      apply andb_true_iff in E. destruct E as [En _]. apply String.eqb_eq in En.
      repeat split.
      * intros x [<-|Hx]; [exists e; auto|].
        destruct (Ha x Hx) as (e' & He' & A & B). exists e'. auto.
      * intros e' [<-|He'] Hn.
        -- apply in_or_app. right. now left.
        -- specialize (Hc e' He' Hn). rewrite <- app_assoc in Hc. exact Hc.
    + destruct (IH found queue) as (added & Hv & Ha & Hc).
      exists added. repeat split; auto.
      * intros x Hx. destruct (Ha x Hx) as (e' & He' & A & B). exists e'. auto.
      * intros e' [<-|He'] Hn; [|now apply Hc].
        apply andb_false_iff in E. destruct E as [E|E].
        -- apply String.eqb_neq in E. contradiction.
        -- apply negb_false_iff, mem_In in E. apply in_or_app. now left.
Qed.

Lemma search_spec (start : string) :
  forall fuel found queue result,
  search fuel near far edges found queue = Some result ->
  (forall x, In x found -> reached start x) ->
  (forall x, In x queue -> x = start \/ reached start x) ->
  (forall x, x = start \/ In x found ->
     In x queue \/ forall e, In e edges -> near e = x -> In (far e) found) ->
  (forall x, In x result -> reached start x)
  /\ (forall x, x = start \/ In x result ->
        forall e, In e edges -> near e = x -> In (far e) result).
Proof.
  induction fuel as [|fuel IH]; intros found queue result H Hf Hq Hc;
    [discriminate|].
  simpl in H. destruct queue as [|current queue].
  - inversion H; subst result. split; [assumption|].
    intros x Hx. destruct (Hc x Hx) as [[]|Hclosed]. exact Hclosed.
  - destruct (visit_hops current edges found queue) as (added & Hv & Ha & Hcl).
    rewrite Hv in H. apply IH in H; auto.
    + intros x Hx. apply in_app_or in Hx. destruct Hx as [Hx|Hx]; [now apply Hf|].
      destruct (Ha x Hx) as (e & He & En & Ef).
      assert (Hstep : hop near far edges current x) by (exists e; auto).
      destruct (Hq current (or_introl eq_refl)) as [->|Hr].
      * now apply t_step.
      * eapply t_trans; [exact Hr | now apply t_step].
    + intros x Hx. apply in_app_or in Hx. destruct Hx as [Hx|Hx].
      * apply Hq. now right.
      * right. destruct (Ha x Hx) as (e & He & En & Ef).
        assert (Hstep : hop near far edges current x) by (exists e; auto).
        destruct (Hq current (or_introl eq_refl)) as [->|Hr].
        -- now apply t_step.
        -- eapply t_trans; [exact Hr | now apply t_step].
    + intros x Hx.
      assert (Hx' : In x added \/ x = start \/ In x found).
      { destruct Hx as [->|Hx]; [auto|].
        apply in_app_or in Hx. tauto. }
      destruct Hx' as [Hx'|Hx'].
      * left. apply in_or_app. now right.
      * destruct (Hc x Hx') as [[->|Hin]|Hclosed].
        -- right. exact Hcl.
        -- left. apply in_or_app. now left.
        -- right. intros e He Hn. apply in_or_app. left. now apply Hclosed.
Qed.

Lemma search_nodup :
  forall fuel found queue result,
  search fuel near far edges found queue = Some result ->
  NoDup found -> NoDup result.
Proof.
  induction fuel as [|fuel IH]; intros found queue result H Hnd; [discriminate|].
  simpl in H. destruct queue as [|current queue].
  - now inversion H; subst.
  - destruct (visit_spec near far current edges found queue) as (added & Hv & _ & Hn).
    rewrite Hv in H. eapply IH; eauto.
Qed.

(** What the search returns: the nodes that one or more hops reach from
    [start], each once. *)
Lemma reachable_spec (start : string) :
  NoDup (reachable near far start edges)
  /\ forall x, In x (reachable near far start edges) <-> reached start x.
Proof.
  unfold reachable.
  pose proof (search_total near far start edges) as Htotal.
  destruct (search (2 + List.length edges) near far edges [] [start])
    as [result|] eqn:Hs; [|contradiction].
  split; [eapply search_nodup; eauto; constructor|].
  apply search_spec with (start := start) in Hs.
  - destruct Hs as [Hsound Hclosed]. intros x. split; [apply Hsound|].
    intros Hr.
    assert (G : forall a b, reached a b -> a = start \/ In a result -> In b result).
    { intros a b Hab. induction Hab as [a b (e & He & En & Ef)|a b c _ IH1 _ IH2].
      - intros Ha. subst b. apply (Hclosed a Ha e He En).
      - intros Ha. apply IH2. right. now apply IH1. }
    apply (G start x Hr). now left.
  - intros x [].
  - intros x [<-|[]]. now left.
  - intros x [->|[]]. left. now left.
Qed.

End Reach.

Lemma path_reversed (edges : list Edge) (x y : string) :
  clos_trans string (hop target source edges) y x <-> path edges x y.
Proof.
  split; intros H.
  - induction H as [a b (e & He & En & Ef)|a b c _ IH1 _ IH2].
    + apply t_step. exists e. auto.
    + eapply t_trans; eauto.
  - induction H as [a b (e & He & Es & Et)|a b c _ IH1 _ IH2].
    + apply t_step. exists e. auto.
    + eapply t_trans; eauto.
Qed.

Lemma path_forward (edges : list Edge) (x y : string) :
  clos_trans string (hop source target edges) x y <-> path edges x y.
Proof.
  split; intros H.
  - induction H as [a b (e & He & En & Ef)|a b c _ IH1 _ IH2].
    + apply t_step. exists e. auto.
    + eapply t_trans; eauto.
  - induction H as [a b (e & He & Es & Et)|a b c _ IH1 _ IH2].
    + apply t_step. exists e. auto.
    + eapply t_trans; eauto.
Qed.

Lemma dependencies_spec (node : string) (edges : list Edge) :
  NoDup (WorkflowExecutionEngine._get_dependencies node edges)
  /\ forall x, In x (WorkflowExecutionEngine._get_dependencies node edges)
               <-> path edges x node.
Proof.
  unfold WorkflowExecutionEngine._get_dependencies.
  destruct (reachable_spec target source edges node) as [Hnd H].
  split; [exact Hnd|]. intros x. rewrite H. apply path_reversed.
Qed.

(** X5.  [_get_dependencies] returns exactly the nodes from which a path
    of one or more edges leads to the given node, each once; the node
    itself is among them only when it lies on a cycle. *)
Theorem dependencies_are_ancestors (node : string) (edges : list Edge) :
  NoDup (WorkflowExecutionEngine._get_dependencies node edges)
  /\ forall x, In x (WorkflowExecutionEngine._get_dependencies node edges)
               <-> path edges x node.
Proof. apply dependencies_spec. Qed.

(** X6.  [_get_downstream] returns exactly the nodes to which a path of
    one or more edges leads from the given node, each once. *)
Theorem downstream_are_descendants (node : string) (edges : list Edge) :
  NoDup (WorkflowExecutionEngine._get_downstream node edges)
  /\ forall x, In x (WorkflowExecutionEngine._get_downstream node edges)
               <-> path edges node x.
Proof.
  unfold WorkflowExecutionEngine._get_downstream.
  destruct (reachable_spec source target edges node) as [Hnd H].
  split; [exact Hnd|]. intros x. rewrite H. apply path_forward.
Qed.

(** ** Runs in either mode *)

Section AnyRun.
Context {rt : PyRuntime} {ex : Executors}.
Import WorkflowExecutionEngine.
Variables (nodes : list Node) (edges : list Edge).
Variable progress_callback : option ProgressCallback.

Lemma call_back_cases (ev : ProgressEvent) (s : Run) :
  call_back progress_callback ev s = (Ok tt, s)
  \/ exists e, call_back progress_callback ev s = (Raise e, s).
Proof.
  unfold call_back, lift, ret.
  destruct progress_callback as [f|]; [|now left].
  destruct (f ev) as [[]|e]; [now left | right; eauto].
Qed.

Lemma run_subgraph_nodes_spec (remaining : list string) :
  forall total idx s, NoDup remaining ->
  let (r, s') :=
    run_subgraph_nodes nodes edges progress_callback total idx remaining s in
  exists done rest, loop_run remaining r s s' done rest.
Proof.
  induction remaining as [|id remaining IH]; intros total idx s Hnd.
  - simpl. exists [], []. constructor; auto.
    + now rewrite app_nil_r.
    + intros a [].
    + left. now rewrite app_nil_r.
  - inversion Hnd as [|? ? Hfresh Hnd']; subst.
    cbn [run_subgraph_nodes]. unfold bindM at 1.
    destruct (call_back_cases (node_start id (percent idx total)) s) as [->|[e ->]].
    2:{ exists [], (id :: remaining). apply loop_run_stop. }
    unfold bindM at 1. unfold lift at 1.
    destruct (find_node nodes id) as [node|e] eqn:Hfind.
    2:{ exists [], (id :: remaining). apply loop_run_stop. }
    apply find_node_id in Hfind.
    unfold bindM at 1.
    pose proof (execute_node_run node edges s) as Hrun.
    destruct (execute_node node edges s) as [[v|e] s1]; rewrite Hfind in Hrun.
    2:{ exists [], (id :: remaining).
        destruct Hrun as [Hs Hf Ho He Hst Hd]. constructor; auto.
        - now rewrite app_nil_r.
        - intros a [].
        - intros x Hx. apply Hf. intros ->. apply Hx. now left.
        - discriminate.
        - right. exists id, remaining, e. rewrite !app_nil_r. auto. }
    destruct Hrun as [Hs Hf Ho He Hst Hd].
    unfold bindM at 1. unfold get_context at 1. unfold bindM at 1.
    destruct (call_back_cases (node_complete id (get_node_result (context s1) id)
                     (percent (S idx) total)) s1) as [->|[e ->]].
    2:{ exists [id], remaining. constructor; auto.
        - intros a [<-|[]]. assumption.
        - intros x Hx. apply Hf. intros ->. apply Hx. now left.
        - discriminate. }
    specialize (IH total (S idx) s1 Hnd').
    destruct (run_subgraph_nodes nodes edges progress_callback total (S idx)
                remaining s1) as [r s'].
    destruct IH as (done & rest & [Isplit Iorder Istatus Icompleted Iframe Ifin Ifail]).
    exists (id :: done), rest. constructor.
    + simpl. now rewrite Isplit.
    + rewrite Iorder, Ho. now rewrite <- app_assoc.
    + congruence.
    + intros a [<-|Ha]; [|now apply Icompleted].
      unfold node_status. rewrite Iframe by assumption. exact Hst.
    + intros x Hx. rewrite Iframe by (intros H; apply Hx; now right).
      apply Hf. intros ->. apply Hx. now left.
    + exact Ifin.
    + destruct Ifail as [[Ie Id]|(b & rest' & e & Hr & Hres & Ie & Ist & Id)].
      * left. split; [congruence|]. rewrite Id, Hd. now rewrite <- app_assoc.
      * right. exists b, rest', e. repeat split; auto.
        -- congruence.
        -- rewrite Hd in Id. rewrite <- !app_assoc in Id. simpl in Id.
           exact Id.
Qed.

Variable start_node_id : option string.

Lemma run_scheduled_spec (order : list string) (s : Run) :
  NoDup order ->
  let (r, s') := run_scheduled nodes edges start_node_id progress_callback order s in
  exists done rest, loop_run order r s s' done rest.
Proof.
  intros Hnd. unfold run_scheduled.
  destruct (partial_run_requested start_node_id).
  - now apply run_subgraph_nodes_spec.
  - apply (run_nodes_spec nodes edges progress_callback order); assumption.
Qed.

Lemma scheduled_nodup (order : list string) :
  scheduled nodes edges start_node_id = Ok order -> NoDup order.
Proof.
  unfold scheduled. destruct (partial_run_requested start_node_id); intros H;
    now apply topological_sort_sound in H.
Qed.

(** The [try] block is the schedule followed by its loop. *)
Lemma run_body_scheduled (s : Run) :
  run_body nodes edges start_node_id progress_callback s
  = (_ <-- (order <-- lift (scheduled nodes edges start_node_id) ;;
            run_scheduled nodes edges start_node_id progress_callback order) ;;
     t <-- now ;;
     _ <-- update (fun c => complete t c "completed") ;;
     context <-- get_context ;;
     call_back progress_callback (workflow_complete context)) s.
Proof.
  unfold run_body, scheduled, run_scheduled, _execute_from_node, full_run.
  destruct (partial_run_requested start_node_id); reflexivity.
Qed.

Variables (workflow_id execution_id : string) (trigger_data credentials : value).

(** What a run leaves, in either mode. *)
Lemma execute_workflow_report :
  let (r, s) := execute_workflow workflow_id execution_id nodes edges
                  trigger_data credentials start_node_id progress_callback in
  escapes progress_callback r
  /\ match scheduled nodes edges start_node_id with
     | Raise _ =>
         status (context s) = "error"
         /\ node_states (context s) = []
         /\ execution_order (context s) = []
         /\ errors (context s) = []
         /\ dispatched s = []
     | Ok order => exists done rest, dispatch_report order r s done rest
     end.
Proof.
  unfold execute_workflow, try_except.
  set (s0 := start_run workflow_id execution_id trigger_data credentials).
  rewrite run_body_scheduled.
  unfold bindM at 1. unfold bindM at 1. unfold lift at 1.
  destruct (scheduled nodes edges start_node_id) as [order|e] eqn:Hsort.
  2:{ pose proof (run_failed_spec progress_callback e s0) as H.
      destruct (run_failed progress_callback e s0) as [r s].
      destruct H as (A & B & C & D & E & F). repeat split; auto. }
  pose proof (run_scheduled_spec order s0 (scheduled_nodup order Hsort)) as Hloop.
  destruct (run_scheduled nodes edges start_node_id progress_callback order s0)
    as [[[]|e] s1].
  - destruct Hloop as (done & rest & [Isplit Iorder Istatus Icompleted Iframe Ifin Ifail]).
    specialize (Ifin eq_refl). subst rest.
    destruct Ifail as [[Ie Id]|(b & rest' & e & Hr & _)]; [|discriminate].
    unfold bindM, now, update, get_context.
    cbn [context clock dispatched].
    set (c2 := complete (clock s1) (context s1) "completed").
    unfold call_back at 1.
    destruct progress_callback as [f|] eqn:Hcb.
    + unfold lift. destruct (f (workflow_complete c2)) as [[]|e].
      * split; [now left|]. exists done, []. constructor; auto.
      * pose proof (run_failed_spec (Some f) e
                      {| context := c2; clock := S (clock s1);
                         dispatched := dispatched s1 |}) as H.
        destruct (run_failed (Some f) e _) as [r s].
        destruct H as (A & B & C & D & E & F).
        cbn [context clock dispatched] in *.
        split; [assumption|]. exists done, []. constructor; auto.
        -- rewrite D. exact Iorder.
        -- intros a Ha. unfold node_status. rewrite C. now apply Icompleted.
        -- intros H. rewrite B in H. discriminate.
        -- left. split; [rewrite E; exact Ie | rewrite F; exact Id].
    + unfold ret. split; [now left|]. exists done, []. constructor; auto.
  - destruct Hloop as (done & rest & [Isplit Iorder Istatus Icompleted Iframe Ifin Ifail]).
    pose proof (run_failed_spec progress_callback e s1) as H.
    destruct (run_failed progress_callback e s1) as [r s].
    destruct H as (A & B & C & D & E & F).
    split; [assumption|]. exists done, rest. constructor; auto.
    + rewrite D. exact Iorder.
    + intros a Ha. unfold node_status. rewrite C. now apply Icompleted.
    + intros H. rewrite B in H. discriminate.
    + destruct Ifail as [[Ie Id]|(b & rest' & e' & Hr & _ & Ie & Ist & Id)].
      * left. split; [rewrite E; exact Ie | rewrite F; exact Id].
      * right. exists b, rest', (exn_message e'). repeat split; auto.
        -- rewrite E. exact Ie.
        -- unfold node_status. rewrite C. exact Ist.
        -- rewrite F. exact Id.
Qed.



End AnyRun.

(** ** The partial run *)

Lemma in_union (a b : list string) (x : string) :
  In x (WorkflowExecutionEngine.union a b) <-> In x a \/ In x b.
Proof.
  unfold WorkflowExecutionEngine.union. rewrite in_app_iff, filter_In.
  split; [tauto|]. intros [H|H]; [now left|].
  destruct (mem x a) eqn:E.
  - left. now apply mem_In.
  - right. split; [assumption | reflexivity].
Qed.

(** The nodes a partial run selects: the start node and the nodes from
    which a path leads to it. *)
Lemma execution_subgraph_spec (start : string) (nodes : list Node)
  (edges : list Edge) (x : string) :
  In x (WorkflowExecutionEngine._get_execution_subgraph start nodes edges false)
  <-> x = start \/ path edges x start.
Proof.
  unfold WorkflowExecutionEngine._get_execution_subgraph.
  rewrite in_union. destruct (dependencies_spec start edges) as [_ H].
  rewrite H. simpl. intuition auto.
Qed.

(** In an order that respects the edges, a path leads forward. *)
Lemma path_leads_forward (edges : list Edge) (order : list string) :
  NoDup order ->
  (forall e, In e edges -> In (target e) order ->
     before order (source e) (target e)) ->
  forall x y, path edges x y -> In y order -> before order x y.
Proof.
  intros Hnd Hedges x y Hp.
  induction Hp as [x y (e & He & <- & <-)|x z y _ IH1 _ IH2]; intros Hy.
  - now apply Hedges.
  - specialize (IH2 Hy). pose proof (proj1 (before_In _ _ _ IH2)) as Hz.
    eapply before_trans; eauto.
Qed.

Section PartialRun.
Context {rt : PyRuntime} {ex : Executors}.
Import WorkflowExecutionEngine.
Variables (nodes : list Node) (edges : list Edge).
Variables (workflow_id execution_id : string) (credentials : value).
Variable progress_callback : option ProgressCallback.
Variable start : string.

Local Abbreviation outcome :=
  (execute_single_node start workflow_id execution_id nodes edges credentials
     progress_callback).

Lemma partial_run_report :
  ExpressionEvaluator.nonempty start = true ->
  let s := snd outcome in
  let realized := execution_order (context s) in
  (forall x, In x (dispatched s) -> x = start \/ path edges x start)
  /\ (forall x, In x realized -> x = start \/ path edges x start)
  /\ NoDup realized
  /\ (forall e, In e edges -> In (target e) realized ->
        before realized (source e) (target e))
  /\ (In start (node_ids nodes) -> status (context s) = "completed" ->
      In start realized).
Proof.
  intros Hne. cbv zeta. unfold execute_single_node.
  pose proof (execute_workflow_report nodes edges progress_callback (Some start)
                workflow_id execution_id VNone credentials) as H.
  destruct (execute_workflow _ _ _ _ _ _ _ _) as [r s]. cbn [snd].
  destruct H as [_ H]. unfold scheduled, partial_run_requested in H.
  rewrite Hne in H.
  set (chosen := _get_execution_subgraph start nodes edges false) in H.
  destruct (_topological_sort _ _) as [order|e] eqn:Hsort.
  2:{ destruct H as (Hst & _ & Ho & _ & Hd). rewrite Ho, Hd.
      split; [intros x []|]. split; [intros x []|]. split; [constructor|].
      split; [intros e0 _ []|].
      intros _ Hc. rewrite Hst in Hc. discriminate. }
  destruct H as (done & rest & [Hsplit Horder _ _ Hsucc Hfail]).
  destruct (topological_sort_sound _ _ _ Hsort) as (Hnd & Hin & Hedges).
  assert (Hchosen : forall x, In x order -> x = start \/ path edges x start).
  { intros x Hx. apply Hin in Hx. unfold node_ids in Hx.
    apply in_map_iff in Hx. destruct Hx as (n & <- & Hn).
    apply filter_In in Hn. destruct Hn as [_ Hn]. apply mem_In in Hn.
    now apply execution_subgraph_spec in Hn. }
  assert (Hdone : forall x, In x done -> In x order).
  { intros x Hx. rewrite Hsplit. apply in_or_app. now left. }
  assert (Hnd' : NoDup done).
  { rewrite Hsplit in Hnd. now apply NoDup_app_remove_r in Hnd. }
  rewrite Horder. split; [|split; [|split; [|split]]].
  - intros x Hx. apply Hchosen.
    destruct Hfail as [[_ Hd]|(b & rest' & msg & Hrest & _ & _ & _ & [Hd|Hd])];
      rewrite Hd in Hx; auto.
    apply in_app_or in Hx. destruct Hx as [Hx|[<-|[]]]; auto.
    rewrite Hsplit, Hrest. apply in_or_app. right. now left.
  - intros x Hx. auto.
  - exact Hnd'.
  - intros e He Ht. apply (before_prefix done rest); [congruence | | assumption].
    rewrite <- Hsplit. apply Hedges. apply filter_In. split; [assumption|].
    assert (Htc : In (target e) chosen).
    { apply execution_subgraph_spec. auto. }
    assert (Hsc : In (source e) chosen).
    { apply execution_subgraph_spec. right.
      assert (Hstep : path edges (source e) (target e)).
      { apply t_step. exists e. auto. }
      destruct (Hchosen _ (Hdone _ Ht)) as [Et|Hp].
      - now rewrite <- Et.
      - eapply t_trans; eauto. }
    apply mem_In in Htc, Hsc. now rewrite Htc, Hsc.
  - intros Hs Hc. destruct (Hsucc Hc) as [-> _]. rewrite app_nil_r in Hsplit.
    subst done. apply Hin. unfold node_ids in *. apply in_map_iff in Hs.
    destruct Hs as (n & Hid & Hn). apply in_map_iff. exists n.
    split; [assumption|]. apply filter_In. split; [assumption|].
    apply mem_In. apply execution_subgraph_spec. now left.
Qed.

(** X8.  A partial run, asked for a node with a non-empty id, invokes an
    executor for that node and for nodes from which a path leads to it,
    and for no other; ExecutionOrder holds such nodes only, none twice,
    and has the source of every edge before its target. *)
Theorem partial_run_scope :
  ExpressionEvaluator.nonempty start = true ->
  let s := snd outcome in
  let realized := execution_order (context s) in
  (forall x, In x (dispatched s) -> x = start \/ path edges x start)
  /\ (forall x, In x realized -> x = start \/ path edges x start)
  /\ NoDup realized
  /\ (forall e, In e edges -> In (target e) realized ->
        before realized (source e) (target e)).
Proof.
  intros Hne. destruct (partial_run_report Hne) as (A & B & C & D & _).
  cbv zeta. auto.
Qed.

(** X9.  When a partial run for a node of the node list ends with status
    [completed], that node is the last of ExecutionOrder. *)
Theorem partial_run_ends_with_start :
  ExpressionEvaluator.nonempty start = true ->
  In start (node_ids nodes) ->
  status (context (snd outcome)) = "completed" ->
  exists earlier, execution_order (context (snd outcome)) = earlier ++ [start].
Proof.
  intros Hne Hin Hc. destruct (partial_run_report Hne) as (_ & B & C & D & E).
  cbv zeta in *. specialize (E Hin Hc).
  set (realized := execution_order (context (snd outcome))) in *.
  destruct (in_split _ _ E) as (l1 & l2 & Hsplit).
  exists l1. destruct l2 as [|y l2]; [assumption | exfalso].
  assert (Hy : In y realized).
  { rewrite Hsplit. apply in_or_app. right. right. now left. }
  rewrite Hsplit in C.
  destruct (B y Hy) as [->|Hp].
  - apply NoDup_remove_2 in C. apply C. apply in_or_app. right. now left.
  - assert (Hb : before realized y start).
    { apply (path_leads_forward edges); auto. now rewrite Hsplit. }
    apply before_iff in Hb. destruct Hb as (a & b & Hab & Hya).
    assert (Ea : l1 = a).
    { apply (split_unique start l1 a (y :: l2) b); congruence. }
    subst a. apply (NoDup_app_disjoint l1 (start :: y :: l2) C y).
    + right. now left.
    + assumption.
Qed.

End PartialRun.

Lemma partial_run_scope_witness :
  let s := snd (@WorkflowExecutionEngine.execute_single_node demo_runtime
                  demo_executors "B" "w" "x" demo_nodes demo_edges VNone None) in
  (forall x, In x (dispatched s) -> x = "B"%string \/ path demo_edges x "B")
  /\ (forall x, In x (execution_order (context s)) ->
        x = "B"%string \/ path demo_edges x "B")
  /\ NoDup (execution_order (context s))
  /\ (forall e, In e demo_edges -> In (target e) (execution_order (context s)) ->
        before (execution_order (context s)) (source e) (target e)).
Proof.
  exact (@partial_run_scope demo_runtime demo_executors demo_nodes demo_edges
           "w" "x" VNone None "B" eq_refl).
Defined.

(** The partial run of the example executes A and then B, and leaves C. *)
Example demo_partial_run :
  let s := snd (@WorkflowExecutionEngine.execute_single_node demo_runtime
                  demo_executors "B" "w" "x" demo_nodes demo_edges VNone None) in
  status (context s) = "completed"%string
  /\ execution_order (context s) = ["A"; "B"]%string.
Proof. vm_compute. split; reflexivity. Qed.

Lemma partial_run_ends_with_start_witness :
  exists earlier,
    execution_order
      (context (snd (@WorkflowExecutionEngine.execute_single_node demo_runtime
                       demo_executors "B" "w" "x" demo_nodes demo_edges VNone None)))
    = earlier ++ ["B"%string].
Proof.
  apply (@partial_run_ends_with_start demo_runtime demo_executors demo_nodes
           demo_edges "w" "x" VNone None "B" eq_refl).
  - simpl. auto.
  - exact (proj1 demo_partial_run).
Defined.

(** ** The books of a run *)

Lemma in_keys_dset {V : Type} (d : dict V) (k x : string) (v : V) :
  In x (dkeys (dset d k v)) <-> x = k \/ In x (dkeys d).
Proof.
  split.
  - intros H. destruct (String.eqb_spec x k) as [->|Hne]; [now left | right].
    apply in_keys_dget in H. destruct H as [w H].
    rewrite dget_dset_other in H by congruence. eapply dget_Some_in; eauto.
  - intros [->|H].
    + eapply dget_Some_in. apply dget_dset_same.
    + destruct (String.eqb_spec x k) as [->|Hne].
      * eapply dget_Some_in. apply dget_dset_same.
      * apply in_keys_dget in H. destruct H as [w H].
        apply (dget_Some_in _ _ w). rewrite dget_dset_other by congruence.
        exact H.
Qed.

Lemma normalize_has_main (v : value) :
  has_main (WorkflowExecutionEngine.normalize v).
Proof.
  unfold has_main, WorkflowExecutionEngine.normalize.
  destruct v as [| | | | |l|d]; try (eexists; split; [reflexivity|reflexivity]).
  destruct (dmem d "main") eqn:E.
  - exists d. auto.
  - eexists. split; reflexivity.
Qed.

Section Preserves.
Context {rt : PyRuntime} {ex : Executors}.
Import WorkflowExecutionEngine.
Variable P : ExecutionContext -> Prop.

Lemma preserves_ret {A : Type} (a : A) : preserves P (ret a).
Proof. intros s H. exact H. Qed.

Lemma preserves_lift {A : Type} (r : result A) : preserves P (lift r).
Proof. intros s H. exact H. Qed.

Lemma preserves_now : preserves P now.
Proof. intros s H. exact H. Qed.

Lemma preserves_get_context : preserves P get_context.
Proof. intros s H. exact H. Qed.

Lemma preserves_update f : (forall c, P c -> P (f c)) -> preserves P (update f).
Proof. intros Hf s H. now apply Hf. Qed.

Lemma preserves_bind {A B : Type} (m : M A) (k : A -> M B) :
  preserves P m -> (forall a, preserves P (k a)) -> preserves P (bindM m k).
Proof.
  intros Hm Hk s H. unfold bindM. specialize (Hm s H).
  destruct (m s) as [[a|e] s1]; cbn [snd] in *; [now apply Hk | assumption].
Qed.

Lemma preserves_try {A : Type} (m : M A) (h : exn -> M A) :
  preserves P m -> (forall e, preserves P (h e)) -> preserves P (try_except m h).
Proof.
  intros Hm Hh s H. unfold try_except. specialize (Hm s H).
  destruct (m s) as [[a|e] s1]; cbn [snd] in *; [assumption | now apply Hh].
Qed.

Lemma preserves_call_back cb ev : preserves P (call_back cb ev).
Proof.
  unfold call_back. destruct cb; [apply preserves_lift | apply preserves_ret].
Qed.

(** A property that every execution of a node keeps, and that does not
    depend on the status of the run, holds throughout a run. *)
Hypothesis node_keeps : forall node edges, preserves P (execute_node node edges).
Hypothesis status_free : forall c st t, P c -> P (with_status c st t).

Lemma preserves_run_nodes nodes edges cb total remaining :
  forall idx, preserves P (run_nodes nodes edges cb total idx remaining).
Proof.
  induction remaining as [|id remaining IH]; intros idx; cbn [run_nodes].
  - apply preserves_ret.
  - apply preserves_bind; [apply preserves_lift | intros node].
    apply preserves_bind; [apply preserves_call_back | intros _].
    apply preserves_bind; [apply node_keeps | intros _].
    apply preserves_bind; [apply preserves_get_context | intros c].
    apply preserves_bind; [apply preserves_call_back | intros _].
    apply IH.
Qed.

Lemma preserves_run_subgraph_nodes nodes edges cb total remaining :
  forall idx, preserves P (run_subgraph_nodes nodes edges cb total idx remaining).
Proof.
  induction remaining as [|id remaining IH]; intros idx; cbn [run_subgraph_nodes].
  - apply preserves_ret.
  - apply preserves_bind; [apply preserves_call_back | intros _].
    apply preserves_bind; [apply preserves_lift | intros node].
    apply preserves_bind; [apply node_keeps | intros _].
    apply preserves_bind; [apply preserves_get_context | intros c].
    apply preserves_bind; [apply preserves_call_back | intros _].
    apply IH.
Qed.

Lemma preserves_execute_workflow workflow_id execution_id nodes edges
  trigger_data credentials start_node_id cb :
  P (context (start_run workflow_id execution_id trigger_data credentials)) ->
  P (context (snd (execute_workflow workflow_id execution_id nodes edges
                     trigger_data credentials start_node_id cb))).
Proof.
  intros H0. unfold execute_workflow.
  apply (preserves_try (run_body nodes edges start_node_id cb) (run_failed cb));
    [| |exact H0].
  - unfold run_body. apply preserves_bind.
    + destruct (partial_run_requested start_node_id) as [id|].
      * unfold _execute_from_node.
        apply preserves_bind; [apply preserves_lift | intros order].
        apply preserves_run_subgraph_nodes.
      * unfold full_run.
        apply preserves_bind; [apply preserves_lift | intros order].
        apply preserves_run_nodes.
    + intros _. apply preserves_bind; [apply preserves_now | intros t].
      apply preserves_bind.
      { apply preserves_update. intros c Hc. now apply status_free. }
      intros _. apply preserves_bind; [apply preserves_get_context | intros c].
      apply preserves_call_back.
  - intros e. unfold run_failed.
    apply preserves_bind; [apply preserves_now | intros t].
    apply preserves_bind.
    { apply preserves_update. intros c Hc. now apply status_free. }
    intros _. apply preserves_call_back.
Qed.

End Preserves.

Section Books.
Context {rt : PyRuntime} {ex : Executors}.
Import WorkflowExecutionEngine.

(** What [execute_node] does to the recorded results. *)
Lemma execute_node_results (node : Node) (edges : list Edge) (s : Run) :
  let (r, s') := execute_node node edges s in
  match r with
  | Ok v =>
      has_main v
      /\ node_results (context s')
         = dset (node_results (context s)) (node_id node) v
  | Raise _ => node_results (context s') = node_results (context s)
  end.
Proof.
  unfold execute_node, try_except, bindM, now, update, get_context, lift,
    record_dispatch, ret, raise.
  cbn [context clock dispatched].
  destruct (_get_node_executor _) as [cls|e]; cbn [context clock dispatched];
    [|reflexivity].
  repeat match goal with
         | |- context [value_get ?c ?k ?d] =>
             destruct (value_get c k d) as [?|?]; cbn [context clock dispatched];
             [|reflexivity]
         end.
  match goal with |- context [returned ?c] => set (call := c) end.
  destruct (returned call) as [v|e]; cbn [context clock dispatched];
    [|reflexivity].
  destruct (dget (context_after call) "chat_response") as [resp|];
    cbn [context clock dispatched];
    (split; [apply normalize_has_main | reflexivity]).
Qed.

Lemma execute_node_tidy (node : Node) (edges : list Edge) :
  preserves tidy (execute_node node edges).
Proof.
  intros s [Hres Hmain Hst].
  pose proof (execute_node_run node edges s) as Hrun.
  pose proof (execute_node_results node edges s) as Hbooks.
  destruct (execute_node node edges s) as [[v|e] s']; cbn [snd].
  - destruct Hrun as [_ Hframe Horder Herrors Hstate _].
    destruct Hbooks as [Hv Hr].
    assert (Hid : In (node_id node) (dkeys (node_states (context s')))).
    { unfold node_status in Hstate.
      destruct (dget (node_states (context s')) (node_id node)) eqn:E;
        [|discriminate]. eapply dget_Some_in; eauto. }
    assert (Hold : forall x, In x (dkeys (node_states (context s))) ->
                     In x (dkeys (node_states (context s')))).
    { intros x Hx. destruct (String.eqb_spec x (node_id node)) as [->|Hne];
        [assumption|].
      apply in_keys_dget in Hx. destruct Hx as [w Hx].
      apply (dget_Some_in _ _ w). now rewrite Hframe. }
    constructor.
    + intros x. rewrite Hr, Horder, in_keys_dset, in_app_iff, Hres. simpl.
      intuition auto.
    + intros x w. rewrite Hr, dget_dset.
      destruct (String.eqb (node_id node) x).
      * intros E. inversion E; subst. exact Hv.
      * apply Hmain.
    + intros x. rewrite Horder, Herrors, in_app_iff. simpl.
      intros [[Hx|[<-|[]]]|Hx]; auto.
  - destruct Hrun as [_ Hframe Horder Herrors Hstate _].
    assert (Hid : In (node_id node) (dkeys (node_states (context s')))).
    { unfold node_status in Hstate.
      destruct (dget (node_states (context s')) (node_id node)) eqn:E;
        [|discriminate]. eapply dget_Some_in; eauto. }
    assert (Hold : forall x, In x (dkeys (node_states (context s))) ->
                     In x (dkeys (node_states (context s')))).
    { intros x Hx. destruct (String.eqb_spec x (node_id node)) as [->|Hne];
        [assumption|].
      apply in_keys_dget in Hx. destruct Hx as [w Hx].
      apply (dget_Some_in _ _ w). now rewrite Hframe. }
    constructor.
    + intros x. now rewrite Hbooks, Horder.
    + intros x w. rewrite Hbooks. apply Hmain.
    + intros x. rewrite Horder, Herrors, in_keys_dset.
      intros [Hx|[->|Hx]]; auto.
Qed.

(** X10.  At the end of a run, in either mode, the nodes that have a
    recorded result are exactly the nodes of ExecutionOrder, every
    recorded result is a mapping with the key [main], and every node that
    is in ExecutionOrder or has an entry in Errors has an entry in
    NodeStates. *)
Theorem run_books_tidy (workflow_id execution_id : string) (nodes : list Node)
  (edges : list Edge) (trigger_data credentials : value)
  (start_node_id : option string) (progress_callback : option ProgressCallback) :
  tidy (context (snd (execute_workflow workflow_id execution_id nodes edges
                        trigger_data credentials start_node_id
                        progress_callback))).
Proof.
  apply (preserves_execute_workflow tidy).
  - apply execute_node_tidy.
  - intros c st t [A B C]. constructor; assumption.
  - constructor; simpl.
    + tauto.
    + discriminate.
    + intros id [[]|[]].
Qed.

End Books.

(** ** The times of a node *)

Section Times.
Context {rt : PyRuntime} {ex : Executors}.
Import WorkflowExecutionEngine.




End Times.

(** ** More on the inputs of a node *)

Section MoreInputs.
Import WorkflowExecutionEngine.
Variables (context : ExecutionContext) (node : string).

Lemma collect_inputs_live (edges : list Edge) :
  forall inputs main_inputs,
  collect_inputs node edges context inputs main_inputs
  = collect_inputs node (filter (live_edge context node) edges) context
      inputs main_inputs.
Proof.
  induction edges as [|edge edges IH]; intros inputs main_inputs;
    [reflexivity|].
  cbn [filter]. unfold live_edge at 1.
  destruct (String.eqb (target edge) node) eqn:Et; cbn [andb].
  - destruct (truthy (get_node_result context (source edge))) eqn:Er.
    + cbn [collect_inputs]. rewrite Et, Er.
      destruct (String.eqb _ "main"); apply IH.
    + cbn [collect_inputs]. rewrite Et, Er. apply IH.
  - cbn [collect_inputs]. rewrite Et. apply IH.
Qed.

(** X12.  The inputs of a node are those that the edges give which end
    at the node and whose source has a truthy recorded result; every
    other edge is without effect, and a node that has no such edge gets
    the empty mapping.  Whenever the inputs have the key [main], they
    have the same value under [json]. *)
Theorem inputs_from_live_edges (edges : list Edge) :
  _get_node_inputs node edges context
  = _get_node_inputs node (filter (live_edge context node) edges) context
  /\ (filter (live_edge context node) edges = [] ->
      _get_node_inputs node edges context = [])
  /\ (forall main,
        dget (_get_node_inputs node edges context) "main" = Some main ->
        dget (_get_node_inputs node edges context) "json" = Some main).
Proof.
  assert (E : _get_node_inputs node edges context
              = _get_node_inputs node (filter (live_edge context node) edges)
                  context).
  { unfold _get_node_inputs. now rewrite collect_inputs_live. }
  split; [exact E|]. split.
  - intros H. rewrite E, H. reflexivity.
  - intros main. unfold _get_node_inputs.
    destruct (collect_inputs node edges context [] []) as [inputs main_inputs].
    match goal with
    | |- context [match dget ?d "main" with _ => _ end] => set (merged := d)
    end.
    destruct (dget merged "main") as [m|] eqn:Hm.
    + rewrite dget_dset_other by discriminate. rewrite Hm.
      intros H. inversion H; subst. apply dget_dset_same.
    + rewrite Hm. discriminate.
Qed.

Lemma dset_fresh {V : Type} (d : dict V) (k : string) (v : V) :
  ~ In k (dkeys d) -> dset d k v = d ++ [(k, v)].
Proof.
  induction d as [|[k0 v0] d IH]; simpl; intros H; [reflexivity|].
  destruct (String.eqb_spec k0 k) as [->|Hne]; [tauto|].
  rewrite IH by tauto. reflexivity.
Qed.

Lemma merge_plain (l : list (string * value)) :
  forall acc,
  (forall p, In p l -> is_dict (snd p) = false) ->
  NoDup (dkeys acc ++ map fst l) ->
  fold_left
    (fun merged_main main_input =>
       match snd main_input with
       | VDict data => dupdate merged_main data
       | data => dset merged_main (fst main_input) data
       end) l acc
  = acc ++ l.
Proof.
  induction l as [|[k v] l IH]; intros acc Hp Hnd.
  - simpl. now rewrite app_nil_r.
  - assert (Hk : ~ In k (dkeys acc)).
    { intros Hin. apply NoDup_remove_2 in Hnd. apply Hnd.
      apply in_or_app. now left. }
    assert (Hv : is_dict v = false) by (apply (Hp (k, v)); now left).
    assert (Hrest : forall p, In p l -> is_dict (snd p) = false).
    { intros p Hin. apply Hp. now right. }
    assert (Hnd' : NoDup (dkeys (acc ++ [(k, v)]) ++ map fst l)).
    { unfold dkeys. rewrite map_app. simpl. rewrite <- app_assoc. exact Hnd. }
    cbn [fold_left fst snd].
    destruct v; try discriminate Hv;
      rewrite (dset_fresh acc k _ Hk), (IH _ Hrest Hnd'), <- app_assoc;
      reflexivity.
Qed.

(** X13.  When two or more edges end at the [main] handle of a node and
    none of the payloads they carry is a mapping, and their sources are
    distinct, the [main] input of the node is the mapping from each source
    to its payload, in the order of the edges. *)
Theorem plain_payloads_keyed_by_source (edges : list Edge) :
  let entries := flat_map (main_entry context node) edges in
  (2 <= List.length entries)%nat ->
  (forall p, In p entries -> is_dict (snd p) = false) ->
  NoDup (map fst entries) ->
  dget (_get_node_inputs node edges context) "main" = Some (VDict entries).
Proof.
  cbv zeta. intros Hlen Hplain Hnd.
  rewrite get_node_inputs_main, <- flat_map_main_filter.
  destruct (flat_map (main_entry context node) edges) as [|m1 [|m2 rest]] eqn:E;
    simpl in Hlen; try lia.
  unfold merge_main. rewrite merge_plain; auto.
Qed.

End MoreInputs.

Lemma inputs_from_live_edges_witness :
  WorkflowExecutionEngine._get_node_inputs "Y" plain_edges plain_context = []
  /\ dget (WorkflowExecutionEngine._get_node_inputs "X" plain_edges plain_context)
       "json"
     = Some (VDict [("left", VStr "l"); ("right", VStr "r")]).
Proof.
  split.
  - apply (proj1 (proj2 (inputs_from_live_edges plain_context "Y" plain_edges))).
    reflexivity.
  - apply (proj2 (proj2 (inputs_from_live_edges plain_context "X" plain_edges))).
    reflexivity.
Defined.

Lemma plain_payloads_keyed_by_source_witness :
  dget (WorkflowExecutionEngine._get_node_inputs "X" plain_edges plain_context)
    "main"
  = Some (VDict [("left", VStr "l"); ("right", VStr "r")]).
Proof.
  apply (plain_payloads_keyed_by_source plain_context "X" plain_edges).
  - simpl. lia.
  - intros p [<-|[<-|[]]]; reflexivity.
  - simpl. repeat constructor; simpl; intuition discriminate.
Defined.

(** ** More on the expression evaluator *)

Section EvaluatorFacts.
Context {rt : PyRuntime}.
Import ExpressionEvaluator.

Lemma sub_refs_ext (pre : string) (f g : string -> string) :
  (forall x, f x = g x) ->
  forall s skip, sub_refs_from pre f skip s = sub_refs_from pre g skip s.
Proof.
  intros Hfg. induction s as [|c s IH]; intros skip; [reflexivity|].
  cbn [sub_refs_from]. destruct skip as [|k]; [|apply IH].
  destruct (span is_ref_char _) as [group rest].
  destruct (startswith _ pre && nonempty group).
  - now rewrite Hfg, IH.
  - now rewrite IH.
Qed.

Lemma mapM_ext {A B : Type} (f g : A -> result B) (l : list A) :
  (forall x, f x = g x) -> mapM f l = mapM g l.
Proof.
  intros Hfg. induction l as [|a l IH]; cbn [mapM]; [reflexivity|].
  now rewrite Hfg, IH.
Qed.

Section TwoEvaluators.
Variables self other : ExpressionEvaluator.t.
Hypothesis same_json : json_data self = json_data other.
Hypothesis same_vars : vars self = vars other.

Lemma json_path_same (path : string) :
  _evaluate_json_path self path = _evaluate_json_path other path.
Proof. unfold _evaluate_json_path. now rewrite same_json. Qed.

Lemma vars_path_same (path : string) :
  _evaluate_vars_path self path = _evaluate_vars_path other path.
Proof. unfold _evaluate_vars_path. now rewrite same_vars. Qed.

Lemma path_same (path : string) :
  _evaluate_path self path = _evaluate_path other path.
Proof.
  unfold _evaluate_path.
  now rewrite json_path_same, vars_path_same, same_json.
Qed.

Lemma substitute_same (expr : string) :
  substitute_json_refs self expr = substitute_json_refs other expr.
Proof.
  unfold substitute_json_refs.
  assert (H : forall g, json_ref_repr self g = json_ref_repr other g).
  { intros g. unfold json_ref_repr. now rewrite json_path_same. }
  rewrite (sub_refs_ext "$json." _ _ H).
  apply sub_refs_ext. exact H.
Qed.

Lemma javascript_same (f g : string -> result value) (expr : string) :
  (forall x, f x = g x) ->
  _evaluate_javascript self f expr = _evaluate_javascript other g expr.
Proof.
  intros Hfg. unfold _evaluate_javascript. rewrite substitute_same.
  unfold javascript_body.
  assert (H : forall sep, mapM (fun p => f (strip p)) (split (substitute_json_refs other expr) sep)
                          = mapM (fun p => g (strip p)) (split (substitute_json_refs other expr) sep)).
  { intros sep. apply mapM_ext. intros x. apply Hfg. }
  now rewrite !H.
Qed.

Lemma expression_same (depth : nat) :
  forall expr,
  _evaluate_expression self depth expr = _evaluate_expression other depth expr.
Proof.
  induction depth as [|depth IH]; intros expr; [reflexivity|].
  rewrite !evaluate_expression_cases. cbv zeta.
  rewrite json_path_same, vars_path_same.
  unfold evaluate_other.
  now rewrite (javascript_same _ _ (strip expr) IH), path_same.
Qed.

Lemma substitute_blocks_same (depth : nat) (matches : list string) :
  forall acc,
  substitute_blocks self depth matches acc
  = substitute_blocks other depth matches acc.
Proof.
  induction matches as [|m matches IH]; intros acc; cbn [substitute_blocks];
    [reflexivity|].
  rewrite expression_same. destruct (_evaluate_expression other depth (strip m));
    cbn [bind]; [apply IH | reflexivity].
Qed.

(** The value of an expression depends on the current input and on the
    variables only. *)
Lemma evaluate_same (depth : nat) (expression : value) :
  evaluate self depth expression = evaluate other depth expression.
Proof.
  unfold evaluate. destruct expression; try reflexivity.
  now rewrite substitute_blocks_same.
Qed.

End TwoEvaluators.

(** X14.  The evaluator never consults the recorded results of the nodes:
    whatever is put under [node_results] in the context of an evaluation,
    the result is the same. *)
Theorem evaluation_ignores_node_results (depth : nat) (expression : value)
  (context : dict value) (results : value) :
  evaluate_expression depth expression (dset context "node_results" results)
  = evaluate_expression depth expression context.
Proof.
  unfold evaluate_expression. destruct expression; try reflexivity.
  apply evaluate_same; unfold __init__; cbn [json_data vars];
    unfold dget_default; now rewrite dget_dset_other by discriminate.
Qed.


(** *** Paths *)

Lemma split_on_nonnil (p : ascii -> bool) (s : string) : split_on p s <> [].
Proof.
  destruct s as [|c s]; simpl; [discriminate|].
  destruct (p c); [discriminate|]. destruct (split_on p s); discriminate.
Qed.

Lemma split_on_app (p : ascii -> bool) (a b : string) (c : ascii) :
  p c = true ->
  split_on p (a ++ String c b) = split_on p a ++ split_on p b.
Proof.
  intros Hc. induction a as [|x a IH]; simpl.
  - now rewrite Hc.
  - rewrite IH. destruct (p x); [reflexivity|].
    pose proof (split_on_nonnil p a) as Hn.
    destruct (split_on p a); [contradiction | reflexivity].
Qed.

Lemma path_parts_app (a b : string) (c : ascii) :
  is_path_sep c = true ->
  path_parts (a ++ String c b) = path_parts a ++ path_parts b.
Proof.
  intros Hc. unfold path_parts.
  now rewrite split_on_app, filter_app, map_app.
Qed.

Lemma get_nested_walk (obj : value) (path : string) :
  _get_nested_value obj path = walk obj (path_parts path).
Proof.
  unfold _get_nested_value. destruct path; reflexivity.
Qed.

Lemma walk_none (parts : list string) : walk VNone parts = VNone.
Proof.
  induction parts as [|part parts IH]; simpl; [reflexivity|].
  now destruct (nonempty part).
Qed.

Lemma walk_app (l1 l2 : list string) :
  forall obj, walk obj (l1 ++ l2) = walk (walk obj l1) l2.
Proof.
  induction l1 as [|part l1 IH]; intros obj; simpl; [reflexivity|].
  destruct (nonempty part); [|apply IH].
  destruct (step_into obj part) as [[| | | | | |]|];
    try apply IH; now rewrite walk_none.
Qed.

(** X16.  Looking up a path made of two paths joined by a separator (a
    dot, or an opening or closing bracket) is looking up the second path
    in what the first path yields; which of the three separators joins
    them makes no difference. *)
Theorem nested_lookup_composes (obj : value) (first second : string)
  (sep : ascii) :
  is_path_sep sep = true ->
  _get_nested_value obj (first ++ String sep second)
  = _get_nested_value (_get_nested_value obj first) second.
Proof.
  intros Hsep. rewrite !get_nested_walk, path_parts_app by assumption.
  apply walk_app.
Qed.

End EvaluatorFacts.

Lemma nested_lookup_composes_witness :
  ExpressionEvaluator._get_nested_value
    (ExpressionEvaluator.json_data count_evaluator) "items[0].name"
  = ExpressionEvaluator._get_nested_value
      (ExpressionEvaluator._get_nested_value
         (ExpressionEvaluator.json_data count_evaluator) "items") "0].name".
Proof.
  exact (nested_lookup_composes (ExpressionEvaluator.json_data count_evaluator)
           "items" "0].name" "[" eq_refl).
Defined.

(** *** Templates *)

Section Templates.
Context {rt : PyRuntime}.
Import ExpressionEvaluator.

Lemma prefix_nil (s : string) : String.prefix EmptyString s = true.
Proof. now destruct s. Qed.

Lemma prefix_append (a b : string) : String.prefix a (a ++ b) = true.
Proof.
  induction a as [|c a IH]; simpl; [apply prefix_nil|].
  destruct (ascii_dec c c); [assumption | contradiction].
Qed.




Lemma drop_append (a b : string) : drop (String.length a) (a ++ b) = b.
Proof. induction a as [|c a IH]; simpl; [reflexivity | assumption]. Qed.






Variable self : ExpressionEvaluator.t.


Lemma rstrip_cons (f : ascii -> bool) (c : ascii) (s : string) :
  f c = false -> rstrip f (String c s) = String c (rstrip f s).
Proof. intros H. simpl. rewrite H. now destruct (rstrip f s). Qed.

Lemma lstrip_head (f : ascii -> bool) (s : string) :
  match lstrip f s with
  | EmptyString => True
  | String c _ => f c = false
  end.
Proof.
  induction s as [|c s IH]; simpl; [exact I|].
  destruct (f c) eqn:E; [exact IH | exact E].
Qed.

(** A text that stripping leaves as it is has no white space at either
    end. *)
Lemma strip_fixed (f : ascii -> bool) (s : string) :
  strip_with f s = s -> lstrip f s = s /\ rstrip f s = s.
Proof.
  unfold strip_with. destruct s as [|c s]; [auto|].
  destruct (f c) eqn:E.
  - intros H. exfalso. pose proof (lstrip_head f (String c s)) as Hh.
    destruct (lstrip f (String c s)) as [|c' t]; [discriminate|].
    rewrite rstrip_cons in H by assumption. inversion H; subst. congruence.
  - cbn [lstrip]. rewrite E. auto.
Qed.

(** X18.  For a path without white space at its ends, the expressions
    [$json.path] and [json.path] mean the same: the path is looked up in
    the current input.  So does the path alone, when it holds no
    arithmetic sign, parenthesis or bracket and does not begin with
    [json], [$json] or [$vars]. *)
Theorem json_prefix_spellings (depth : nat) (path : string) :
  strip path = path ->
  _evaluate_expression self (S depth) ("$json." ++ path)
  = Ok (_get_nested_value (json_data self) path)
  /\ _evaluate_expression self (S depth) ("json." ++ path)
     = Ok (_get_nested_value (json_data self) path)
  /\ (existsb (has_char path) operator_chars = false ->
      startswith path "$json" || startswith path "json" = false ->
      startswith path "$vars" = false ->
      _evaluate_expression self (S depth) path
      = Ok (_get_nested_value (json_data self) path)).
Proof.
  intros Hstrip.
  destruct (strip_fixed is_space path Hstrip) as [_ Hr].
  assert (E : forall p, (if nonempty p then _get_nested_value (json_data self) p
                         else json_data self)
                        = _get_nested_value (json_data self) p).
  { intros p. unfold _get_nested_value. now destruct (nonempty p). }
  assert (S1 : strip ("$json." ++ path) = ("$json." ++ path)%string).
  { unfold strip, strip_with. cbn [append lstrip is_space].
    change (is_space "$") with false. cbv iota.
    rewrite !rstrip_cons by reflexivity. now rewrite Hr. }
  assert (S2 : strip ("json." ++ path) = ("json." ++ path)%string).
  { unfold strip, strip_with. cbn [append lstrip is_space].
    change (is_space "j") with false. cbv iota.
    rewrite !rstrip_cons by reflexivity. now rewrite Hr. }
  split; [|split].
  - rewrite evaluate_expression_cases. cbv zeta. rewrite S1.
    assert (H : startswith ("$json." ++ path) "$json" = true) by reflexivity.
    rewrite H. cbn [orb]. f_equal.
    unfold _evaluate_json_path, strip_json_prefix. rewrite H.
    cbn [drop append drop_optional_dot]. apply E.
  - rewrite evaluate_expression_cases. cbv zeta. rewrite S2.
    assert (H1 : startswith ("json." ++ path) "$json" = false) by reflexivity.
    assert (H2 : startswith ("json." ++ path) "json" = true) by reflexivity.
    rewrite H1, H2. cbn [orb]. f_equal.
    unfold _evaluate_json_path, strip_json_prefix. rewrite H1, H2.
    cbn [drop append drop_optional_dot]. apply E.
  - intros Hops Hjson Hvars.
    rewrite evaluate_expression_cases. cbv zeta. rewrite Hstrip, Hjson, Hvars.
    unfold evaluate_other. rewrite Hops. f_equal.
    unfold _evaluate_path. rewrite orb_comm in Hjson. now rewrite Hjson, Hvars.
Qed.

(** *** Arithmetic *)



End Templates.


Lemma json_prefix_spellings_witness :
  @ExpressionEvaluator._evaluate_expression demo_runtime count_evaluator 1
    "$json.count" = Ok (VInt 5)
  /\ @ExpressionEvaluator._evaluate_expression demo_runtime count_evaluator 1
       "json.count" = Ok (VInt 5)
  /\ @ExpressionEvaluator._evaluate_expression demo_runtime count_evaluator 1
       "count" = Ok (VInt 5).
Proof.
  pose proof (@json_prefix_spellings demo_runtime count_evaluator 0 "count"
                eq_refl) as (A & B & C).
  split; [exact A|]. split; [exact B|]. exact (C eq_refl eq_refl eq_refl).
Defined.


(** ** More on the node executors *)

Lemma lower_char_idem (c : ascii) : lower_char (lower_char c) = lower_char c.
Proof. destruct c as [[] [] [] [] [] [] [] []]; reflexivity. Qed.

Lemma lower_idem (s : string) : lower (lower s) = lower s.
Proof.
  induction s as [|c s IH]; simpl; [reflexivity|].
  now rewrite lower_char_idem, IH.
Qed.

Section DataNodes.
Context {rt : PyRuntime} {base : BaseNodeExecutor}.
Import DataNodeExecutor.

(** X20.  The comparisons of the filter other than [greaterThan] and
    [lessThan] ignore the case of letters: putting either text in lower
    case does not change the outcome. *)
Theorem filter_ignores_case (a b : string) (operator : value) :
  is_literal operator "greaterThan" = false ->
  is_literal operator "lessThan" = false ->
  _evaluate_filter (VStr (lower a)) operator (VStr b)
  = _evaluate_filter (VStr a) operator (VStr b)
  /\ _evaluate_filter (VStr a) operator (VStr (lower b))
     = _evaluate_filter (VStr a) operator (VStr b).
Proof.
  intros Hg Hl. unfold _evaluate_filter. cbn [py_str].
  rewrite !lower_idem, Hg, Hl. split; reflexivity.
Qed.


Lemma edit_loop_spec (fields : list value) :
  (forall fd, In fd fields -> keyed_by_string fd) ->
  forall d,
  exists d',
    edit_loop fields (VDict d) = Some (Ok (VDict d'))
    /\ forall k, dget d' k
                 = match declared fields k with
                   | Some v => Some v
                   | None => dget d k
                   end.
Proof.
  induction fields as [|fd fields IH]; intros Hkeyed d.
  - exists d. split; reflexivity.
  - destruct (Hkeyed fd (or_introl eq_refl)) as (f & key & -> & Hkey).
    assert (Hrest : forall x, In x fields -> keyed_by_string x).
    { intros x Hx. apply Hkeyed. now right. }
    cbn [edit_loop declared]. rewrite Hkey. cbn [truthy is_literal].
    destruct (String.eqb_spec key EmptyString) as [->|Hne]; cbn [negb].
    + destruct (IH Hrest d) as (d' & -> & Hd'). exists d'.
      split; [reflexivity|]. intros k. rewrite Hd'.
      destruct (declared fields k); [reflexivity|].
      unfold ExpressionEvaluator.nonempty.
      destruct (String.eqb_spec EmptyString k) as [<-|Hk]; reflexivity.
    + cbn [set_item].
      destruct (IH Hrest (dset d key (dget_default f "value" (VStr EmptyString))))
        as (d' & -> & Hd'). exists d'.
      split; [reflexivity|]. intros k. rewrite Hd'.
      destruct (declared fields k); [reflexivity|].
      rewrite dget_dset. unfold ExpressionEvaluator.nonempty.
      destruct (String.eqb_spec key k) as [<-|Hk]; [|reflexivity].
      cbn [andb]. apply String.eqb_neq in Hne. now rewrite Hne.
Qed.

(** X22.  The edit-fields node, given a mapping as input and field
    definitions whose keys are strings, returns the input with every key
    that a definition names set to the value of the last definition that
    names it; the other keys keep their values, and a definition whose key
    is empty is ignored. *)
Theorem edit_fields_sets_declared (self : NodeExecutor)
  (inputs context : dict value) (item : dict value) (fields : list value) :
  validate_inputs self inputs ["main"%string] = Ok tt ->
  dget_default inputs "main" (VDict []) = VDict item ->
  get_property self "fields" (VList []) = VList fields ->
  (forall fd, In fd fields -> keyed_by_string fd) ->
  exists edited,
    _execute_edit_fields self inputs context
    = Some (Ok (VDict [("main", VDict edited)]))
    /\ forall k, dget edited k
                 = match declared fields k with
                   | Some v => Some v
                   | None => dget item k
                   end.
Proof.
  intros Hvalid Hmain Hfields Hkeyed. unfold _execute_edit_fields.
  rewrite Hvalid, Hmain, Hfields. cbn [iterate].
  destruct (edit_loop_spec fields Hkeyed item) as (d' & -> & Hd').
  exists d'. split; [reflexivity | exact Hd'].
Qed.

End DataNodes.

Lemma filter_ignores_case_witness :
  @DataNodeExecutor._evaluate_filter demo_runtime (VStr "active")
    (VStr "equals") (VStr "active")
  = @DataNodeExecutor._evaluate_filter demo_runtime (VStr "ACTIVE")
      (VStr "equals") (VStr "active").
Proof.
  exact (proj1 (@filter_ignores_case demo_runtime "ACTIVE" "active"
                  (VStr "equals") eq_refl eq_refl)).
Defined.


Lemma edit_fields_sets_declared_witness :
  exists edited,
    @DataNodeExecutor._execute_edit_fields demo_base rename_fields
      [("main", VDict [("name", VStr "old"); ("age", VInt 7)])]%string []
    = Some (Ok (VDict [("main", VDict edited)]))
    /\ forall k,
         dget edited k
         = match declared
                   [VDict [("key", VStr "name"); ("value", VStr "first")];
                    VDict [("key", VStr EmptyString); ("value", VStr "lost")];
                    VDict [("key", VStr "name"); ("value", VStr "second")]]%string
                   k with
           | Some v => Some v
           | None => dget [("name", VStr "old"); ("age", VInt 7)]%string k
           end.
Proof.
  apply (@edit_fields_sets_declared demo_base rename_fields); try reflexivity.
  intros fd [<-|[<-|[<-|[]]]]; eexists; eexists; split; reflexivity.
Defined.

(** The node of the example renames and keeps the other key. *)
Example rename_fields_result :
  @DataNodeExecutor._execute_edit_fields demo_base rename_fields
    [("main", VDict [("name", VStr "old"); ("age", VInt 7)])]%string []
  = Some (Ok (VDict [("main", VDict [("name", VStr "second"); ("age", VInt 7)])])).
Proof. reflexivity. Qed.

Section OutputNodes.
Context {rt : PyRuntime}.
Import OutputNodeExecutor.

Lemma configured_or_work_not_blank (configured content : value) :
  configured_or_work configured = Ok content -> is_blank content = false.
Proof.
  unfold configured_or_work.
  destruct (truthy configured) eqn:Ht.
  - destruct configured; try discriminate.
    destruct (ExpressionEvaluator.nonempty (strip s)) eqn:Hs; intros H;
      inversion H; subst; [|reflexivity].
    unfold is_blank. now rewrite Ht, Hs.
  - intros H. inversion H. reflexivity.
Qed.

(** X23.  Whenever the readme viewer returns, the content it returns is
    not blank: it is neither a falsy value nor a string of white space
    only. *)
Theorem readme_viewer_never_blank (self : NodeExecutor) (now : nat)
  (inputs context : dict value) (returned : value) :
  _execute_readme_viewer self now inputs context = Ok returned ->
  exists content,
    output_field (Ok returned) "content" = Some content
    /\ is_blank content = false.
Proof.
  unfold _execute_readme_viewer.
  match goal with
  | |- bind ?first _ = _ -> _ => destruct first as [found|e]
  end; [|discriminate].
  cbn [bind]. destruct (is_blank found) eqn:Hb.
  - destruct (configured_or_work _) as [content|e] eqn:Hc; [|discriminate].
    cbn [bind]. intros H. inversion H; subst. exists content.
    split; [reflexivity|]. now apply configured_or_work_not_blank in Hc.
  - cbn [bind]. intros H. inversion H; subst. exists found.
    split; [reflexivity | assumption].
Qed.

End OutputNodes.

Lemma readme_viewer_never_blank_witness :
  exists content,
    output_field
      (Ok (VDict [("main",
             VDict [("title", VStr "Content Viewer");
                    ("content", VStr "work");
                    ("timestamp", VStr "0");
                    ("type", VStr "readme_viewer");
                    ("formatted", VBool true)])])) "content" = Some content
    /\ OutputNodeExecutor.is_blank content = false.
Proof.
  exact (@readme_viewer_never_blank demo_runtime (viewer "   ") 0
           [("main", VStr EmptyString)]%string [] _ eq_refl).
Defined.

(** ** The executor classes and their handlers *)

Section Dispatch.
Context {rt : PyRuntime} {ex : Executors}.
Import WorkflowExecutionEngine.

Lemma among_In (x : string) (l : list string) :
  existsb (String.eqb x) l = true -> In x l.
Proof.
  intros H. apply existsb_exists in H. destruct H as (y & Hy & E).
  apply String.eqb_eq in E. now subst.
Qed.

(** X24.  Every node type for which the engine chooses the trigger, data
    or output class has a handler in the table of that class, so the
    error of the class for an unknown type cannot arise in a run.  For the
    output class the call is that of one of its two methods.  For the data
    class the engine chooses but the types [filter], [edit-fields] and
    [code], so the outcome of its [execute] does not depend on the methods
    for [text-transform] and [notes]: these two types, for which the
    class has handlers as well, are rejected by the engine as unknown
    unless they are registered as dynamic nodes. *)
Theorem engine_types_have_handlers {base : BaseNodeExecutor} (node : Node) :
  (forall cls, _get_node_executor node = Ok cls ->
     (cls = TriggerNodeExecutor ->
      dmem TriggerNodeExecutor.handlers (node_type node) = true)
     /\ (cls = OutputNodeExecutor ->
         forall now inputs context,
           OutputNodeExecutor.execute node now inputs context
           = if String.eqb (node_type node) "respond-to-chat"
             then OutputNodeExecutor._execute_respond_to_chat node now inputs context
             else OutputNodeExecutor._execute_readme_viewer node now inputs context)
     /\ (cls = DataNodeExecutor ->
         dmem DataNodeExecutor.handlers (node_type node) = true
         /\ forall code transform transform' notes notes' inputs context,
              DataNodeExecutor.execute code transform notes node inputs context
              = DataNodeExecutor.execute code transform' notes' node inputs context))
  /\ (is_registered (node_type node) = false ->
      In (node_type node) ["text-transform"; "notes"]%string ->
      _get_node_executor node
      = Raise (ValueError ("Unknown node type: " ++ node_type node))).
Proof.
  split.
  - intros cls. unfold _get_node_executor.
    destruct (is_registered (node_type node));
      [intros H; inversion H; subst; repeat split; discriminate|].
    repeat match goal with
           | |- (if existsb ?f ?l then _ else _) = _ -> _ =>
               let E := fresh "E" in
               destruct (existsb f l) eqn:E;
               [intros H; inversion H; subst; clear H;
                apply among_In in E;
                split; [|split]; intros Hc; try discriminate Hc
               |clear E]
           end.
    + simpl in E. unfold dmem.
      destruct E as [<-|[<-|[<-|[<-|[]]]]]; reflexivity.
    + simpl in E. unfold DataNodeExecutor.execute, dmem.
      destruct E as [<-|[<-|[<-|[]]]]; split; reflexivity.
    + simpl in E. intros now inputs context. unfold OutputNodeExecutor.execute.
      destruct E as [<-|[<-|[]]]; reflexivity.
    + discriminate.
  - intros Hreg Hin. unfold _get_node_executor. rewrite Hreg.
    simpl in Hin. destruct Hin as [<-|[<-|[]]]; reflexivity.
Qed.

End Dispatch.

Lemma engine_types_have_handlers_witness :
  dmem DataNodeExecutor.handlers "filter" = true
  /\ @WorkflowExecutionEngine._get_node_executor demo_executors
       (demo_node "n" "notes")
     = Raise (ValueError "Unknown node type: notes").
Proof.
  split.
  - exact (proj1 (proj2 (proj2 (proj1 (@engine_types_have_handlers demo_runtime
             demo_executors demo_base (demo_node "f" "filter"))
             DataNodeExecutor eq_refl)) eq_refl)).
  - apply (proj2 (@engine_types_have_handlers demo_runtime demo_executors demo_base
                    (demo_node "n" "notes"))).
    + reflexivity.
    + simpl. auto.
Defined.

(** ** The webhook trigger *)

Section Webhook.
Context {rt : PyRuntime}.
Import TriggerNodeExecutor.
Variable self : NodeExecutor.
Variables inputs context : dict value.

(** X25.  When the payload of the run has a body that is a mapping and is
    not empty, the output of the webhook trigger has, for every key of the
    body, the value the body gives it: a field of the body named like one
    of the entries of the output ([path], [body], [method], ...) takes the
    place of that entry.  The payload in the context stays as it is. *)
Theorem webhook_body_fields_shadow (payload body : dict value) :
  dget context "trigger_data" = Some (VDict payload) ->
  dget payload "body" = Some (VDict body) ->
  body <> [] ->
  NoDup (dkeys body) ->
  (forall k v, dget body k = Some v ->
     output_field (returned (_execute_webhook self inputs context)) k = Some v)
  /\ dget (context_after (_execute_webhook self inputs context)) "trigger_data"
     = Some (VDict payload).
Proof.
  intros Hctx Hbody Hne Hnd.
  assert (Ht : truthy (VDict body) = true)
    by (destruct body; [contradiction | reflexivity]).
  assert (Hd : dget_default context "trigger_data" (VDict []) = VDict payload).
  { unfold dget_default. now rewrite Hctx. }
  assert (Hb : dget_default payload "body" (VDict []) = VDict body).
  { unfold dget_default. now rewrite Hbody. }
  assert (Hm : dmem context "trigger_data" = true).
  { unfold dmem. now rewrite Hctx. }
  unfold _execute_webhook. rewrite Hd, Hb, Hm, Ht.
  cbn [negb returned context_after]. split.
  - intros k v Hk. cbn [output_field dget String.eqb Ascii.eqb Bool.eqb].
    rewrite dget_dupdate by assumption. now rewrite Hk.
  - apply dget_dset_same.
Qed.

(** When the payload has no body, or an empty one, and the property
    [test_json] holds a text that parses, the webhook trigger returns, and
    it writes the parsed value as [body] into the payload that the context
    shares with the run. *)
Lemma webhook_fallback_effect (payload : dict value)
  (text : string) (parsed : value) :
  dget context "trigger_data" = Some (VDict payload) ->
  truthy (dget_default payload "body" (VDict [])) = false ->
  get_property self "test_json" (VStr EmptyString) = VStr text ->
  ExpressionEvaluator.nonempty (strip text) = true ->
  json_loads text = Some parsed ->
  (exists output, returned (_execute_webhook self inputs context) = Ok output)
  /\ dget (context_after (_execute_webhook self inputs context)) "trigger_data"
     = Some (VDict (dset payload "body" parsed)).
Proof.
  intros Hctx Hbody Hprop Hne Hparse.
  assert (Ht : truthy (VStr text) = true).
  { destruct text; [discriminate | reflexivity]. }
  assert (Hd : dget_default context "trigger_data" (VDict []) = VDict payload).
  { unfold dget_default. now rewrite Hctx. }
  assert (Hm : dmem context "trigger_data" = true).
  { unfold dmem. now rewrite Hctx. }
  unfold _execute_webhook. rewrite Hd, Hbody, Hm. cbn [negb].
  unfold test_body. rewrite Hprop, Ht, Hne, Hparse.
  cbn [returned context_after]. split; [eauto|]. apply dget_dset_same.
Qed.

End Webhook.

Lemma webhook_body_fields_shadow_witness :
  output_field
    (returned
       (@TriggerNodeExecutor._execute_webhook demo_runtime webhook_node []
          [("trigger_data",
             VDict [("body", VDict [("path", VStr "/elsewhere")])])]%string))
    "path" = Some (VStr "/elsewhere").
Proof.
  refine (proj1 (@webhook_body_fields_shadow demo_runtime webhook_node []
                   [("trigger_data",
                      VDict [("body", VDict [("path", VStr "/elsewhere")])])]%string
                   [("body", VDict [("path", VStr "/elsewhere")])]%string
                   [("path", VStr "/elsewhere")]%string
                   eq_refl eq_refl _ _) "path"%string _ eq_refl).
  - discriminate.
  - repeat constructor. simpl. tauto.
Defined.


(** ** Trigger nodes in a run *)

Section TriggerRun.
Context {rt : PyRuntime} {ex : Executors}.
Import WorkflowExecutionEngine.

Lemma dget_map_keyed {V : Type} (g : string * V -> string * V) (d : dict V)
  (k : string) :
  (forall kv, fst (g kv) = fst kv) ->
  dget (map g d) k
  = match dget d k with
    | Some v => Some (snd (g (k, v)))
    | None => None
    end.
Proof.
  intros Hg. induction d as [|[key v] d IH]; [reflexivity|].
  cbn [map dget]. pose proof (Hg (key, v)) as Hk.
  destruct (g (key, v)) as [key' v'] eqn:E. cbn [fst] in Hk. subst key'.
  cbn [dget]. destruct (String.eqb_spec key k) as [->|Hne]; [|exact IH].
  now rewrite E.
Qed.

(** A property that holds no block is handed to the executor as it is,
    and no property is added. *)
Lemma evaluate_properties_plain (props eval_context : dict value) (k : string) :
  match dget props k with
  | Some (VStr text) =>
      contains text "${{" = false ->
      dget (evaluate_properties props eval_context) k = Some (VStr text)
  | Some _ => True
  | None => dget (evaluate_properties props eval_context) k = None
  end.
Proof.
  unfold evaluate_properties. rewrite dget_map_keyed.
  - destruct (dget props k) as [[| | | |text| |]|]; try exact I; [|reflexivity].
    intros Hplain. now rewrite Hplain.
  - intros [key v]. destruct v; try reflexivity.
    destruct (contains s "${{"); [|reflexivity].
    destruct (evaluate_expression _ _ _); reflexivity.
Qed.

Hypothesis source_class : triggers_from_source.

(** What the execution of a trigger node comes to: the call of the
    handler, with the payload of the run in its context. *)
Lemma execute_trigger_node (node : Node) (edges : list Edge) (s : Run)
  (creds : dict value) :
  is_registered (node_type node) = false ->
  dmem TriggerNodeExecutor.handlers (node_type node) = true ->
  credentials (context s) = VDict creds ->
  exists inputs exec_context eval_context,
    dget exec_context "trigger_data" = Some (trigger_data (context s))
    /\ let call :=
         TriggerNodeExecutor.execute
           {| node_id := node_id node; node_type := node_type node;
              properties := evaluate_properties (properties node) eval_context |}
           inputs exec_context in
       trigger_data (context (snd (execute_node node edges s)))
       = dget_default (context_after call) "trigger_data"
           (trigger_data (context s))
       /\ fst (execute_node node edges s)
          = match returned call with
            | Ok v => Ok (normalize v)
            | Raise e => Raise e
            end.
Proof.
  intros Hreg Hhandler Hcreds.
  unfold execute_node, try_except, bindM, now, update, get_context, lift,
    record_dispatch, ret, raise.
  cbn [context clock dispatched].
  set (c1 := set_node_state (clock s) (context s) (node_id node) "running" []).
  assert (Hc : credentials c1 = VDict creds) by exact Hcreds.
  assert (Hexec : forall n, node_type n = node_type node ->
            _get_node_executor n = Ok TriggerNodeExecutor).
  { intros n Hn. unfold _get_node_executor. rewrite Hn, Hreg.
    unfold dmem, TriggerNodeExecutor.handlers in Hhandler. cbn [dget] in Hhandler.
    cbn [existsb].
    rewrite !(String.eqb_sym (node_type node)).
    repeat match goal with
           | |- context [String.eqb ?a (node_type node)] =>
               destruct (String.eqb a (node_type node)); [reflexivity|]
           end.
    discriminate. }
  rewrite Hexec by reflexivity. cbn [context clock dispatched].
  rewrite Hc. cbn [value_get context clock dispatched].
  rewrite source_class.
  match goal with
  | |- context [TriggerNodeExecutor.execute
                  {| node_id := _; node_type := _;
                     properties := evaluate_properties _ ?ec |} ?i ?c] =>
      exists i, c, ec
  end.
  split; [reflexivity|]. cbv zeta.
  match goal with |- context [returned ?c] => set (call := c) end.
  destruct (returned call) as [v|e]; cbn [context clock dispatched].
  - destruct (dget (context_after call) "chat_response");
      cbn [fst snd context]; split; reflexivity.
  - cbn [fst snd context]. split; reflexivity.
Qed.

(** X26.  In a run whose trigger class is that of the sources, the
    execution of a webhook node can change the payload of the run: when
    the payload has no body, or an empty one, and the property
    [test_json] of the node is a text without block that parses, the node
    completes and the payload of the run has the parsed value as [body]
    from then on. *)
Theorem webhook_node_changes_run_payload (node : Node) (edges : list Edge)
  (s : Run) (payload creds : dict value) (text : string) (parsed : value) :
  is_registered "webhook" = false ->
  node_type node = "webhook"%string ->
  dget (properties node) "test_json" = Some (VStr text) ->
  contains text "${{" = false ->
  ExpressionEvaluator.nonempty (strip text) = true ->
  json_loads text = Some parsed ->
  trigger_data (context s) = VDict payload ->
  truthy (dget_default payload "body" (VDict [])) = false ->
  credentials (context s) = VDict creds ->
  (exists v, fst (execute_node node edges s) = Ok v)
  /\ trigger_data (context (snd (execute_node node edges s)))
     = VDict (dset payload "body" parsed).
Proof.
  intros Hreg Htype Hprop Hplain Hne Hparse Hpayload Hbody Hcreds.
  destruct (execute_trigger_node node edges s creds)
    as (inputs & exec_context & eval_context & Hctx & Htd & Hret);
    try assumption.
  { now rewrite Htype. }
  { now rewrite Htype. }
  cbv zeta in Htd, Hret. rewrite Htd, Hret.
  unfold TriggerNodeExecutor.execute. cbn [node_type]. rewrite Htype.
  cbn [dget TriggerNodeExecutor.handlers String.eqb Ascii.eqb Bool.eqb].
  rewrite Hpayload in Hctx.
  match goal with
  | |- context [TriggerNodeExecutor._execute_webhook ?n ?i ?c] =>
      destruct (webhook_fallback_effect n i c payload text parsed)
        as [[output Hout] Hafter]; auto
  end.
  { unfold get_property, dget_default. cbn [properties].
    pose proof (evaluate_properties_plain (properties node) eval_context
                  "test_json") as H.
    rewrite Hprop in H. now rewrite (H Hplain). }
  rewrite Hout. unfold dget_default. rewrite Hafter. eauto.
Qed.

(** X27.  In a run whose trigger class is that of the sources and that
    was started without payload (or with a falsy one), a chat trigger
    node outputs the canned greeting as [message] and as [text], and the
    user [anonymous]. *)
Theorem chat_trigger_greets (node : Node) (edges : list Edge)
  (workflow_id execution_id : string) (payload keys : value) :
  is_registered "when-chat-received" = false ->
  node_type node = "when-chat-received"%string ->
  truthy payload = false ->
  is_dict (py_or keys (VDict [])) = true ->
  exists channel,
    fst (execute_node node edges
           (start_run workflow_id execution_id payload keys))
    = Ok (VDict [("main",
            VDict [("message", VStr "Hello, how can I help you today?");
                   ("user", VStr "anonymous");
                   ("channel", channel);
                   ("timestamp", VStr EmptyString);
                   ("text", VStr "Hello, how can I help you today?")])]).
Proof.
  intros Hreg Htype Hpayload Hcreds.
  set (s := start_run workflow_id execution_id payload keys).
  destruct (py_or keys (VDict [])) as [| | | | | |creds] eqn:Ec;
    try discriminate.
  destruct (execute_trigger_node node edges s creds)
    as (inputs & exec_context & eval_context & Hctx & _ & Hret).
  { now rewrite Htype. }
  { now rewrite Htype. }
  { unfold s, start_run. cbn [context credentials with_credentials]. exact Ec. }
  cbv zeta in Hret. rewrite Hret.
  unfold TriggerNodeExecutor.execute. cbn [node_type]. rewrite Htype.
  cbn [dget TriggerNodeExecutor.handlers String.eqb Ascii.eqb Bool.eqb returned].
  assert (Htd : trigger_data (context s) = default_trigger_data).
  { unfold s, start_run, py_or.
    cbn [context trigger_data with_credentials with_trigger_data].
    now rewrite Hpayload. }
  rewrite Htd in Hctx.
  unfold TriggerNodeExecutor._execute_chat_trigger,
    TriggerNodeExecutor.trigger_field, dget_default.
  rewrite Hctx. eexists. reflexivity.
Qed.

End TriggerRun.

Lemma source_triggers_from_source {rt : PyRuntime} :
  @triggers_from_source rt source_triggers.
Proof. intros node inputs exec_context. reflexivity. Qed.

Lemma webhook_node_changes_run_payload_witness :
  trigger_data
    (context (snd (@WorkflowExecutionEngine.execute_node json_runtime
                     (@source_triggers json_runtime) tested_webhook []
                     posted_run)))
  = VDict [("method", VStr "POST"); ("body", VList [VInt 7])].
Proof.
  exact (proj2 (@webhook_node_changes_run_payload json_runtime
                  (@source_triggers json_runtime)
                  (@source_triggers_from_source json_runtime)
                  tested_webhook [] posted_run
                  [("method", VStr "POST")]%string [] "[7]" (VList [VInt 7])
                  eq_refl eq_refl eq_refl eq_refl eq_refl eq_refl eq_refl
                  eq_refl eq_refl)).
Defined.

Lemma chat_trigger_greets_witness :
  exists channel,
    fst (@WorkflowExecutionEngine.execute_node demo_runtime
           (@source_triggers demo_runtime) chat_node []
           (WorkflowExecutionEngine.start_run "w" "x" VNone VNone))
    = Ok (VDict [("main",
            VDict [("message", VStr "Hello, how can I help you today?");
                   ("user", VStr "anonymous");
                   ("channel", channel);
                   ("timestamp", VStr EmptyString);
                   ("text", VStr "Hello, how can I help you today?")])]).
Proof.
  exact (@chat_trigger_greets demo_runtime (@source_triggers demo_runtime)
           (@source_triggers_from_source demo_runtime) chat_node [] "w" "x"
           VNone VNone eq_refl eq_refl eq_refl eq_refl).
Defined.

(** ** The reply to a chat *)

Section Reply.
Context {rt : PyRuntime}.
Import OutputNodeExecutor.

(** X28.  Whenever the respond-to-chat node returns, its [response] and
    its [text] are one and the same value, which is a string or a list:
    a message that is a number, a truth value, the none value or a mapping
    makes the node raise.  A configured message that is truthy is the
    reply, whatever the input. *)
Theorem chat_reply_is_text (self : NodeExecutor) (now : nat)
  (inputs context : dict value) (returned : value) :
  _execute_respond_to_chat self now inputs context = Ok returned ->
  exists message,
    output_field (Ok returned) "response" = Some message
    /\ output_field (Ok returned) "text" = Some message
    /\ (is_str message = true \/ exists l, message = VList l)
    /\ (truthy (get_property self "message" (VStr EmptyString)) = true ->
        message = get_property self "message" (VStr EmptyString)).
Proof.
  unfold _execute_respond_to_chat.
  set (configured := get_property self "message" (VStr EmptyString)).
  match goal with
  | |- bind (sliceable ?m) _ = _ -> _ => set (message := m)
  end.
  assert (Hc : truthy configured = true -> message = configured).
  { intros H. unfold message. now rewrite H. }
  clearbody message.
  destruct message; cbn [sliceable bind]; try discriminate;
    intros H; inversion H; subst; eexists;
    (split; [reflexivity|]); (split; [reflexivity|]); split; eauto.
Qed.

End Reply.

Lemma chat_reply_is_text_witness :
  exists message,
    output_field
      (@OutputNodeExecutor._execute_respond_to_chat demo_runtime
         {| node_id := "r"; node_type := "respond-to-chat"; properties := [] |}
         0 [("main", VDict [("text", VStr "hello")])]%string []) "response"
    = Some message
    /\ (is_str message = true \/ exists l, message = VList l).
Proof.
  destruct (@chat_reply_is_text demo_runtime
              {| node_id := "r"; node_type := "respond-to-chat"; properties := [] |}
              0 [("main", VDict [("text", VStr "hello")])]%string [] _ eq_refl)
    as (message & A & _ & B & _).
  exists message. split; [exact A | exact B].
Defined.

(** A number as the text of the input makes the node raise. *)
Example chat_reply_number_raises :
  @OutputNodeExecutor._execute_respond_to_chat demo_runtime
    {| node_id := "r"; node_type := "respond-to-chat"; properties := [] |}
    0 [("main", VDict [("text", VInt 42)])]%string []
  = Raise (TypeError "object is not subscriptable").
Proof. reflexivity. Qed.

(** ** The nodes a partial run selects *)

Lemma union_nodup (a b : list string) :
  NoDup a -> NoDup b -> NoDup (WorkflowExecutionEngine.union a b).
Proof.
  intros Ha Hb. unfold WorkflowExecutionEngine.union.
  apply NoDup_app; [assumption | now apply NoDup_filter |].
  intros x Hx Hf. apply filter_In in Hf. destruct Hf as [_ Hf].
  apply negb_true_iff, mem_false in Hf. contradiction.
Qed.

(** X29.  [_get_execution_subgraph] returns, each once, the given node,
    the nodes from which a path leads to it and, when the nodes downstream
    are asked for, the nodes to which a path leads from it. *)
Theorem execution_subgraph_members (start : string) (nodes : list Node)
  (edges : list Edge) (include_downstream : bool) :
  let chosen :=
    WorkflowExecutionEngine._get_execution_subgraph start nodes edges
      include_downstream in
  NoDup chosen
  /\ forall x, In x chosen
               <-> x = start \/ path edges x start
                   \/ (include_downstream = true /\ path edges start x).
Proof.
  cbv zeta. unfold WorkflowExecutionEngine._get_execution_subgraph.
  destruct (dependencies_spec start edges) as [Hnd Hin].
  destruct (reachable_spec source target edges start) as [Hnd' Hin'].
  fold (WorkflowExecutionEngine._get_downstream start edges) in Hnd', Hin'.
  assert (Hone : NoDup [start]) by (repeat constructor; intros []).
  destruct include_downstream.
  - split.
    + apply union_nodup; [apply union_nodup|]; assumption.
    + intros x. rewrite !in_union, Hin, Hin', path_forward. simpl.
      intuition auto.
  - split.
    + apply union_nodup; assumption.
    + intros x. rewrite in_union, Hin. simpl. intuition (auto; discriminate).
Qed.

(** ** The properties handed to an executor *)

Section Properties.
Context {rt : PyRuntime} {ex : Executors}.
Import WorkflowExecutionEngine.

(** X30.  The evaluation of the properties of a node, before its executor
    is called, keeps the keys of the properties and their order, and
    leaves every value as it is that is not a string holding the opening
    of a block. *)
Theorem plain_properties_untouched (props eval_context : dict value) :
  dkeys (evaluate_properties props eval_context) = dkeys props
  /\ forall k v,
       dget props k = Some v ->
       (forall text, v = VStr text -> contains text "${{" = false) ->
       dget (evaluate_properties props eval_context) k = Some v.
Proof.
  assert (Hkey : forall kv : string * value,
            fst (let '(key, v) := kv in
                 match v with
                 | VStr s =>
                     if contains s "${{"
                     then match evaluate_expression recursion_budget v eval_context with
                          | Ok evaluated => (key, evaluated)
                          | Raise _ => (key, v)
                          end
                     else (key, v)
                 | _ => (key, v)
                 end) = fst kv).
  { intros [key v]. destruct v; try reflexivity.
    destruct (contains s "${{"); [|reflexivity].
    destruct (evaluate_expression _ _ _); reflexivity. }
  split.
  - unfold evaluate_properties, dkeys. rewrite map_map.
    apply map_ext. exact Hkey.
  - intros k v Hk Hplain. unfold evaluate_properties.
    rewrite dget_map_keyed by exact Hkey. rewrite Hk.
    destruct v; try reflexivity.
    now rewrite (Hplain s eq_refl).
Qed.

End Properties.

Lemma plain_properties_untouched_witness :
  dget (@WorkflowExecutionEngine.evaluate_properties demo_runtime
          [("title", VStr "${{ json.count }}"); ("limit", VInt 3)]%string
          [("json", VDict [("count", VInt 5)])]%string) "limit"
  = Some (VInt 3).
Proof.
  apply (proj2 (@plain_properties_untouched demo_runtime _ _)).
  - reflexivity.
  - discriminate.
Defined.
